(** * Situation graph and coordinator of the disaster-response backend

    A shallow embedding of
    - [backend/graph/schemas.py] (the data model),
    - [backend/graph/situation_graph.py] ([SituationGraphManager]),
    - [backend/orchestrator/coordinator.py] ([_parse_urgency], the claim
      accumulator, [_check_contradictions], [_maybe_generate_recommendations]),
    - [backend/orchestrator/simulation.py] ([_inject_contradiction]),
    together with the properties the specification states about them.

    Conventions.  Python [str] is [string] (ASCII text), [datetime] is a
    number of microseconds ([Z]), a [float] held in a record is the
    rational number it stands for ([Q]); where coordinates are computed
    from floats, the operations are those of binary64; [Optional[T]] is
    [option T], a [dict] keyed by ids is a [gmap string _],
    a [dict] whose iteration order matters is an association list, a [set]
    is a [gset].  The successive [datetime.utcnow()] readings made inside one
    synchronous block are identified with one reading [now]; random
    identifiers ([uuid4]) are arguments.  A method that mutates [self] takes
    the state and returns the new one, next to the Python return value.
    Where the source lists the values of a [gmap] ([.values()]) the list
    comes in the order of the map, not in Python's insertion order; only
    its length, its emptiness and its members are used, and a function whose
    result depends on the order takes the listing as argument. *)

From Stdlib Require Import ZArith QArith Qminmax Lqa String Ascii List Bool Lia.
From stdpp Require Import base option list gmap strings fin_maps fin_sets.

Set Default Proof Using "Type".
Local Open Scope string_scope.
Local Open Scope Z_scope.

(* ===================================================================== *)
(** ** Python string primitives *)
(* ===================================================================== *)

Module PyStr.

(** [str.lower] on one ASCII character: ['A'..'Z'] move to ['a'..'z']. *)
Definition lower_ascii (c : ascii) : ascii :=
  let n := nat_of_ascii c in
  if (65 <=? n)%nat && (n <=? 90)%nat then ascii_of_nat (n + 32) else c.

(** [s.lower()] *)
Fixpoint lower (s : string) : string :=
  match s with
  | EmptyString => EmptyString
  | String c s' => String (lower_ascii c) (lower s')
  end.

(** [s.startswith(p)] *)
Fixpoint startswith (p s : string) : bool :=
  match p, s with
  | EmptyString, _ => true
  | String a p', String b s' => if decide (a = b) then startswith p' s' else false
  | String _ _, EmptyString => false
  end.

(** [needle in hay] for two strings: substring test. *)
Fixpoint contains (needle hay : string) : bool :=
  startswith needle hay ||
  match hay with
  | EmptyString => false
  | String _ hay' => contains needle hay'
  end.

(** [s.replace(old, new)] for one-character [old] and [new]. *)
Fixpoint replace_char (old new : ascii) (s : string) : string :=
  match s with
  | EmptyString => EmptyString
  | String c s' =>
      String (if decide (c = old) then new else c) (replace_char old new s')
  end.

(** Declarative reading of [needle in hay]. *)
Definition occurs_in (needle hay : string) : Prop :=
  ∃ pre post, hay = pre +:+ needle +:+ post.

End PyStr.

(* ===================================================================== *)
(** ** schemas.py: enumerations *)
(* ===================================================================== *)

Inductive DamageLevel := DMG_NONE | MINOR | MODERATE | SEVERE | CATASTROPHIC.
Inductive Urgency := CRITICAL | HIGH | MEDIUM | LOW.
Inductive SourceType := IMAGE | AUDIO | TEXT | DOCUMENT | SATELLITE.
Inductive Verdict := CONSISTENT | CONTRADICTION | UNCERTAIN | TEMPORAL_GAP.
Inductive ActionType := ACCEPT | FLAG_FOR_HUMAN | REQUEST_VERIFICATION | WAIT.

(** The [Literal[...]] status fields. *)
Inductive IncidentStatus := inc_active | inc_responding | inc_contained | inc_resolved.
Inductive ResourceStatus :=
  res_available | res_dispatched | res_on_scene | res_returning | res_offline.
Inductive ActionStatus :=
  act_pending | act_approved | act_rejected | act_executed | act_expired.
Inductive Severity := sev_low | sev_medium | sev_high.

#[global] Instance Urgency_eq_dec : EqDecision Urgency.
Proof. solve_decision. Defined.
#[global] Instance Verdict_eq_dec : EqDecision Verdict.
Proof. solve_decision. Defined.
#[global] Instance IncidentStatus_eq_dec : EqDecision IncidentStatus.
Proof. solve_decision. Defined.
#[global] Instance ResourceStatus_eq_dec : EqDecision ResourceStatus.
Proof. solve_decision. Defined.
#[global] Instance ActionStatus_eq_dec : EqDecision ActionStatus.
Proof. solve_decision. Defined.

(** [Urgency.value] and the constructor-by-value [Urgency(level)], which
    raises [ValueError] (here [None]) on any other string. *)
Definition Urgency_value (u : Urgency) : string :=
  match u with
  | CRITICAL => "critical" | HIGH => "high" | MEDIUM => "medium" | LOW => "low"
  end.

Definition Urgency_of_value (s : string) : option Urgency :=
  if decide (s = "critical") then Some CRITICAL
  else if decide (s = "high") then Some HIGH
  else if decide (s = "medium") then Some MEDIUM
  else if decide (s = "low") then Some LOW
  else None.

(* ===================================================================== *)
(** ** coordinator.py: [_parse_urgency] *)
(* ===================================================================== *)

(** The tuple the [for] loop walks, in source order. *)
Definition urgency_levels : list string := ["critical"; "high"; "medium"; "low"].

(** The loop [for level in (...): if level in raw: return Urgency(level)]:
    the first level of the tuple that occurs in [raw]. *)
Fixpoint first_level_in (levels : list string) (raw : string) : option string :=
  match levels with
  | [] => None
  | level :: rest =>
      if PyStr.contains level raw then Some level else first_level_in rest raw
  end.

Definition _parse_urgency (raw : string) : Urgency :=
  let raw := PyStr.lower raw in
  match first_level_in urgency_levels raw with
  | Some level => default HIGH (Urgency_of_value level)
  | None => HIGH
  end.

(** [level] occurs in the input once case is folded. *)
Definition mentions (level raw : string) : Prop :=
  PyStr.occurs_in level (PyStr.lower raw).

(* ===================================================================== *)
(** ** schemas.py: records *)
(* ===================================================================== *)

(** Field names carry a short prefix of their class ([inc_], [res_], [act_],
    [alert_]) because several classes share the names [id], [status],
    [confidence]... *)

Definition datetime := Z.

Record Location := mkLocation {
  lat : Q;
  lng : Q;
  address : option string;
  sector : option string;
  name : option string;
}.

Record SourceReference := mkSourceReference {
  source_id : string;
  source_type : SourceType;
  src_timestamp : datetime;
  raw_content_ref : string;
  credibility_score : Q;
}.

Record IncidentNode := mkIncidentNode {
  inc_id : string;
  incident_type : string;
  inc_location : Location;
  damage_level : DamageLevel;
  inc_urgency : Urgency;
  trapped_min : option Z;
  trapped_max : option Z;
  injured_min : option Z;
  injured_max : option Z;
  inc_confidence : Q;
  inc_sources : list SourceReference;
  inc_created_at : datetime;
  inc_updated_at : datetime;
  inc_contradictions : list string;
  decay_rate : Q;
  inc_status : IncidentStatus;
  assigned_resources : list string;
}.

Record ResourceNode := mkResourceNode {
  res_id : string;
  resource_type : string;
  unit_id : string;
  current_location : Location;
  destination : option Location;
  res_status : ResourceStatus;
  assigned_incident : option string;
  personnel : Z;
  capacity_remaining : Z;
  eta_minutes : option Z;
  res_updated_at : datetime;
}.

(** One entry of a claim list (a [dict] with these five keys). *)
Record Claim := mkClaim {
  claim_source : string;
  claim_source_type : string;
  claim_text : string;
  claim_confidence : Q;
  claim_timestamp : string;
}.

Record ContradictionAlert := mkContradictionAlert {
  alert_id : string;
  entity_id : string;
  entity_type : string;
  entity_name : string;
  alert_claims : list Claim;
  verdict : Verdict;
  severity : Severity;
  temporal_analysis : option string;
  recommended_action : ActionType;
  recommended_action_details : string;
  alert_urgency : Urgency;
  alert_created_at : datetime;
  resolved : bool;
  resolution : option string;
  resolved_by : option string;
  resolved_at : option datetime;
}.

Record ActionRecommendation := mkActionRecommendation {
  act_id : string;
  action_type : string;
  target_incident_id : option string;
  target_location : option Location;
  target_sector : option string;
  resources_to_allocate : list string;
  rationale : string;
  supporting_factors : list string;
  act_confidence : Q;
  uncertainty_factors : list string;
  requires_human_approval : bool;
  decision_deadline : datetime;
  time_sensitivity : Urgency;
  act_status : ActionStatus;
  act_created_at : datetime;
  decided_at : option datetime;
  decided_by : option string;
}.

(** The dictionaries of [SituationGraph] that the operations below read or
    write, and its [last_updated] stamp. *)
Record SituationGraph := mkSituationGraph {
  incidents : gmap string IncidentNode;
  resources : gmap string ResourceNode;
  contradictions : gmap string ContradictionAlert;
  pending_actions : gmap string ActionRecommendation;
  scenario_id : string;
  scenario_name : string;
  scenario_start_time : datetime;
  current_sim_time : datetime;
  last_updated : datetime;
}.

(** Values stored under the keys of an audit event's [data] dict. *)
Inductive audit_value :=
| AStr (s : string)
| AOpt (o : option string)
| AList (l : list string)
| AVerdict (v : Verdict).

Record audit_event := mkAuditEvent {
  ev_timestamp : datetime;
  event_type : string;
  ev_data : list (string * audit_value);
}.

Record SituationGraphManager := mkManager {
  graph : SituationGraph;
  audit_log : list audit_event;
}.

(** *** In-place attribute assignments *)

Definition set_incidents (v : gmap string IncidentNode) (g : SituationGraph) :=
  mkSituationGraph v (resources g) (contradictions g) (pending_actions g)
    (scenario_id g) (scenario_name g) (scenario_start_time g)
    (current_sim_time g) (last_updated g).

Definition set_resources (v : gmap string ResourceNode) (g : SituationGraph) :=
  mkSituationGraph (incidents g) v (contradictions g) (pending_actions g)
    (scenario_id g) (scenario_name g) (scenario_start_time g)
    (current_sim_time g) (last_updated g).

Definition set_contradictions (v : gmap string ContradictionAlert) (g : SituationGraph) :=
  mkSituationGraph (incidents g) (resources g) v (pending_actions g)
    (scenario_id g) (scenario_name g) (scenario_start_time g)
    (current_sim_time g) (last_updated g).

Definition set_pending_actions (v : gmap string ActionRecommendation) (g : SituationGraph) :=
  mkSituationGraph (incidents g) (resources g) (contradictions g) v
    (scenario_id g) (scenario_name g) (scenario_start_time g)
    (current_sim_time g) (last_updated g).

Definition set_last_updated (now : datetime) (g : SituationGraph) :=
  mkSituationGraph (incidents g) (resources g) (contradictions g)
    (pending_actions g) (scenario_id g) (scenario_name g)
    (scenario_start_time g) (current_sim_time g) now.

(** [action.status = st; action.decided_at = now; action.decided_by = who] *)
Definition decide_action (st : ActionStatus) (now : datetime) (who : string)
    (a : ActionRecommendation) : ActionRecommendation :=
  mkActionRecommendation (act_id a) (action_type a) (target_incident_id a)
    (target_location a) (target_sector a) (resources_to_allocate a)
    (rationale a) (supporting_factors a) (act_confidence a)
    (uncertainty_factors a) (requires_human_approval a) (decision_deadline a)
    (time_sensitivity a) st (act_created_at a) (Some now) (Some who).

(** The four or five assignments made to a resource on dispatch or release. *)
Definition set_assignment (st : ResourceStatus) (inc : option string)
    (dest : option Location) (eta : option Z) (now : datetime)
    (r : ResourceNode) : ResourceNode :=
  mkResourceNode (res_id r) (resource_type r) (unit_id r) (current_location r)
    dest st inc (personnel r) (capacity_remaining r) eta now.

(** [incident.status = st; incident.assigned_resources = rs;
    incident.updated_at = now] *)
Definition set_response (st : IncidentStatus) (rs : list string) (now : datetime)
    (i : IncidentNode) : IncidentNode :=
  mkIncidentNode (inc_id i) (incident_type i) (inc_location i) (damage_level i)
    (inc_urgency i) (trapped_min i) (trapped_max i) (injured_min i)
    (injured_max i) (inc_confidence i) (inc_sources i) (inc_created_at i)
    now (inc_contradictions i) (decay_rate i) st rs.

(** [incident.assigned_resources = rs], nothing else. *)
Definition set_assigned_resources (rs : list string) (i : IncidentNode) : IncidentNode :=
  set_response (inc_status i) rs (inc_updated_at i) i.

Definition set_confidence (c : Q) (i : IncidentNode) : IncidentNode :=
  mkIncidentNode (inc_id i) (incident_type i) (inc_location i) (damage_level i)
    (inc_urgency i) (trapped_min i) (trapped_max i) (injured_min i)
    (injured_max i) c (inc_sources i) (inc_created_at i)
    (inc_updated_at i) (inc_contradictions i) (decay_rate i) (inc_status i)
    (assigned_resources i).

(** [alert.resolved = True; alert.resolution = ...; alert.resolved_by = ...;
    alert.resolved_at = now] *)
Definition set_resolution (res who : string) (now : datetime)
    (a : ContradictionAlert) : ContradictionAlert :=
  mkContradictionAlert (alert_id a) (entity_id a) (entity_type a)
    (entity_name a) (alert_claims a) (verdict a) (severity a)
    (temporal_analysis a) (recommended_action a)
    (recommended_action_details a) (alert_urgency a) (alert_created_at a)
    true (Some res) (Some who) (Some now).

(** Truth value of a Python [str]: empty is false. *)
Definition truthy (s : string) : bool := negb (String.eqb s "").

(** [l.remove(x)]: drop the first occurrence (the caller has checked
    [x in l]). *)
Fixpoint list_remove_first (x : string) (l : list string) : list string :=
  match l with
  | [] => []
  | y :: l' => if decide (y = x) then l' else y :: list_remove_first x l'
  end.

(** Python's [max(a, b)] for two arguments: the first one unless the second
    is strictly greater. *)
Definition py_max (a b : Q) : Q := if Qlt_le_dec a b then b else a.

(* ===================================================================== *)
(** ** situation_graph.py: [SituationGraphManager] *)
(* ===================================================================== *)

(** Every operation takes the clock reading [now] and the manager, and
    returns the Python return value together with the mutated manager. *)

Definition _log_event (now : datetime) (ty : string)
    (data : list (string * audit_value)) (m : SituationGraphManager) :=
  mkManager (graph m) (audit_log m ++ [mkAuditEvent now ty data])%list.

Definition with_graph (f : SituationGraph → SituationGraph)
    (m : SituationGraphManager) : SituationGraphManager :=
  mkManager (f (graph m)) (audit_log m).

Definition add_incident (now : datetime) (incident : IncidentNode)
    (m : SituationGraphManager) : SituationGraphManager :=
  let g := graph m in
  let g := set_incidents (<[inc_id incident := incident]> (incidents g)) g in
  let g := set_last_updated now g in
  _log_event now "incident_added"
    [("incident_id", AStr (inc_id incident)); ("type", AStr (incident_type incident))]
    (mkManager g (audit_log m)).

Definition add_resource (now : datetime) (resource : ResourceNode)
    (m : SituationGraphManager) : SituationGraphManager :=
  let g := graph m in
  let g := set_resources (<[res_id resource := resource]> (resources g)) g in
  mkManager (set_last_updated now g) (audit_log m).

Definition add_contradiction (now : datetime) (alert : ContradictionAlert)
    (m : SituationGraphManager) : SituationGraphManager :=
  let g := graph m in
  let g := set_contradictions (<[alert_id alert := alert]> (contradictions g)) g in
  let g := set_last_updated now g in
  _log_event now "contradiction_added"
    [("alert_id", AStr (alert_id alert)); ("entity", AStr (entity_name alert));
     ("verdict", AVerdict (verdict alert))]
    (mkManager g (audit_log m)).

Definition resolve_contradiction (now : datetime) (id : string)
    (res : string) (who : string) (m : SituationGraphManager)
  : option ContradictionAlert * SituationGraphManager :=
  let g := graph m in
  match contradictions g !! id with
  | None => (None, m)
  | Some alert =>
      let alert := set_resolution res who now alert in
      let g := set_contradictions (<[id := alert]> (contradictions g)) g in
      let g := set_last_updated now g in
      (Some alert,
       _log_event now "contradiction_resolved"
         [("alert_id", AStr id); ("resolution", AStr res); ("resolved_by", AStr who)]
         (mkManager g (audit_log m)))
  end.

Definition add_action (now : datetime) (action : ActionRecommendation)
    (m : SituationGraphManager) : SituationGraphManager :=
  let g := graph m in
  let g := set_pending_actions (<[act_id action := action]> (pending_actions g)) g in
  let g := set_last_updated now g in
  _log_event now "action_recommended"
    [("action_id", AStr (act_id action)); ("action_type", AStr (action_type action));
     ("resources", AList (resources_to_allocate action))]
    (mkManager g (audit_log m)).

(** The assignments made to one resource inside the loop of
    [approve_action]; [destination] is written only under
    [if action.target_location:]. *)
Definition dispatched (now : datetime) (action : ActionRecommendation)
    (resource : ResourceNode) : ResourceNode :=
  set_assignment res_dispatched (target_incident_id action)
    (match target_location action with
     | Some loc => Some loc
     | None => destination resource
     end)
    (Some 8) now resource.

(** Body of the loop [for resource_id in action.resources_to_allocate]. *)
Definition dispatch_resource (now : datetime) (action : ActionRecommendation)
    (rs : gmap string ResourceNode) (resource_id : string)
  : gmap string ResourceNode :=
  match rs !! resource_id with
  | None => rs                            (* [if resource_id in ...resources] *)
  | Some resource => <[resource_id := dispatched now action resource]> rs
  end.

(** The block under [# Update incident status]. *)
Definition respond_incident (now : datetime) (action : ActionRecommendation)
    (incs : gmap string IncidentNode) : gmap string IncidentNode :=
  match target_incident_id action with
  | None => incs
  | Some tid =>
      if truthy tid then
        match incs !! tid with
        | None => incs
        | Some incident =>
            <[tid :=
                set_response inc_responding
                  (assigned_resources incident ++ resources_to_allocate action)%list
                  now incident]> incs
        end
      else incs
  end.

Definition approve_action (now : datetime) (action_id : string)
    (who : string) (m : SituationGraphManager)
  : option ActionRecommendation * SituationGraphManager :=
  let g := graph m in
  match pending_actions g !! action_id with
  | None => (None, m)
  | Some action =>
      let action := decide_action act_approved now who action in
      let g := set_pending_actions (<[action_id := action]> (pending_actions g)) g in
      let g := set_last_updated now g in
      let g := set_resources
                 (foldl (dispatch_resource now action) (resources g)
                    (resources_to_allocate action)) g in
      let g := set_incidents (respond_incident now action (incidents g)) g in
      (Some action,
       _log_event now "action_approved"
         [("action_id", AStr action_id); ("decided_by", AStr who);
          ("resources", AList (resources_to_allocate action))]
         (mkManager g (audit_log m)))
  end.

Definition reject_action (now : datetime) (action_id : string)
    (reason : option string) (who : string) (m : SituationGraphManager)
  : option ActionRecommendation * SituationGraphManager :=
  let g := graph m in
  match pending_actions g !! action_id with
  | None => (None, m)
  | Some action =>
      let action := decide_action act_rejected now who action in
      let g := set_pending_actions (<[action_id := action]> (pending_actions g)) g in
      let g := set_last_updated now g in
      (Some action,
       _log_event now "action_rejected"
         [("action_id", AStr action_id); ("reason", AOpt reason);
          ("decided_by", AStr who)]
         (mkManager g (audit_log m)))
  end.

(** [[r for r in self.graph.resources.values() if r.status == "available"]] *)
Definition get_available_resources (m : SituationGraphManager) : list ResourceNode :=
  filter (λ r, res_status r = res_available)
    (snd <$> map_to_list (resources (graph m))).

(** One iteration of the loop of [decay_confidences]. *)
Definition decay_incident (elapsed_minutes : Q) (incident : IncidentNode) : IncidentNode :=
  if decide (inc_status incident = inc_active) then
    let decay := (decay_rate incident * elapsed_minutes)%Q in
    set_confidence (py_max (1 # 10) (inc_confidence incident - decay)%Q) incident
  else incident.

Definition decay_confidences (now : datetime) (elapsed_minutes : Q)
    (m : SituationGraphManager) : SituationGraphManager :=
  let g := graph m in
  let g := set_incidents (decay_incident elapsed_minutes <$> incidents g) g in
  mkManager (set_last_updated now g) (audit_log m).

Definition assign_resource_manual (now : datetime) (resource_id incident_id : string)
    (m : SituationGraphManager) : option ResourceNode * SituationGraphManager :=
  let g := graph m in
  match resources g !! resource_id, incidents g !! incident_id with
  | Some resource, Some incident =>
      let resource :=
        set_assignment res_dispatched (Some incident_id)
          (Some (inc_location incident)) (Some 8) now resource in
      let rs :=
        if decide (resource_id ∈ assigned_resources incident)
        then assigned_resources incident
        else (assigned_resources incident ++ [resource_id])%list in
      let incident := set_response (inc_status incident) rs now incident in
      let g := set_resources (<[resource_id := resource]> (resources g)) g in
      let g := set_incidents (<[incident_id := incident]> (incidents g)) g in
      let g := set_last_updated now g in
      (Some resource,
       _log_event now "resource_assigned"
         [("resource_id", AStr resource_id); ("incident_id", AStr incident_id)]
         (mkManager g (audit_log m)))
  | _, _ => (None, m)
  end.

(** The block [if old_incident_id and old_incident_id in self.graph.incidents]
    of [unassign_resource]. *)
Definition release_from_incident (resource_id : string) (old : option string)
    (incs : gmap string IncidentNode) : gmap string IncidentNode :=
  match old with
  | None => incs
  | Some old_incident_id =>
      if truthy old_incident_id then
        match incs !! old_incident_id with
        | None => incs
        | Some incident =>
            if decide (resource_id ∈ assigned_resources incident) then
              <[old_incident_id :=
                  set_assigned_resources
                    (list_remove_first resource_id (assigned_resources incident))
                    incident]> incs
            else incs
        end
      else incs
  end.

Definition unassign_resource (now : datetime) (resource_id : string)
    (m : SituationGraphManager) : option ResourceNode * SituationGraphManager :=
  let g := graph m in
  match resources g !! resource_id with
  | None => (None, m)
  | Some resource =>
      let old_incident_id := assigned_incident resource in
      let resource := set_assignment res_available None None None now resource in
      let g := set_resources (<[resource_id := resource]> (resources g)) g in
      let g := set_incidents
                 (release_from_incident resource_id old_incident_id (incidents g)) g in
      let g := set_last_updated now g in
      (Some resource,
       _log_event now "resource_unassigned" [("resource_id", AStr resource_id)]
         (mkManager g (audit_log m)))
  end.

(** [SituationGraphManager()] and [reset]: an empty graph stamped [now]. *)
Definition empty_graph (now : datetime) : SituationGraph :=
  mkSituationGraph ∅ ∅ ∅ ∅ "" "" now now now.

Definition new_manager (now : datetime) : SituationGraphManager :=
  mkManager (empty_graph now) [].

(* ===================================================================== *)
(** ** situation_graph.py: [update_incident] and [update_resource] *)
(* ===================================================================== *)

(** These two methods are reflective ([hasattr] / [setattr] on keys chosen
    by the caller, with no validation of the stored value), so they are
    modelled at the level of the instance dictionary: a node is the finite
    map from the names of its fields to dynamically typed values.  Besides
    its fields a node has the attributes of its class, the methods and
    properties of the model base class ([model_dump], [model_copy], ...):
    [hasattr] is true of them as well, and [setattr] on such a name raises
    [ValueError], since the model has no field of that name. *)
Module Reflect.

#[warnings="-register-all"]
Inductive pyval :=
| PNone
| PBool (b : bool)
| PInt (z : Z)
| PFloat (q : Q)
| PStr (s : string)
| PDatetime (t : datetime)
| PList (l : list pyval)
| PDict (d : list (string * pyval)).

Abbreviation pyobject := (gmap string pyval).

(** [key] is a field of [obj]. *)
Definition is_field (obj : pyobject) (key : string) : bool :=
  bool_decide (is_Some (obj !! key)).

Record graph := mkGraph {
  incidents : gmap string pyobject;
  resources : gmap string pyobject;
  last_updated : datetime;
}.

Record manager := mkManager {
  mgr_graph : graph;
  audit_log : list (datetime * string * string * list string);
}.

(** How a call ends: with its return value, or by an exception that leaves
    the method. *)
Inductive result :=
| Returned (o : option pyobject)
| Raised.

Section Node.

(** The public names that a node inherits from its class, whose code (the
    model base class) is not in this repository.  Names that start with an
    underscore are outside the model. *)
Variable class_attr : string → bool.

Definition hasattr (obj : pyobject) (key : string) : bool :=
  is_field obj key || class_attr key.

(** [setattr(obj, key, value)]: a field is written, without validation; on
    any other name the model raises ([None]). *)
Definition setattr (obj : pyobject) (key : string) (value : pyval) : option pyobject :=
  if is_field obj key then Some (<[key := value]> obj) else None.

(** [for key, value in updates.items(): if hasattr(o, key): setattr(o, key, value)];
    the boolean tells that [setattr] has raised: the loop stops there, with
    the entries before it applied to the node. *)
Fixpoint apply_updates (obj : pyobject) (updates : list (string * pyval))
  : pyobject * bool :=
  match updates with
  | [] => (obj, false)
  | kv :: rest =>
      if hasattr obj kv.1 then
        match setattr obj kv.1 kv.2 with
        | Some obj' => apply_updates obj' rest
        | None => (obj, true)
        end
      else apply_updates obj rest
  end.

(** The node is updated in place, so what the loop has written before an
    exception stays in the graph; [updated_at] is a field of both kinds of
    node. *)
Definition update_incident (now : datetime) (incident_id : string)
    (updates : list (string * pyval)) (m : manager) : result * manager :=
  let g := mgr_graph m in
  match incidents g !! incident_id with
  | None => (Returned None, m)
  | Some incident =>
      let r := apply_updates incident updates in
      if r.2 then
        (Raised,
         mkManager
           (mkGraph (<[incident_id := r.1]> (incidents g)) (resources g) (last_updated g))
           (audit_log m))
      else
        let incident := <["updated_at" := PDatetime now]> r.1 in
        (Returned (Some incident),
         mkManager
           (mkGraph (<[incident_id := incident]> (incidents g)) (resources g) now)
           (audit_log m ++ [(now, "incident_updated", incident_id, updates.*1)])%list)
  end.

Definition update_resource (now : datetime) (resource_id : string)
    (updates : list (string * pyval)) (m : manager) : result * manager :=
  let g := mgr_graph m in
  match resources g !! resource_id with
  | None => (Returned None, m)
  | Some resource =>
      let r := apply_updates resource updates in
      if r.2 then
        (Raised,
         mkManager
           (mkGraph (incidents g) (<[resource_id := r.1]> (resources g)) (last_updated g))
           (audit_log m))
      else
        let resource := <["updated_at" := PDatetime now]> r.1 in
        (Returned (Some resource),
         mkManager
           (mkGraph (incidents g) (<[resource_id := resource]> (resources g)) now)
           (audit_log m))
  end.

End Node.

(** Every key of [updates] is a field of [o] or no attribute at all. *)
Definition plain_keys (class_attr : string → bool) (o : pyobject)
    (updates : list (string * pyval)) : Prop :=
  Forall (λ kv, is_Some (o !! kv.1) ∨ class_attr kv.1 = false) updates.

(** The value the loop leaves under [key]: the one of the last entry of
    [updates] that names [key], if any. *)
Fixpoint last_update (key : string) (updates : list (string * pyval)) : option pyval :=
  match updates with
  | [] => None
  | kv :: rest =>
      match last_update key rest with
      | Some v => Some v
      | None => if decide (kv.1 = key) then Some kv.2 else None
      end
  end.

(** [o'] is [o] after the entries of [updates] that name one of its
    attributes have been applied and [updated_at] has been stamped: an
    attribute holds the last value given for it, or its old value when
    [updates] does not name it; a key that is not an attribute of [o] is
    not one of [o'] either. *)
Definition updated_from (now : datetime) (updates : list (string * pyval))
    (o o' : pyobject) : Prop :=
  o' !! "updated_at" = Some (PDatetime now) ∧
  ∀ key, key ≠ "updated_at" →
    o' !! key =
    match o !! key with
    | Some old => Some (default old (last_update key updates))
    | None => None
    end.

(** *** Instance dictionaries of typed nodes *)

Definition of_opt {A} (f : A → pyval) (o : option A) : pyval :=
  match o with Some x => f x | None => PNone end.

Definition of_location (l : Location) : pyval :=
  PDict [("lat", PFloat (lat l)); ("lng", PFloat (lng l));
         ("address", of_opt PStr (address l)); ("sector", of_opt PStr (sector l));
         ("name", of_opt PStr (name l))].

Definition of_resource_status (s : ResourceStatus) : pyval :=
  PStr match s with
       | res_available => "available" | res_dispatched => "dispatched"
       | res_on_scene => "on_scene" | res_returning => "returning"
       | res_offline => "offline"
       end.

Definition resource_dict (r : ResourceNode) : pyobject :=
  list_to_map
    [("id", PStr (res_id r)); ("type", PStr "resource");
     ("resource_type", PStr (resource_type r)); ("unit_id", PStr (unit_id r));
     ("current_location", of_location (current_location r));
     ("destination", of_opt of_location (destination r));
     ("status", of_resource_status (res_status r));
     ("assigned_incident", of_opt PStr (assigned_incident r));
     ("personnel", PInt (personnel r));
     ("capacity_remaining", PInt (capacity_remaining r));
     ("eta_minutes", of_opt PInt (eta_minutes r));
     ("updated_at", PDatetime (res_updated_at r))].

Definition of_incident_status (s : IncidentStatus) : pyval :=
  PStr match s with
       | inc_active => "active" | inc_responding => "responding"
       | inc_contained => "contained" | inc_resolved => "resolved"
       end.

Definition of_damage_level (d : DamageLevel) : pyval :=
  PStr match d with
       | DMG_NONE => "none" | MINOR => "minor" | MODERATE => "moderate"
       | SEVERE => "severe" | CATASTROPHIC => "catastrophic"
       end.

Definition of_source_type (t : SourceType) : pyval :=
  PStr match t with
       | IMAGE => "image" | AUDIO => "audio" | TEXT => "text"
       | DOCUMENT => "document" | SATELLITE => "satellite"
       end.

Definition of_source (r : SourceReference) : pyval :=
  PDict [("source_id", PStr (source_id r)); ("source_type", of_source_type (source_type r));
         ("timestamp", PDatetime (src_timestamp r));
         ("raw_content_ref", PStr (raw_content_ref r));
         ("credibility_score", PFloat (credibility_score r))].

Definition incident_dict (i : IncidentNode) : pyobject :=
  list_to_map
    [("id", PStr (inc_id i)); ("type", PStr "incident");
     ("incident_type", PStr (incident_type i));
     ("location", of_location (inc_location i));
     ("damage_level", of_damage_level (damage_level i));
     ("urgency", PStr (Urgency_value (inc_urgency i)));
     ("trapped_min", of_opt PInt (trapped_min i));
     ("trapped_max", of_opt PInt (trapped_max i));
     ("injured_min", of_opt PInt (injured_min i));
     ("injured_max", of_opt PInt (injured_max i));
     ("confidence", PFloat (inc_confidence i));
     ("sources", PList (of_source <$> inc_sources i));
     ("created_at", PDatetime (inc_created_at i));
     ("updated_at", PDatetime (inc_updated_at i));
     ("contradictions", PList (PStr <$> inc_contradictions i));
     ("decay_rate", PFloat (decay_rate i));
     ("status", of_incident_status (inc_status i));
     ("assigned_resources", PList (PStr <$> assigned_resources i))].

End Reflect.

(* ===================================================================== *)
(** ** coordinator.py: state *)
(* ===================================================================== *)

(** [signal_claims] maps an entity name to a Python list object.  The
    detector iterates over [list(self.signal_claims.items())], a snapshot
    that holds references to those list objects, so the lists live in a
    store ([claim_store], indexed by allocation order) and the dictionary
    and the snapshots hold indices into it.

    [detector_alerts] is a history variable, absent from the source: the
    ids of the alerts of the graph that [_check_contradictions] wrote (an
    alert does not record which path created it).

    The timeline ring [recent_events] and the broadcasts only feed the
    dashboards and are left out. *)
Record Coordinator := mkCoordinator {
  graph_manager : SituationGraphManager;
  claim_store : list (list Claim);
  signal_claims : list (string * nat);
  handled_contradictions : gset string;
  simulation_running : bool;
  simulation_paused : bool;
  _last_planning_call : option datetime;
  _planning_cooldown_seconds : Z;
  detector_alerts : gset string;
}.

(** [Coordinator.__init__] *)
Definition new_coordinator (now : datetime) : Coordinator :=
  mkCoordinator (new_manager now) [] [] ∅ false false None 20 ∅.

Definition set_graph_manager (m : SituationGraphManager) (c : Coordinator) :=
  mkCoordinator m (claim_store c) (signal_claims c) (handled_contradictions c)
    (simulation_running c) (simulation_paused c) (_last_planning_call c)
    (_planning_cooldown_seconds c) (detector_alerts c).

Definition set_claims (store : list (list Claim)) (sc : list (string * nat))
    (c : Coordinator) :=
  mkCoordinator (graph_manager c) store sc (handled_contradictions c)
    (simulation_running c) (simulation_paused c) (_last_planning_call c)
    (_planning_cooldown_seconds c) (detector_alerts c).

Definition set_handled (h : gset string) (c : Coordinator) :=
  mkCoordinator (graph_manager c) (claim_store c) (signal_claims c) h
    (simulation_running c) (simulation_paused c) (_last_planning_call c)
    (_planning_cooldown_seconds c) (detector_alerts c).

Definition set_simulation (running paused : bool) (c : Coordinator) :=
  mkCoordinator (graph_manager c) (claim_store c) (signal_claims c)
    (handled_contradictions c) running paused (_last_planning_call c)
    (_planning_cooldown_seconds c) (detector_alerts c).

Definition set_last_planning_call (t : datetime) (c : Coordinator) :=
  mkCoordinator (graph_manager c) (claim_store c) (signal_claims c)
    (handled_contradictions c) (simulation_running c) (simulation_paused c)
    (Some t) (_planning_cooldown_seconds c) (detector_alerts c).

Definition set_detector_alerts (d : gset string) (c : Coordinator) :=
  mkCoordinator (graph_manager c) (claim_store c) (signal_claims c)
    (handled_contradictions c) (simulation_running c) (simulation_paused c)
    (_last_planning_call c) (_planning_cooldown_seconds c) d.

(** *** Dictionary and list-object primitives *)

(** [signal_claims.get(entity_name)]: the list object bound to the name. *)
Fixpoint claims_ref (entity_name : string) (sc : list (string * nat)) : option nat :=
  match sc with
  | [] => None
  | (k, ref) :: sc' =>
      if decide (k = entity_name) then Some ref else claims_ref entity_name sc'
  end.

(** [entity_name in self.signal_claims] *)
Definition has_claims (entity_name : string) (c : Coordinator) : bool :=
  bool_decide (is_Some (claims_ref entity_name (signal_claims c))).

(** The current content of a list object. *)
Definition deref (c : Coordinator) (ref : nat) : list Claim :=
  default [] (claim_store c !! ref).

(** [del self.signal_claims[entity_name]] guarded by
    [if entity_name in self.signal_claims]. *)
Definition del_claims (entity_name : string) (c : Coordinator) : Coordinator :=
  set_claims (claim_store c)
    (filter (λ kv, kv.1 ≠ entity_name) (signal_claims c)) c.

(** [if entity_name not in signal_claims: signal_claims[entity_name] = []]
    followed by [signal_claims[entity_name].append(claim)] for each claim. *)
Definition append_claims (entity_name : string) (new : list Claim)
    (c : Coordinator) : Coordinator :=
  match claims_ref entity_name (signal_claims c) with
  | Some ref =>
      set_claims (<[ref := (deref c ref ++ new)%list]> (claim_store c))
        (signal_claims c) c
  | None =>
      set_claims (claim_store c ++ [new])%list
        (signal_claims c ++ [(entity_name, length (claim_store c))])%list c
  end.

(** [t.strftime("%H:%M")] for a time in microseconds. *)
Definition two_digits (n : Z) : string :=
  String (ascii_of_nat (48 + Z.to_nat (n / 10)))
    (String (ascii_of_nat (48 + Z.to_nat (n mod 10))) "").

Definition strftime_HM (t : datetime) : string :=
  let minutes := (t / 60000000) mod 1440 in
  two_digits (minutes / 60) +:+ ":" +:+ two_digits (minutes mod 60).

(* ===================================================================== *)
(** ** coordinator.py: claim accumulation ([_update_graph_from_output]) *)
(* ===================================================================== *)

(** One element of [data["claims"]] as the text branch reads it:
    [cd_name] is [claim_data["location"]["name"]], or [""] when the location
    is missing or not a dict. *)
Record ClaimData := mkClaimData {
  cd_name : string;
  cd_claim : string;
  cd_confidence : Q;
}.

(** Body of [for claim_data in claims]. *)
Definition accumulate_claim (now : datetime) (signal_id source_type : string)
    (c : Coordinator) (claim_data : ClaimData) : Coordinator :=
  let entity_name := cd_name claim_data in
  if truthy entity_name then
    if decide (entity_name ∈ handled_contradictions c) then c
    else
      append_claims entity_name
        [mkClaim ("text_" +:+ signal_id) source_type (cd_claim claim_data)
           (cd_confidence claim_data) (strftime_HM now)] c
  else c.

(** The [elif signal_type == "text"] branch. *)
Definition update_graph_text (now : datetime) (signal_id source_type : string)
    (claims : list ClaimData) (c : Coordinator) : Coordinator :=
  if simulation_running c then c
  else foldl (accumulate_claim now signal_id source_type) c claims.

(** The image and audio branches end in [add_incident(incident)]; the
    incident built from the analyzer output is taken as given. *)
Definition update_graph_incident (now : datetime) (incident : IncidentNode)
    (c : Coordinator) : Coordinator :=
  set_graph_manager (add_incident now incident (graph_manager c)) c.

(* ===================================================================== *)
(** ** coordinator.py: [_check_contradictions] *)
(* ===================================================================== *)

(** The keys of [ver_data] that the coordinator and the simulation driver
    read; [None] is an absent key.  [ver_severity] stands for
    [(ver_data.get("contradictions") or [{}])[0].get("severity")]. *)
Record VerificationData := mkVerificationData {
  ver_verdict : option string;
  ver_entity_type : option string;
  ver_claims_analyzed : list Claim;
  ver_severity : option string;
  ver_temporal_analysis : option string;
  ver_recommended_action : option string;
  ver_recommended_action_details : option string;
  ver_urgency : option string;
}.

Definition verdict_map (s : string) : option Verdict :=
  if decide (s = "CONTRADICTION") then Some CONTRADICTION
  else if decide (s = "TEMPORAL_GAP") then Some TEMPORAL_GAP
  else if decide (s = "CONSISTENT") then Some CONSISTENT
  else if decide (s = "UNCERTAIN") then Some UNCERTAIN
  else None.

Definition action_map (s : string) : option ActionType :=
  if decide (s = "REQUEST_VERIFICATION") then Some REQUEST_VERIFICATION
  else if decide (s = "FLAG_FOR_HUMAN") then Some FLAG_FOR_HUMAN
  else if decide (s = "ACCEPT") then Some ACCEPT
  else if decide (s = "WAIT") then Some WAIT
  else None.

(** Validation of the [Literal["low", "medium", "high"]] field: any other
    value makes the constructor of [ContradictionAlert] raise. *)
Definition Severity_of_value (s : string) : option Severity :=
  if decide (s = "low") then Some sev_low
  else if decide (s = "medium") then Some sev_medium
  else if decide (s = "high") then Some sev_high
  else None.

(** [VerificationAgent.get_fallback_output], the answer used whenever the
    call to the model fails, for an input of entity type "infrastructure"
    (the only one the detector passes). *)
Definition fallback_verify (entity : string) (claims : list Claim) : VerificationData :=
  mkVerificationData (Some "CONTRADICTION") (Some "infrastructure") (take 3 claims)
    (Some "high")
    (Some ("Satellite image predates audio report by 21 minutes. " +:+ entity
           +:+ " collapse post-satellite-image is plausible given 6.8M seismic event."))
    (Some "REQUEST_VERIFICATION")
    (Some ("Deploy HELI-1 for aerial visual confirmation of " +:+ entity
           +:+ " status. Critical routing decision pending."))
    (Some "high").

(** [entity_name.lower().replace(" ", "_")] *)
Definition entity_id_of (entity_name : string) : string :=
  PyStr.replace_char " " "_" (PyStr.lower entity_name).

(** [ver_data.get("verdict") in ["CONTRADICTION", "TEMPORAL_GAP"]] *)
Definition adverse (ver : VerificationData) : bool :=
  match ver_verdict ver with
  | Some v => bool_decide (v = "CONTRADICTION") || bool_decide (v = "TEMPORAL_GAP")
  | None => false
  end.

(** The call [ContradictionAlert(...)] of the detector; [None] when it
    raises. *)
Definition detector_alert (now : datetime) (id entity_name : string)
    (claims : list Claim) (ver : VerificationData) : option ContradictionAlert :=
  match Severity_of_value (default "high" (ver_severity ver)) with
  | None => None
  | Some sev =>
      Some (mkContradictionAlert id (entity_id_of entity_name)
              (default "infrastructure" (ver_entity_type ver)) entity_name
              (match ver_claims_analyzed ver with
               | [] => take 2 claims
               | analyzed => analyzed
               end)
              (default UNCERTAIN (verdict_map (default "UNCERTAIN" (ver_verdict ver))))
              sev (ver_temporal_analysis ver)
              (default FLAG_FOR_HUMAN
                 (action_map (default "FLAG_FOR_HUMAN" (ver_recommended_action ver))))
              (default "" (ver_recommended_action_details ver))
              (_parse_urgency (default "high" (ver_urgency ver)))
              now false None None None)
  end.

(** The three tests that precede [await self.verification_agent.process]:
    the entity is still in [signal_claims], is not handled, and its list
    object holds at least two claims. *)
Definition detector_guard (c : Coordinator) (entity_name : string) (ref : nat) : bool :=
  has_claims entity_name c
  && negb (bool_decide (entity_name ∈ handled_contradictions c))
  && bool_decide (2 ≤ length (deref c ref))%nat.

(** The statements that follow the [await], run on the analyzer's answer
    [ver].  The boolean is [true] when the loop leaves through [break]. *)
Definition detector_resume (now : datetime) (id entity_name : string) (ref : nat)
    (ver : VerificationData) (c : Coordinator) : Coordinator * bool :=
  if adverse ver then
    match detector_alert now id entity_name (deref c ref) ver with
    | Some alert =>
        let c := set_graph_manager (add_contradiction now alert (graph_manager c)) c in
        let c := set_detector_alerts ({[id]} ∪ detector_alerts c) c in
        let c := set_handled ({[entity_name]} ∪ handled_contradictions c) c in
        (del_claims entity_name c, true)
    | None => (del_claims entity_name c, false)      (* [except Exception] *)
    end
  else (c, false).

(** The loop over the snapshot when nothing else runs between its steps.
    [verify] is the Verification analyzer, [id] the identifier drawn for the
    alert (the loop creates at most one). *)
Fixpoint check_loop (verify : string → list Claim → VerificationData)
    (now : datetime) (id : string) (snapshot : list (string * nat))
    (c : Coordinator) : Coordinator :=
  match snapshot with
  | [] => c
  | (entity_name, ref) :: rest =>
      if detector_guard c entity_name ref then
        let r := detector_resume now id entity_name ref
                   (verify entity_name (deref c ref)) c in
        if r.2 then r.1 else check_loop verify now id rest r.1
      else check_loop verify now id rest c
  end.

Definition _check_contradictions (verify : string → list Claim → VerificationData)
    (now : datetime) (id : string) (c : Coordinator) : Coordinator :=
  check_loop verify now id (signal_claims c) c.

(** [process_signal] for an image or audio signal, up to the planning
    trigger: merge the incident, then run the detector unless a simulation
    is running. *)
Definition process_incident_signal (verify : string → list Claim → VerificationData)
    (now : datetime) (id : string) (incident : IncidentNode)
    (c : Coordinator) : Coordinator :=
  let c := update_graph_incident now incident c in
  if simulation_running c then c else _check_contradictions verify now id c.

(* ===================================================================== *)
(** ** simulation.py: [_inject_contradiction] *)
(* ===================================================================== *)

(** The [data] of a [contradiction_inject] event. *)
Record InjectData := mkInjectData {
  inj_entity : option string;
  inj_entity_type : option string;
  inj_claims : list Claim;
  inj_force_verdict : option string;
  inj_temporal_analysis : option string;
}.

Definition inject_entity (data : InjectData) : string :=
  default "Unknown" (inj_entity data).

(** [{**claim, "timestamp": sim_time.strftime("%H:%M")}] *)
Definition stamp_claim (sim_time : datetime) (cl : Claim) : Claim :=
  mkClaim (claim_source cl) (claim_source_type cl) (claim_text cl)
    (claim_confidence cl) (strftime_HM sim_time).

(** Everything before [# Run verification]. *)
Definition inject_push (sim_time : datetime) (data : InjectData)
    (c : Coordinator) : Coordinator :=
  append_claims (inject_entity data) (stamp_claim sim_time <$> inj_claims data) c.

(** [ver_data.get("verdict", data.get("force_verdict", "CONTRADICTION"))] *)
Definition inject_verdict_str (data : InjectData) (ver : VerificationData) : string :=
  match ver_verdict ver with
  | Some v => v
  | None => default "CONTRADICTION" (inj_force_verdict data)
  end.

(** [ContradictionAlert(...)] on an answer each key of which is absent or
    holds a string. *)
Definition inject_alert (sim_time : datetime) (id : string) (data : InjectData)
    (claims : list Claim) (ver : VerificationData) : ContradictionAlert :=
  let entity_name := inject_entity data in
  mkContradictionAlert id (entity_id_of entity_name)
    (default "infrastructure" (inj_entity_type data)) entity_name claims
    (default CONTRADICTION (verdict_map (inject_verdict_str data ver)))
    sev_high
    (match ver_temporal_analysis ver with
     | Some t => if truthy t then Some t
                 else Some (default "" (inj_temporal_analysis data))
     | None => Some (default "" (inj_temporal_analysis data))
     end)
    (default REQUEST_VERIFICATION
       (action_map (default "REQUEST_VERIFICATION" (ver_recommended_action ver))))
    (default "Deploy aerial verification" (ver_recommended_action_details ver))
    HIGH sim_time false None None None.

(** The [try] block after the analyzer has answered.  A missing dictionary
    entry makes [coordinator.signal_claims[entity_name]] raise, and the
    handler then finds nothing to delete. *)
Definition inject_finish (now sim_time : datetime) (id : string) (data : InjectData)
    (ver : VerificationData) (c : Coordinator) : Coordinator :=
  let entity_name := inject_entity data in
  match claims_ref entity_name (signal_claims c) with
  | None => c
  | Some ref =>
      let alert := inject_alert sim_time id data (deref c ref) ver in
      let c := set_graph_manager (add_contradiction now alert (graph_manager c)) c in
      let c := set_detector_alerts (detector_alerts c ∖ {[id]}) c in
      let c := set_handled ({[entity_name]} ∪ handled_contradictions c) c in
      del_claims entity_name c
  end.

Definition _inject_contradiction (verify : string → list Claim → VerificationData)
    (now sim_time : datetime) (id : string) (data : InjectData)
    (c : Coordinator) : Coordinator :=
  let entity_name := inject_entity data in
  let c := inject_push sim_time data c in
  match claims_ref entity_name (signal_claims c) with
  | None => c
  | Some ref =>
      if bool_decide (2 ≤ length (deref c ref))%nat
      then inject_finish now sim_time id data (verify entity_name (deref c ref)) c
      else c
  end.

(* ===================================================================== *)
(** ** coordinator.py: simulation flags, reset, operator decisions *)
(* ===================================================================== *)

Definition start_simulation (c : Coordinator) := set_simulation true false c.
Definition pause_simulation (c : Coordinator) := set_simulation false true c.
Definition resume_simulation (c : Coordinator) := set_simulation true false c.

(** [reset_simulation]: the flags, both detector structures and the graph
    are cleared; the planning clock is not. *)
Definition reset_simulation (now : datetime) (c : Coordinator) : Coordinator :=
  mkCoordinator (new_manager now) (claim_store c) [] ∅ false false
    (_last_planning_call c) (_planning_cooldown_seconds c) ∅.

(** Any method of the graph manager called on the coordinator's graph. *)
Definition on_graph (f : SituationGraphManager → SituationGraphManager)
    (c : Coordinator) : Coordinator :=
  set_graph_manager (f (graph_manager c)) c.

(* ===================================================================== *)
(** ** coordinator.py: [_maybe_generate_recommendations] *)
(* ===================================================================== *)

(** [timedelta.total_seconds()] of a difference in microseconds. *)
Definition total_seconds (d : Z) : Q := d # 1000000.

(** The cooldown test: [false] when the method returns at
    [if elapsed < self._planning_cooldown_seconds]. *)
Definition cooldown_elapsed (now : datetime) (c : Coordinator) : bool :=
  match _last_planning_call c with
  | None => true
  | Some last =>
      Qle_bool (inject_Z (_planning_cooldown_seconds c)) (total_seconds (now - last))
  end.

Definition critical_incidents (m : SituationGraphManager) : list IncidentNode :=
  filter (λ i, (inc_urgency i = CRITICAL ∨ inc_urgency i = HIGH)
               ∧ inc_status i = inc_active
               ∧ length (assigned_resources i) = 0%nat)
    (snd <$> map_to_list (incidents (graph m))).

Definition pending_count (m : SituationGraphManager) : nat :=
  length (filter (λ a, act_status a = act_pending)
            (snd <$> map_to_list (pending_actions (graph m)))).

(** The synchronous prefix of the method, from [now = datetime.utcnow()] to
    the call of the planning analyzer; it contains no [await], so nothing
    runs between its statements.  [now] is the reading taken on entry,
    [stamp] the one stored in [_last_planning_call]; the boolean tells
    whether the analyzer is called.  What follows the analyzer's answer
    only builds an [ActionRecommendation] and hands it to [add_action]. *)
Definition _maybe_generate_recommendations (now stamp : datetime)
    (c : Coordinator) : Coordinator * bool :=
  if negb (cooldown_elapsed now c) then (c, false)
  else if bool_decide (critical_incidents (graph_manager c) = []) then (c, false)
  else if bool_decide (3 ≤ pending_count (graph_manager c))%nat then (c, false)
  else if bool_decide (get_available_resources (graph_manager c) = []) then (c, false)
  else (set_last_planning_call stamp c, true).

(* ===================================================================== *)
(** ** Runs of the planning trigger *)
(* ===================================================================== *)

(** Nothing but [_maybe_generate_recommendations] writes
    [_last_planning_call], and nothing writes [_planning_cooldown_seconds]
    after [__init__].  A run of the coordinator is therefore seen by the
    trigger as the list of its own calls, each with its two clock readings
    and the graph manager it finds, which the operations that ran since the
    previous call (in whatever interleaving) may have changed at will.
    [planning_run] returns the stamps of the calls that reached the
    analyzer. *)
Fixpoint planning_run (calls : list (datetime * datetime * SituationGraphManager))
    (c : Coordinator) : list datetime :=
  match calls with
  | [] => []
  | (now, stamp, m) :: rest =>
      let r := _maybe_generate_recommendations now stamp (set_graph_manager m c) in
      ((if r.2 then [stamp] else []) ++ planning_run rest r.1)%list
  end.

(** The clock never runs backwards: inside a call [now ≤ stamp], and every
    reading is at least [since]. *)
Fixpoint clock_monotone (since : datetime)
    (calls : list (datetime * datetime * SituationGraphManager)) : Prop :=
  match calls with
  | [] => True
  | (now, stamp, _) :: rest =>
      since ≤ now ∧ now ≤ stamp ∧ clock_monotone stamp rest
  end.

(** The invocations that fall in the window [[from, from + width)]. *)
Definition in_window (from width : Z) (stamps : list datetime) : list datetime :=
  filter (λ t, from ≤ t < from + width) stamps.

(* ===================================================================== *)
(** * Vocabulary of the properties, and sample data *)
(* ===================================================================== *)

(** Two places of the default scenario. *)
Definition depot : Location :=
  mkLocation (3779 # 100) (-122402 # 1000) None (Some "4") None.

Definition site : Location :=
  mkLocation (3778 # 100) (-12241 # 100) None (Some "2") None.

(** An action on [inc_x] that lists AMB-7 and carries no target location. *)
Definition action_1 : ActionRecommendation :=
  mkActionRecommendation "action_1" "dispatch_resources" (Some "inc_x") None None
    ["AMB-7"] "nearest unit" [] (4 # 5) [] true 300000000 CRITICAL act_pending 0
    None None.

Definition amb7 (st : ResourceStatus) (inc : option string) (dest : option Location)
    (eta : option Z) : ResourceNode :=
  mkResourceNode "AMB-7" "ambulance" "AMB-7" depot dest st inc 2 2 eta 0.

Definition inc_x (st : IncidentStatus) (rs : list string) : IncidentNode :=
  mkIncidentNode "inc_x" "structural_collapse" site SEVERE CRITICAL (Some 3)
    (Some 8) None None (17 # 20) [] 0 0 [] (1 # 100) st rs.

(** AMB-7 has already been assigned by hand to [inc_x]. *)
Definition graph_1 : SituationGraphManager :=
  mkManager
    (mkSituationGraph
       {[ "inc_x" := inc_x inc_active ["AMB-7"] ]}
       {[ "AMB-7" := amb7 res_dispatched (Some "inc_x") (Some site) (Some 8) ]}
       ∅ {[ "action_1" := action_1 ]} "" "" 0 0 0)
    [].

(** [status = dispatched ⇒ assigned_incident ≠ null ∧ destination ≠ null] *)
Definition dispatched_ok (r : ResourceNode) : Prop :=
  res_status r = res_dispatched → assigned_incident r ≠ None ∧ destination r ≠ None.

(** [status = available ⇒ assigned_incident = null] *)
Definition available_ok (r : ResourceNode) : Prop :=
  res_status r = res_available → assigned_incident r = None.

Definition all_resources (P : ResourceNode → Prop) (m : SituationGraphManager) : Prop :=
  ∀ rid r, resources (graph m) !! rid = Some r → P r.

(** Every pending action names a target incident and carries a target
    location. *)
Definition actions_targeted (m : SituationGraphManager) : Prop :=
  ∀ id a, pending_actions (graph m) !! id = Some a →
    target_incident_id a ≠ None ∧ target_location a ≠ None.

Inductive mutation :=
| Approve (action_id who : string)
| Assign (resource_id incident_id : string)
| Unassign (resource_id : string).

Definition apply_mutation (m : SituationGraphManager) (op : datetime * mutation)
  : SituationGraphManager :=
  match op.2 with
  | Approve action_id who => (approve_action op.1 action_id who m).2
  | Assign resource_id incident_id =>
      (assign_resource_manual op.1 resource_id incident_id m).2
  | Unassign resource_id => (unassign_resource op.1 resource_id m).2
  end.

Definition apply_mutations (ops : list (datetime * mutation))
    (m : SituationGraphManager) : SituationGraphManager :=
  foldl apply_mutation m ops.

(** AMB-7 is free; the pending action names an incident that is not in the
    graph and so carries no target location (what the planning trigger
    builds when the analyzer answers with an unknown incident id). *)
Definition action_2 : ActionRecommendation :=
  mkActionRecommendation "action_2" "dispatch_resources" (Some "inc_gone") None None
    ["AMB-7"] "nearest unit" [] (4 # 5) [] true 300000000 CRITICAL act_pending 0
    None None.

Definition graph_2 : SituationGraphManager :=
  mkManager
    (mkSituationGraph
       {[ "inc_x" := inc_x inc_active [] ]}
       {[ "AMB-7" := amb7 res_available None None None ]}
       ∅ {[ "action_2" := action_2 ]} "" "" 0 0 0)
    [].

(** The planning trigger's usual product: an action on an incident of the
    graph, carrying that incident's location. *)
Definition action_3 : ActionRecommendation :=
  mkActionRecommendation "action_3" "dispatch_resources" (Some "inc_x") (Some site)
    (Some "2") ["AMB-7"] "nearest unit" [] (4 # 5) [] true 300000000 CRITICAL
    act_pending 0 None None.

Definition graph_7 : SituationGraphManager :=
  mkManager
    (mkSituationGraph
       {[ "inc_x" := inc_x inc_active [] ]}
       {[ "AMB-7" := amb7 res_available None None None ]}
       ∅ {[ "action_3" := action_3 ]} "" "" 0 0 0)
    [].

Definition ops_7 : list (datetime * mutation) :=
  [(1000, Approve "action_3" "operator"); (2000, Unassign "AMB-7");
   (3000, Assign "AMB-7" "inc_x")].

(** An active incident reported with confidence 0.05. *)
Definition inc_faint : IncidentNode :=
  mkIncidentNode "inc_y" "damage" site MODERATE HIGH None None None None (1 # 20)
    [] 0 0 [] (1 # 100) inc_active [].

Definition graph_3 : SituationGraphManager :=
  mkManager
    (mkSituationGraph {[ "inc_y" := inc_faint ]} ∅ ∅ ∅ "" "" 0 0 0) [].

(** Two alerts that differ at most in the three fields a resolution writes
    after [resolved]. *)
Definition same_alert_but_resolution (a a' : ContradictionAlert) : Prop :=
  alert_id a' = alert_id a ∧ entity_id a' = entity_id a
  ∧ entity_type a' = entity_type a ∧ entity_name a' = entity_name a
  ∧ alert_claims a' = alert_claims a ∧ verdict a' = verdict a
  ∧ severity a' = severity a ∧ temporal_analysis a' = temporal_analysis a
  ∧ recommended_action a' = recommended_action a
  ∧ recommended_action_details a' = recommended_action_details a
  ∧ alert_urgency a' = alert_urgency a
  ∧ alert_created_at a' = alert_created_at a
  ∧ resolved a' = resolved a.

Definition bridge_claims : list Claim :=
  [mkClaim "audio_report" "first_responder"
     "Bridge collapsed, completely impassable" (18 # 25) "00:00";
   mkClaim "satellite_img_14:40" "satellite"
     "Bridge appears structurally intact" (89 # 100) "00:00"].

(** An alert the operator has resolved at time 100. *)
Definition alert_1 : ContradictionAlert :=
  mkContradictionAlert "alert_1" "main_street_bridge" "infrastructure"
    "Main Street Bridge" bridge_claims CONTRADICTION sev_high None
    REQUEST_VERIFICATION "Deploy aerial verification" HIGH 0
    true (Some "trust_audio") (Some "operator") (Some 100).

Definition graph_4 : SituationGraphManager :=
  mkManager (mkSituationGraph ∅ ∅ {[ "alert_1" := alert_1 ]} ∅ "" "" 0 0 0) [].

(** A node that differs from the given one in [updated_at] only. *)
Definition touch_resource (now : datetime) (r : ResourceNode) : ResourceNode :=
  set_assignment (res_status r) (assigned_incident r) (destination r)
    (eta_minutes r) now r.

Definition touch_incident (now : datetime) (i : IncidentNode) : IncidentNode :=
  set_response (inc_status i) (assigned_resources i) now i.

(** A graph with one incident and one resource, as instance dictionaries,
    and an update with a key that is no attribute of a node. *)
Definition manager_5 : Reflect.manager :=
  Reflect.mkManager
    (Reflect.mkGraph
       {[ "inc_x" := Reflect.incident_dict (inc_x inc_active []) ]}
       {[ "AMB-7" := Reflect.resource_dict (amb7 res_available None None None) ]} 0)
    [].

Definition updates_5 : list (string * Reflect.pyval) :=
  [("status", Reflect.PStr "offline"); ("crew", Reflect.PInt 3);
   ("status", Reflect.PStr "returning")].

(** An update that names a method of the model between two fields. *)
Definition updates_6 : list (string * Reflect.pyval) :=
  [("status", Reflect.PStr "returning"); ("model_dump", Reflect.PNone);
   ("personnel", Reflect.PInt 4)].

(** A class of which nothing is known but that it has [model_dump]. *)
Definition has_model_dump (key : string) : bool := bool_decide (key = "model_dump").

(** Every list object named by [signal_claims] has been allocated. *)
Definition refs_valid (c : Coordinator) : Prop :=
  ∀ e ref, claims_ref e (signal_claims c) = Some ref →
    (ref < length (claim_store c))%nat.

(** The [contradiction_inject] event of the default scenario. *)
Definition bridge_inject : InjectData :=
  mkInjectData (Some "Main Street Bridge") (Some "infrastructure")
    [mkClaim "audio_report" "first_responder"
       "Bridge collapsed, completely impassable - confirmed collapse of main span"
       (18 # 25) "";
     mkClaim "satellite_img_14:40" "satellite"
       "Bridge appears structurally intact, no visible collapse" (89 # 100) ""]
    (Some "CONTRADICTION")
    (Some "Satellite image predates audio report by 21 minutes.").

(** An analyzer answer that finds the two claims consistent. *)
Definition ver_consistent : VerificationData :=
  mkVerificationData (Some "CONSISTENT") (Some "infrastructure") [] None None
    (Some "ACCEPT") None (Some "low").

(** Consecutive elements are at least [gap] apart, and the first one is at
    least [gap] after [prev] when there is a [prev]. *)
Fixpoint well_spaced (gap : Z) (prev : option Z) (l : list Z) : Prop :=
  match l with
  | [] => True
  | t :: l' =>
      match prev with Some p => p + gap ≤ t | None => True end
      ∧ well_spaced gap (Some t) l'
  end.

(** Scenario "cooldown gate": five calls within two seconds on a graph with
    an unassigned critical incident and a free ambulance. *)
Definition calls_5 : list (datetime * datetime * SituationGraphManager) :=
  [(0, 10, graph_2); (400000, 400010, graph_2); (800000, 800010, graph_2);
   (1200000, 1200010, graph_2); (1600000, 1600010, graph_2)].

(** The unresolved alerts of the graph that the detector created for an
    entity name. *)
Definition unresolved_detector_alerts (entity : string) (c : Coordinator)
  : list (string * ContradictionAlert) :=
  filter (λ ia, ia.1 ∈ detector_alerts c ∧ entity_name ia.2 = entity
                ∧ resolved ia.2 = false)
    (map_to_list (contradictions (graph (graph_manager c)))).

(** The operations of the coordinator, each run from start to end with
    nothing else in between. *)
Inductive coordinator_step : Coordinator → Coordinator → Prop :=
| step_text now signal_id source_type claims c :
    coordinator_step c (update_graph_text now signal_id source_type claims c)
| step_incident verify now id incident c :
    coordinator_step c (process_incident_signal verify now id incident c)
| step_inject verify now sim_time id data c :
    coordinator_step c (_inject_contradiction verify now sim_time id data c)
| step_resolve now id res who c :
    coordinator_step c
      (on_graph (λ m, (resolve_contradiction now id res who m).2) c)
| step_graph f c :
    (∀ m, contradictions (graph (f m)) = contradictions (graph m)) →
    coordinator_step c (on_graph f c)
| step_planning now stamp c :
    coordinator_step c (_maybe_generate_recommendations now stamp c).1
| step_simulation running paused c :
    coordinator_step c (set_simulation running paused c)
| step_reset now c :
    coordinator_step c (reset_simulation now c).

(** The states the coordinator reaches from its construction when its
    operations do not interleave. *)
Definition reachable_atomically (c : Coordinator) : Prop :=
  ∃ t0, rtc coordinator_step (new_coordinator t0) c.

(** The alerts written by the detector name handled entities, and no two of
    them name the same entity. *)
Definition detector_inv (c : Coordinator) : Prop :=
  let alerts := contradictions (graph (graph_manager c)) in
  (∀ id a, id ∈ detector_alerts c → alerts !! id = Some a →
     entity_name a ∈ handled_contradictions c) ∧
  (∀ id1 id2 a1 a2, id1 ∈ detector_alerts c → id2 ∈ detector_alerts c →
     alerts !! id1 = Some a1 → alerts !! id2 = Some a2 →
     entity_name a1 = entity_name a2 → id1 = id2).

(** A state that differs from [c] neither in the alerts, nor in the handled
    set, nor in the record of the detector's alerts. *)
Definition same_detector_view (c c' : Coordinator) : Prop :=
  contradictions (graph (graph_manager c')) = contradictions (graph (graph_manager c))
  ∧ handled_contradictions c' = handled_contradictions c
  ∧ detector_alerts c' = detector_alerts c.

Definition bridge : string := "Main Street Bridge".

Definition inc_of_signal (signal_id : string) (now : datetime) : IncidentNode :=
  mkIncidentNode ("inc_" +:+ signal_id) "damage" site SEVERE CRITICAL (Some 3)
    (Some 8) None None (17 # 20) [] now now [] (1 # 100) inc_active [].

(** Two text signals have each left one claim about the bridge. *)
Definition race_start : Coordinator :=
  update_graph_text 2000 "s2" "official_report"
    [mkClaimData bridge "Bridge appears intact" (3 # 5)]
    (update_graph_text 1000 "s1" "social_media"
       [mkClaimData bridge "Bridge collapsed" (1 # 2)] (new_coordinator 0)).

(** An image signal A is merged; its detector run takes its snapshot, finds
    the bridge eligible and waits for the Verification analyzer. *)
Definition race_A_waiting : Coordinator :=
  update_graph_incident 3000 (inc_of_signal "s3" 3000) race_start.

(** While A waits, an audio signal B is merged; its detector run takes its
    own snapshot, finds the bridge eligible too, and waits. *)
Definition race_B_waiting : Coordinator :=
  update_graph_incident 4000 (inc_of_signal "s4" 4000) race_A_waiting.

(** A's analyzer call returns and A runs to its [break]. *)
Definition race_A_done : Coordinator :=
  (detector_resume 5000 "alert_a" bridge 0
     (fallback_verify bridge (deref race_A_waiting 0)) race_B_waiting).1.

(** B's analyzer call returns and B runs to its [break]. *)
Definition race_B_done : Coordinator :=
  (detector_resume 6000 "alert_b" bridge 0
     (fallback_verify bridge (deref race_B_waiting 0)) race_A_done).1.

(** An incident stored under the empty id, a free AMB-7 and an action that
    targets that incident. *)
Definition inc_blank : IncidentNode :=
  mkIncidentNode "" "damage" site MODERATE HIGH None None None None (1 # 2)
    [] 0 0 [] (1 # 100) inc_active [].

Definition action_4 : ActionRecommendation :=
  mkActionRecommendation "action_4" "dispatch_resources" (Some "") (Some site)
    (Some "2") ["AMB-7"] "nearest unit" [] (4 # 5) [] true 300000000 HIGH
    act_pending 0 None None.

Definition graph_8 : SituationGraphManager :=
  mkManager
    (mkSituationGraph
       {[ "" := inc_blank ]}
       {[ "AMB-7" := amb7 res_available None None None ]}
       ∅ {[ "action_4" := action_4 ]} "" "" 0 0 0)
    [].

(** An active incident whose decay rate is negative. *)
Definition inc_growing : IncidentNode :=
  mkIncidentNode "inc_g" "damage" site MODERATE HIGH None None None None (1 # 2)
    [] 0 0 [] (-1 # 100) inc_active [].

Definition graph_9 : SituationGraphManager :=
  mkManager
    (mkSituationGraph {[ "inc_g" := inc_growing ]} ∅ ∅ ∅ "" "" 0 0 0) [].

(** *** Data of the literal scenarios *)

Definition ambulance (id : string) : ResourceNode :=
  mkResourceNode id "ambulance" id depot None res_available None 2 2 None 0.

(** Scenario "approve dispatches atomically". *)
Definition action_A : ActionRecommendation :=
  mkActionRecommendation "A" "dispatch_resources" (Some "inc_x") (Some site)
    (Some "2") ["AMB-7"; "AMB-12"; "AMB-15"] "closest free units" [] (4 # 5) []
    true 300000000 CRITICAL act_pending 0 None None.

Definition graph_A : SituationGraphManager :=
  mkManager
    (mkSituationGraph
       {[ "inc_x" := inc_x inc_active [] ]}
       (list_to_map [("AMB-7", ambulance "AMB-7"); ("AMB-12", ambulance "AMB-12");
                     ("AMB-15", ambulance "AMB-15"); ("AMB-3", ambulance "AMB-3")])
       ∅ {[ "A" := action_A ]} "" "" 0 0 0)
    [].

(** Scenario "aftershock decay": two active incidents at confidence 0.85. *)
Definition graph_D : SituationGraphManager :=
  mkManager
    (mkSituationGraph
       (list_to_map [("inc_x", inc_x inc_active []);
                     ("inc_s3", inc_of_signal "s3" 3000)])
       ∅ ∅ ∅ "" "" 0 0 0)
    [].

From Stdlib Require Import Sorted.
From Stdlib Require Floats.
Import PrimFloat.PrimFloatNotations.
Number Notation PrimFloat.float PrimFloat.parser PrimFloat.printer : float_scope.
Set Warnings "-inexact-float".

(* ===================================================================== *)
(** * Floating-point arithmetic *)
(* ===================================================================== *)

(** Where the program computes with [float]s, the operations are those of
    binary64, rounded to nearest, and a decimal literal is the nearest
    binary64 number.  The result is recorded in a node as the rational
    number it is. *)

(** [float(z)] of an [int]; exact below [2^53]. *)
Definition float_of_Z (z : Z) : PrimFloat.float :=
  if (z <? 0)%Z then PrimFloat.opp (PrimFloat.of_uint63 (Uint63.of_Z (- z)))
  else PrimFloat.of_uint63 (Uint63.of_Z z).

(** The rational number that a finite [float] is; the sums below are
    finite. *)
Definition Q_of_float (f : PrimFloat.float) : Q :=
  match FloatOps.Prim2SF f with
  | SpecFloat.S754_finite s m e =>
      let n := if s then Z.neg m else Z.pos m in
      if (0 <=? e)%Z then inject_Z (n * 2 ^ e) else (n # (2 ^ Z.to_pos (- e)))%Q
  | _ => 0%Q
  end.

(** [base + k * step] *)
Definition offset_coord (base step : PrimFloat.float) (k : Z) : Q :=
  Q_of_float (base + float_of_Z k * step)%float.

(** [lo <= q <= hi] *)
Definition between (lo hi q : Q) : bool := Qle_bool lo q && Qle_bool q hi.

(* ===================================================================== *)
(** * The rest of the graph manager, the coordinator and their callers *)
(* ===================================================================== *)

(** ** situation_graph.py: camps and statistics *)

Inductive CampType := relief_camp | rescue_staging | medical_triage.
Inductive CampStatus := camp_suggested | camp_approved | camp_rejected | camp_active.

#[global] Instance CampStatus_eq_dec : EqDecision CampStatus.
Proof. solve_decision. Defined.

(** [factors], a free-form dict that no method reads, is left out. *)
Record CampRecommendation := mkCampRecommendation {
  camp_id : string;
  camp_name : string;
  camp_location : Location;
  camp_type : CampType;
  capacity_persons : Z;
  camp_rationale : string;
  camp_confidence : Q;
  camp_status : CampStatus;
  camp_created_at : datetime;
  camp_decided_at : option datetime;
}.

(** The manager together with the [camp_locations] dictionary of its graph,
    which the record [SituationGraph] above leaves out. *)
Record FullManager := mkFullManager {
  core : SituationGraphManager;
  camp_locations : gmap string CampRecommendation;
}.

Definition set_camp_decision (st : CampStatus) (now : datetime)
    (camp : CampRecommendation) : CampRecommendation :=
  mkCampRecommendation (camp_id camp) (camp_name camp) (camp_location camp)
    (camp_type camp) (capacity_persons camp) (camp_rationale camp)
    (camp_confidence camp) st (camp_created_at camp) (Some now).

Definition CampType_value (t : CampType) : string :=
  match t with
  | relief_camp => "relief_camp" | rescue_staging => "rescue_staging"
  | medical_triage => "medical_triage"
  end.

Definition add_camp (now : datetime) (camp : CampRecommendation)
    (m : FullManager) : FullManager :=
  mkFullManager
    (_log_event now "camp_added"
       [("camp_id", AStr (camp_id camp)); ("type", AStr (CampType_value (camp_type camp)))]
       (with_graph (set_last_updated now) (core m)))
    (<[camp_id camp := camp]> (camp_locations m)).

(** [approve_camp] writes the status "active", [reject_camp] "rejected". *)
Definition decide_camp (st : CampStatus) (event : string) (now : datetime)
    (id : string) (m : FullManager) : option CampRecommendation * FullManager :=
  match camp_locations m !! id with
  | None => (None, m)
  | Some camp =>
      let camp := set_camp_decision st now camp in
      (Some camp,
       mkFullManager
         (_log_event now event [("camp_id", AStr id)]
            (with_graph (set_last_updated now) (core m)))
         (<[id := camp]> (camp_locations m)))
  end.

Definition approve_camp := decide_camp camp_active "camp_approved".
Definition reject_camp := decide_camp camp_rejected "camp_rejected".

(** [len([x for x in d.values() if P x])] *)
Definition count_values {A} (P : A → Prop) `{∀ x, Decision (P x)}
    (d : gmap string A) : nat :=
  length (filter P (snd <$> map_to_list d)).

(** The dictionary returned by [get_stats]. *)
Record Stats := mkStats {
  total_incidents : nat;
  active_incidents : nat;
  responding_incidents : nat;
  resources_available : nat;
  resources_deployed : nat;
  pending_contradictions : nat;
  stat_pending_actions : nat;
  camps_active : nat;
  camps_suggested : nat;
}.

Definition get_stats (m : FullManager) : Stats :=
  let g := graph (core m) in
  mkStats
    (size (incidents g))
    (count_values (λ i, inc_status i = inc_active) (incidents g))
    (count_values (λ i, inc_status i = inc_responding) (incidents g))
    (count_values (λ r, res_status r = res_available) (resources g))
    (count_values (λ r, res_status r = res_dispatched ∨ res_status r = res_on_scene)
       (resources g))
    (count_values (λ c, resolved c = false) (contradictions g))
    (count_values (λ a, act_status a = act_pending) (pending_actions g))
    (count_values (λ c, camp_status c = camp_active) (camp_locations m))
    (count_values (λ c, camp_status c = camp_suggested) (camp_locations m)).

(** ** situation_graph.py: [get_incidents_by_urgency] *)

(** The dictionary [urgency_order]. *)
Definition urgency_order (u : Urgency) : nat :=
  match u with CRITICAL => 0 | HIGH => 1 | MEDIUM => 2 | LOW => 3 end.

(** [sorted(l, key=...)] is stable: an element goes in front of the first
    element of the sorted tail whose key is not smaller than its own. *)
Fixpoint insert_by_urgency (i : IncidentNode) (l : list IncidentNode) : list IncidentNode :=
  match l with
  | [] => [i]
  | j :: l' =>
      if decide (urgency_order (inc_urgency i) ≤ urgency_order (inc_urgency j))%nat
      then i :: j :: l'
      else j :: insert_by_urgency i l'
  end.

Definition sorted_by_urgency (l : list IncidentNode) : list IncidentNode :=
  foldr insert_by_urgency [] l.

(** [get_incidents_by_urgency]; [values] is [self.graph.incidents.values()]:
    the incidents of the dictionary, in the order in which their keys were
    first inserted. *)
Definition get_incidents_by_urgency (values : list IncidentNode) : list IncidentNode :=
  sorted_by_urgency (filter (λ i, inc_status i = inc_active) values).

(** [values] lists the incidents of the graph, in some order. *)
Definition incident_values (m : SituationGraphManager) (values : list IncidentNode) : Prop :=
  values ≡ₚ (snd <$> map_to_list (incidents (graph m))).

(** [get_available_resources(resource_type)]; an empty or missing type does
    not filter. *)
Definition get_available_resources_of (resource_type_filter : option string)
    (m : SituationGraphManager) : list ResourceNode :=
  let rs := get_available_resources m in
  match resource_type_filter with
  | Some t => if truthy t then filter (λ r, resource_type r = t) rs else rs
  | None => rs
  end.

(** ** situation_graph.py: [get_incident_audit] *)

(** [data.get(key)] on the [data] of an audit event. *)
Fixpoint data_get (key : string) (data : list (string * audit_value)) : option audit_value :=
  match data with
  | [] => None
  | (k, v) :: rest => if decide (k = key) then Some v else data_get key rest
  end.

(** [e.get("data", {}).get("incident_id") == incident_id] *)
Definition about_incident (incident_id : string) (e : audit_event) : bool :=
  match data_get "incident_id" (ev_data e) with
  | Some (AStr s) => bool_decide (s = incident_id)
  | Some (AOpt (Some s)) => bool_decide (s = incident_id)
  | _ => false
  end.

(** [[e for e in self.audit_log if ... == incident_id]] *)
Definition incident_events (incident_id : string) (m : SituationGraphManager)
  : list audit_event :=
  filter (λ e, about_incident incident_id e = true) (audit_log m).

Record IncidentAudit := mkIncidentAudit {
  audit_incident : IncidentNode;
  related_actions : list ActionRecommendation;
  audit_events : list audit_event;
}.

(** [None] stands for the answer [{"error": "Incident not found"}]. *)
Definition get_incident_audit (incident_id : string) (m : SituationGraphManager)
  : option IncidentAudit :=
  match incidents (graph m) !! incident_id with
  | None => None
  | Some incident =>
      Some (mkIncidentAudit incident
              (filter (λ a, target_incident_id a = Some incident_id)
                 (snd <$> map_to_list (pending_actions (graph m))))
              (incident_events incident_id m))
  end.

(** The order [sorted] establishes. *)
Definition by_urgency (a b : IncidentNode) : Prop :=
  (urgency_order (inc_urgency a) ≤ urgency_order (inc_urgency b))%nat.

(** ** coordinator.py: [_add_event] *)

Record TimelineEvent := mkTimelineEvent {
  te_id : string;
  te_type : string;
  te_timestamp : datetime;
  te_data : list (string * audit_value);
}.

(** [recent_events] after [_add_event(event_type, data)]; [id] is the
    identifier drawn for the event.  [l[-50:]] keeps the last fifty. *)
Definition _add_event (id : string) (now : datetime) (ty : string)
    (data : list (string * audit_value)) (recent_events : list TimelineEvent)
  : list TimelineEvent :=
  let events := (recent_events ++ [mkTimelineEvent id ty now data])%list in
  if bool_decide (50 < length events)%nat
  then drop (length events - 50) events
  else events.

(** ** coordinator.py: the image and audio branches of
    [_update_graph_from_output] *)

(** What a dictionary holds under a key: nothing, [None], or a value. *)
Inductive dict_value (A : Type) := Absent | Null | Present (a : A).
Arguments Absent {A}.
Arguments Null {A}.
Arguments Present {A} a.

(** The keys of [metadata] the coordinator reads; [md_lat] and [md_lng] are
    those of [metadata["location"]] ([Absent] when there is no location). *)
Record Metadata := mkMetadata {
  md_lat : dict_value Q;
  md_lng : dict_value Q;
  md_sector : dict_value string;
  md_location_name : option string;
}.

(** [loc_data.get(key, base + (hash % 100) * 0.001)], then the validation
    of a required [float] field, which rejects [None]. *)
Definition resolve_coord (base : PrimFloat.float) (hash : Z) (v : dict_value Q) : option Q :=
  match v with
  | Absent => Some (offset_coord base 0.001 (hash mod 100))
  | Null => None
  | Present q => Some q
  end.

(** [metadata.get("sector", "1")] *)
Definition resolve_sector (v : dict_value string) : option string :=
  match v with
  | Absent => Some "1"
  | Null => None
  | Present s => Some s
  end.

(** The [Location] of a signal; [h1] and [h2] are [hash(signal_id)] and
    [hash(signal_id[::-1])]. *)
Definition signal_location (h1 h2 : Z) (md : Metadata) : option Location :=
  match resolve_coord 37.78 h1 (md_lat md),
        resolve_coord (-122.41) h2 (md_lng md) with
  | Some la, Some lo =>
      Some (mkLocation la lo None (resolve_sector (md_sector md)) (md_location_name md))
  | _, _ => None
  end.

(** Validation of a field declared [Field(ge=0.0, le=1.0)]. *)
Definition in_unit (q : Q) : bool := Qle_bool 0 q && Qle_bool q 1.

(** [SourceReference(...)], [None] when the analyzer's confidence is
    rejected as credibility score. *)
Definition source_reference (now : datetime) (signal_id : string) (st : SourceType)
    (confidence : Q) : option SourceReference :=
  if in_unit confidence
  then Some (mkSourceReference signal_id st now signal_id confidence)
  else None.

Definition DamageLevel_of_value (s : string) : option DamageLevel :=
  if decide (s = "none") then Some DMG_NONE
  else if decide (s = "minor") then Some MINOR
  else if decide (s = "moderate") then Some MODERATE
  else if decide (s = "severe") then Some SEVERE
  else if decide (s = "catastrophic") then Some CATASTROPHIC
  else None.

(** The dictionary [urgency_map] of the image branch. *)
Definition damage_urgency (d : DamageLevel) : Urgency :=
  match d with
  | CATASTROPHIC | SEVERE => CRITICAL
  | MODERATE => HIGH
  | MINOR => MEDIUM
  | DMG_NONE => LOW
  end.

(** The keys of the vision analyzer's [data]; [img_casualties_min] and
    [img_casualties_max] are those of [estimated_casualties]. *)
Record ImageData := mkImageData {
  img_damage_level : option string;
  img_damage_types : list string;
  img_casualties_min : option Z;
  img_casualties_max : option Z;
  img_overall_confidence : dict_value Q;
}.

(** [data.get("overall_confidence", 0.5)], then the validation of
    [confidence: float = Field(ge=0.0, le=1.0)]. *)
Definition resolve_confidence (v : dict_value Q) : option Q :=
  match v with
  | Absent => Some (1 # 2)%Q
  | Null => None
  | Present q => if in_unit q then Some q else None
  end.

(** The incident of the image branch; [None] when a constructor raises. *)
Definition image_incident (now : datetime) (signal_id : string) (confidence : Q)
    (h1 h2 : Z) (md : Metadata) (data : ImageData) : option IncidentNode :=
  match source_reference now signal_id IMAGE confidence, signal_location h1 h2 md with
  | Some source_ref, Some location =>
      let damage :=
        default MODERATE
          (DamageLevel_of_value (default "moderate" (img_damage_level data))) in
      match resolve_confidence (img_overall_confidence data) with
      | Some conf =>
          Some (mkIncidentNode ("inc_" +:+ signal_id)
                  (if decide ("structural_collapse" ∈ img_damage_types data)
                   then "structural_collapse" else "damage")
                  location damage (damage_urgency damage)
                  (img_casualties_min data) (img_casualties_max data) None None
                  conf [source_ref] now now [] (1 # 100) inc_active [])
      | None => None
      end
  | _, _ => None
  end.

(** The keys of the audio analyzer's [data]; [aud_trapped] is
    [persons_involved["trapped"]] when that is a dict, as its [min] and
    [max]. *)
Record AudioData := mkAudioData {
  aud_urgency : option string;
  aud_incident_type : dict_value string;
  aud_trapped : option (option Z * option Z);
  aud_overall_confidence : dict_value Q;
}.

(** [data.get("incident_type", "emergency")], then the validation of
    [incident_type: str]. *)
Definition resolve_incident_type (v : dict_value string) : option string :=
  match v with
  | Absent => Some "emergency"
  | Null => None
  | Present s => Some s
  end.

Definition audio_incident (now : datetime) (signal_id : string) (confidence : Q)
    (h1 h2 : Z) (md : Metadata) (data : AudioData) : option IncidentNode :=
  match source_reference now signal_id AUDIO confidence, signal_location h1 h2 md with
  | Some source_ref, Some location =>
      let urgency := default HIGH (Urgency_of_value (default "high" (aud_urgency data))) in
      match resolve_incident_type (aud_incident_type data),
            resolve_confidence (aud_overall_confidence data) with
      | Some ty, Some conf =>
          Some (mkIncidentNode ("inc_" +:+ signal_id) ty location
                  (if decide (urgency = CRITICAL) then SEVERE else MODERATE)
                  urgency
                  (default None (fst <$> aud_trapped data))
                  (default None (snd <$> aud_trapped data)) None None
                  conf [source_ref] now now [] (1 # 100) inc_active [])
      | _, _ => None
      end
  | _, _ => None
  end.

(** ** coordinator.py: [process_signal] *)

(** What the analyzer chosen by the signal type answers: its confidence and
    the keys of its [data] that the coordinator reads (for a text signal the
    [source_type], [None] when the key is absent, and the claims). *)
Record Analyzers := mkAnalyzers {
  vision : Q * ImageData;
  audio : Q * AudioData;
  text : Q * option string * list ClaimData;
}.

(** [process_signal] run without interleaving, from the [try] to the call
    of the planning analyzer (the timeline event that precedes the [try] is
    [_add_event]).  [None] is the [except] branch (the answer
    [{"error": ...}]), reached on an unknown signal type or when a record
    built from the analyzer's answer is rejected; the graph and the detector
    structures have not been written by then.  [now] is the clock read while
    the graph is updated, [now_p] and [stamp] are the two readings of the
    planning trigger; the boolean tells whether the planning analyzer is
    called. *)
Definition process_signal (verify : string → list Claim → VerificationData)
    (now now_p stamp : datetime) (signal_id alert_id : string) (h1 h2 : Z)
    (signal_type : string) (md : Metadata) (a : Analyzers) (c : Coordinator)
  : option (Coordinator * bool) :=
  if decide (signal_type = "image") then
    match image_incident now signal_id (vision a).1 h1 h2 md (vision a).2 with
    | Some incident =>
        Some (_maybe_generate_recommendations now_p stamp
                (process_incident_signal verify now alert_id incident c))
    | None => None
    end
  else if decide (signal_type = "audio") then
    match audio_incident now signal_id (audio a).1 h1 h2 md (audio a).2 with
    | Some incident =>
        Some (_maybe_generate_recommendations now_p stamp
                (process_incident_signal verify now alert_id incident c))
    | None => None
    end
  else if decide (signal_type = "text") then
    match source_reference now signal_id TEXT (text a).1.1, signal_location h1 h2 md with
    | Some _, Some _ =>
        Some (_maybe_generate_recommendations now_p stamp
                (update_graph_text now signal_id
                   (default "unverified" (text a).1.2) (text a).2 c))
    | _, _ => None
    end
  else None.

(** What [_maybe_generate_recommendations] does once the planning analyzer
    has answered, run without interleaving: [planned] is the
    [ActionRecommendation] built from the answer under a fresh identifier,
    [None] when the analyzer or the constructor raises, which the method
    catches; [now] is the clock that [add_action] reads. *)
Definition planning_tail (now : datetime) (planned : option ActionRecommendation)
    (c : Coordinator) : Coordinator :=
  match planned with
  | Some action => on_graph (add_action now action) c
  | None => c
  end.

(** [process_signal] to its [return]; [plan] gives what is built from the
    answer of the planning analyzer, from the state in which it is called,
    and [now_a] is the clock of [add_action]. *)
Definition process_signal_planned (verify : string → list Claim → VerificationData)
    (plan : Coordinator → option ActionRecommendation)
    (now now_p stamp now_a : datetime) (signal_id alert_id : string) (h1 h2 : Z)
    (signal_type : string) (md : Metadata) (a : Analyzers) (c : Coordinator)
  : option Coordinator :=
  match process_signal verify now now_p stamp signal_id alert_id h1 h2 signal_type md a c with
  | Some (c', true) => Some (planning_tail now_a (plan c') c')
  | Some (c', false) => Some c'
  | None => None
  end.

(** ** simulation.py: [_inject_contradiction] on any answer of the analyzer *)

(** What the analyzer's [data], parsed from the text of a model, holds
    under a key: nothing, [None], a string, a number or boolean, or a list
    or dict (which cannot be hashed); of the last two kinds only the truth
    value is read. *)
Inductive json_value :=
| JAbsent
| JNull
| JStr (s : string)
| JScalar (truthy : bool)
| JContainer (truthy : bool).

(** The four keys of [ver_data] that the injection reads. *)
Record RawVerification := mkRawVerification {
  raw_verdict : json_value;
  raw_temporal_analysis : json_value;
  raw_recommended_action : json_value;
  raw_recommended_action_details : json_value;
}.

(** [table.get(ver_data.get(key, dflt), fallback)] on a dictionary [table]
    with string keys: a list or a dict as key raises [TypeError] ([None]),
    any other value that is not a key gives [fallback]. *)
Definition lookup_answer {A} (table : string → option A) (fallback : A)
    (dflt : string) (v : json_value) : option A :=
  match v with
  | JAbsent => Some (default fallback (table dflt))
  | JStr s => Some (default fallback (table s))
  | JNull | JScalar _ => Some fallback
  | JContainer _ => None
  end.

(** [ver_data.get("temporal_analysis") or data.get("temporal_analysis", "")],
    then the validation of [Optional[str]]. *)
Definition raw_temporal (data : InjectData) (v : json_value) : option (option string) :=
  let scripted := Some (default "" (inj_temporal_analysis data)) in
  match v with
  | JStr s => Some (if truthy s then Some s else scripted)
  | JAbsent | JNull | JScalar false | JContainer false => Some scripted
  | JScalar true | JContainer true => None
  end.

(** [ver_data.get("recommended_action_details", "Deploy aerial verification")],
    then the validation of [str]. *)
Definition raw_details (v : json_value) : option string :=
  match v with
  | JAbsent => Some "Deploy aerial verification"
  | JStr s => Some s
  | _ => None
  end.

(** [ContradictionAlert(...)] of the injection, [None] when the expression
    raises. *)
Definition inject_alert_raw (sim_time : datetime) (id : string) (data : InjectData)
    (claims : list Claim) (raw : RawVerification) : option ContradictionAlert :=
  let entity_name := inject_entity data in
  match lookup_answer verdict_map CONTRADICTION
          (default "CONTRADICTION" (inj_force_verdict data)) (raw_verdict raw),
        raw_temporal data (raw_temporal_analysis raw),
        lookup_answer action_map REQUEST_VERIFICATION "REQUEST_VERIFICATION"
          (raw_recommended_action raw),
        raw_details (raw_recommended_action_details raw) with
  | Some v, Some t, Some act, Some details =>
      Some (mkContradictionAlert id (entity_id_of entity_name)
              (default "infrastructure" (inj_entity_type data)) entity_name claims
              v sev_high t act details HIGH sim_time false None None None)
  | _, _, _, _ => None
  end.

(** The [try] block and its handler; [answer] is [None] when the analyzer
    raises.  The handler only deletes the claims of the entity. *)
Definition inject_finish_raw (now sim_time : datetime) (id : string) (data : InjectData)
    (answer : option RawVerification) (c : Coordinator) : Coordinator :=
  let entity_name := inject_entity data in
  match claims_ref entity_name (signal_claims c) with
  | None => c
  | Some ref =>
      match answer ≫= inject_alert_raw sim_time id data (deref c ref) with
      | Some alert =>
          let c := set_graph_manager (add_contradiction now alert (graph_manager c)) c in
          let c := set_detector_alerts (detector_alerts c ∖ {[id]}) c in
          let c := set_handled ({[entity_name]} ∪ handled_contradictions c) c in
          del_claims entity_name c
      | None => del_claims entity_name c
      end
  end.

Definition _inject_contradiction_raw
    (verify : string → list Claim → option RawVerification)
    (now sim_time : datetime) (id : string) (data : InjectData)
    (c : Coordinator) : Coordinator :=
  let entity_name := inject_entity data in
  let c := inject_push sim_time data c in
  match claims_ref entity_name (signal_claims c) with
  | None => c
  | Some ref =>
      if bool_decide (2 ≤ length (deref c ref))%nat
      then inject_finish_raw now sim_time id data (verify entity_name (deref c ref)) c
      else c
  end.

(** The answer in which every key is absent or a string. *)
Definition raw_of_opt (o : option string) : json_value :=
  match o with Some s => JStr s | None => JAbsent end.

Definition raw_of (ver : VerificationData) : RawVerification :=
  mkRawVerification (raw_of_opt (ver_verdict ver))
    (raw_of_opt (ver_temporal_analysis ver))
    (raw_of_opt (ver_recommended_action ver))
    (raw_of_opt (ver_recommended_action_details ver)).

(** A state that the planning trigger cannot tell from [c]: the same
    incidents, resources and pending actions, and the same planning clock. *)
Definition same_planning_view (c c' : Coordinator) : Prop :=
  incidents (graph (graph_manager c')) = incidents (graph (graph_manager c))
  ∧ resources (graph (graph_manager c')) = resources (graph (graph_manager c))
  ∧ pending_actions (graph (graph_manager c')) = pending_actions (graph (graph_manager c))
  ∧ _last_planning_call c' = _last_planning_call c
  ∧ _planning_cooldown_seconds c' = _planning_cooldown_seconds c.

(* ===================================================================== *)
(** ** More Python string primitives *)
(* ===================================================================== *)

Module PyText.

(** [ch.isspace()] for an ASCII character: tab to carriage return, the four
    separators and the space.  A text is its UTF-8 bytes, none of which is
    white space above U+007F: the texts are taken to hold no white space
    outside ASCII. *)
Definition isspace (c : ascii) : bool :=
  let n := nat_of_ascii c in
  ((9 <=? n)%nat && (n <=? 13)%nat) || ((28 <=? n)%nat && (n <=? 32)%nat).

(** [s.lstrip()] and [s.lstrip(chars)]: drop the leading characters that
    satisfy [P]. *)
Fixpoint lstrip_by (P : ascii → bool) (s : string) : string :=
  match s with
  | EmptyString => EmptyString
  | String c s' => if P c then lstrip_by P s' else s
  end.

(** [s.rstrip()] and [s.rstrip(chars)] *)
Fixpoint rstrip_by (P : ascii → bool) (s : string) : string :=
  match s with
  | EmptyString => EmptyString
  | String c s' =>
      match rstrip_by P s' with
      | EmptyString => if P c then EmptyString else String c EmptyString
      | r => String c r
      end
  end.

(** [s.strip()] *)
Definition strip (s : string) : string := rstrip_by isspace (lstrip_by isspace s).

(** [s.rstrip(ch)] for a one-character [ch]. *)
Definition rstrip_char (ch : ascii) (s : string) : string :=
  rstrip_by (λ c, bool_decide (c = ch)) s.

(** [s.split(sep)] for a one-character [sep]. *)
Fixpoint split (sep : ascii) (s : string) : list string :=
  match s with
  | EmptyString => [EmptyString]
  | String c s' =>
      if decide (c = sep) then EmptyString :: split sep s'
      else match split sep s' with
           | l :: ls => String c l :: ls
           | [] => [String c EmptyString]
           end
  end.

(** [sep.join(l)] *)
Fixpoint join (sep : string) (l : list string) : string :=
  match l with
  | [] => EmptyString
  | [x] => x
  | x :: rest => x +:+ sep +:+ join sep rest
  end.

(** [s[n:]] *)
Fixpoint slice_from (n : nat) (s : string) : string :=
  match n, s with
  | O, _ => s
  | S n', String _ s' => slice_from n' s'
  | S _, EmptyString => EmptyString
  end.

(** What follows the last occurrence of [needle] in [s], if there is one;
    for a [needle] none of whose proper prefixes is a suffix of it, as
    "CONFIDENCE:", this is [s.split(needle)[-1]] when [needle in s]. *)
Fixpoint after_last (needle s : string) : option string :=
  match s with
  | EmptyString => None
  | String _ s' =>
      match after_last needle s' with
      | Some r => Some r
      | None =>
          if PyStr.startswith needle s
          then Some (slice_from (String.length needle) s)
          else None
      end
  end.

Definition newline : ascii := ascii_of_nat 10.

(** A string that [lstrip] has nothing to take from. *)
Definition lstripped (P : ascii → bool) (s : string) : Prop :=
  match s with
  | EmptyString => True
  | String c _ => P c = false
  end.

End PyText.

(* ===================================================================== *)
(** ** debate_agent.py *)
(* ===================================================================== *)

Inductive DebateRole := defender | challenger | rebuttal | synthesis.

(** Validation of [role: Literal["defender", "challenger", "rebuttal",
    "synthesis"]]. *)
Definition DebateRole_of_value (s : string) : option DebateRole :=
  if decide (s = "defender") then Some defender
  else if decide (s = "challenger") then Some challenger
  else if decide (s = "rebuttal") then Some rebuttal
  else if decide (s = "synthesis") then Some synthesis
  else None.

Record DebateTurn := mkDebateTurn {
  turn_number : Z;
  dt_agent_name : string;
  dt_role : DebateRole;
  argument : string;
  dt_confidence : Q;
  dt_timestamp : datetime;
}.

(** What [float(s)] does: raise [ValueError], return [nan] or an infinity,
    or return a number. *)
Inductive py_float := FloatError | NotFinite | Finite (q : Q).

(** [DebateTurn(...)]: [None] when the validation of [role] or of
    [confidence: float = Field(ge=0.0, le=1.0)] fails; a confidence that is
    not finite ([None] here) fails it. *)
Definition DebateTurn_new (n : Z) (agent_name role text : string)
    (confidence : option Q) (now : datetime) : option DebateTurn :=
  match DebateRole_of_value role, confidence with
  | Some r, Some q =>
      if in_unit q then Some (mkDebateTurn n agent_name r text q now) else None
  | _, _ => None
  end.

(** The dictionary [fallbacks] of [_fallback_turn]. *)
Definition fallbacks (n : Z) : option (string * DebateRole * string * Q) :=
  if decide (n = 1) then
    Some ("VisionAgent", defender,
      "The satellite image captured at 14:40 shows the Main Street Bridge with full structural integrity — "
      +:+ "all four spans visible, no debris field, approach roads clear. Satellite imagery at this resolution "
      +:+ "(0.5m/pixel) does not miss a full span collapse. My confidence in the image is 89%.",
      (89 # 100)%Q)
  else if decide (n = 2) then
    Some ("VerificationAgent", challenger,
      "The satellite image predates the first-responder audio by exactly 21 minutes. A 6.8M earthquake "
      +:+ "can induce progressive structural failure — the bridge may have been intact at 14:40 and collapsed "
      +:+ "by 15:01. The first-responder report comes from a unit on the ground with direct visual. "
      +:+ "Ground truth after an event always supersedes pre-event imagery.",
      (78 # 100)%Q)
  else if decide (n = 3) then
    Some ("VisionAgent", rebuttal,
      "A valid point on timing. However, the first-responder report mentions 'complete collapse of main span' — "
      +:+ "a failure that catastrophic would leave a debris field visible from the downstream camera feeds. "
      +:+ "No secondary sources confirm this debris. I concede the 21-minute gap creates genuine uncertainty, "
      +:+ "and reduce my confidence to 61%.",
      (61 # 100)%Q)
  else if decide (n = 4) then
    Some ("VerificationAgent", synthesis,
      "Both analysts raise valid points. The temporal gap is the decisive factor — we cannot use pre-event "
      +:+ "imagery to route resources after an M6.8 event. The first-responder report, while a single source, "
      +:+ "comes from trained personnel with direct observation. Route all Sector 4 resources via the Oak Street "
      +:+ "bypass until aerial verification confirms bridge status. Dispatch HELI-1 immediately.",
      (74 # 100)%Q)
  else None.

(** [_fallback_turn(turn_number, agent_name, role)]; the last two arguments
    are not read. *)
Definition _fallback_turn (now : datetime) (n : Z) : DebateTurn :=
  let data :=
    default ("VisionAgent", defender,
      "The satellite image captured at 14:40 shows the Main Street Bridge with full structural integrity — "
      +:+ "all four spans visible, no debris field, approach roads clear. Satellite imagery at this resolution "
      +:+ "(0.5m/pixel) does not miss a full span collapse. My confidence in the image is 89%.",
      (89 # 100)%Q) (fallbacks n) in
  mkDebateTurn n data.1.1.1 data.1.1.2 data.1.2 data.2 now.

(** [# Extract confidence from synthesis turn]: the value of [confidence]
    after the block, [None] when it is not finite. *)
Definition turn_confidence (float : string → py_float) (text : string) : option Q :=
  if PyStr.contains "CONFIDENCE:" text then
    match last (filter (λ l, PyStr.contains "CONFIDENCE:" l = true)
                  (PyText.split PyText.newline text)) with
    | Some conf_line =>
        match float (PyText.strip
                       (default conf_line (PyText.after_last "CONFIDENCE:" conf_line))) with
        | Finite q => Some q
        | NotFinite => None
        | FloatError => Some (18 # 25)%Q
        end
    | None => Some (18 # 25)%Q
    end
  else Some (18 # 25)%Q.

(** One iteration of [for prefix in [...]]. *)
Definition strip_prefix (text prefix : string) : string :=
  if PyStr.startswith prefix text
  then PyText.strip (PyText.slice_from (String.length prefix) text)
  else text.

Definition strip_markers (text : string) : string :=
  foldl strip_prefix text ["ANALYSIS:"; "CHALLENGE:"; "REBUTTAL:"; "VERDICT:"].

(** [# Remove the CONFIDENCE line from displayed text] *)
Definition drop_confidence_lines (text : string) : string :=
  PyText.strip
    (PyText.join (String PyText.newline "")
       (filter (λ l, PyStr.startswith "CONFIDENCE:" (PyText.strip l) = false)
          (PyText.split PyText.newline text))).

(** [role = "user" if msg.get("role") == "user" else "model"] *)
Definition gemini_role (msg_role : string) : string :=
  if decide (msg_role = "user") then "user" else "model".

Section Debate.

(** The model: from the system instruction and the contents to the text of
    its answer, [None] when the call or the access to the text raises. *)
Variable generate : string → list (string * string) → option string.
Variable float : string → py_float.

(** The four prompt constants, and the context string that [run_debate]
    formats from the alert. *)
Variables DEFENDER_SYSTEM CHALLENGER_SYSTEM REBUTTAL_SYSTEM SYNTHESIS_SYSTEM : string.
Variable context : string.

(** [_run_turn]; a message of the history is its role and its content.  The
    loop over the history assigns to the variable [role], which is the
    parameter. *)
Definition _run_turn (now : datetime) (system user_msg : string)
    (history : list (string * string)) (n : Z) (agent_name role : string)
  : DebateTurn :=
  let role := foldl (λ _ msg, gemini_role msg.1) role history in
  let gemini_contents :=
    (((λ msg, (gemini_role msg.1, msg.2)) <$> history) ++ [("user", user_msg)])%list in
  match generate system gemini_contents with
  | Some text =>
      let confidence := turn_confidence float text in
      let text := drop_confidence_lines (strip_markers text) in
      default (_fallback_turn now n)
        (DebateTurn_new n agent_name role text confidence now)
  | None => _fallback_turn now n
  end.



End Debate.

(* ===================================================================== *)
(** ** simulation.py: [_load_initial_resources] *)
(* ===================================================================== *)

(** Validation of the [Literal[...]] field [status] of a resource. *)
Definition ResourceStatus_of_value (s : string) : option ResourceStatus :=
  if decide (s = "available") then Some res_available
  else if decide (s = "dispatched") then Some res_dispatched
  else if decide (s = "on_scene") then Some res_on_scene
  else if decide (s = "returning") then Some res_returning
  else if decide (s = "offline") then Some res_offline
  else None.

(** [resource_locations.get(str(sector), {"lat": 37.78, "lng": -122.41})] *)
Definition resource_locations (sector : string) : PrimFloat.float * PrimFloat.float :=
  if decide (sector = "1") then (37.79, -122.402)%float
  else if decide (sector = "2") then (37.78, -122.41)%float
  else if decide (sector = "3") then (37.772, -122.418)%float
  else if decide (sector = "4") then (37.76, -122.405)%float
  else if decide (sector = "5") then (37.755, -122.415)%float
  else (37.78, -122.41)%float.

(** The keys of an item of the scenario that the loader reads;
    [item_sector] holds [str] of the value. *)
Record ResourceItem := mkResourceItem {
  item_id : dict_value string;
  item_sector : dict_value string;
  item_status : dict_value string;
  item_personnel : dict_value Z;
}.

(** [str(item.get("sector", "1"))] *)
Definition item_sector_str (item : ResourceItem) : string :=
  match item_sector item with
  | Absent => "1"
  | Null => "None"
  | Present s => s
  end.

(** [item.get("id", str(uuid.uuid4())[:8])] and [item.get("id", "UNIT-?")],
    then the validation of the two [str] fields; [fresh] is the identifier
    drawn. *)
Definition item_ids_of (fresh : string) (item : ResourceItem) : option (string * string) :=
  match item_id item with
  | Absent => Some (fresh, "UNIT-?")
  | Null => None
  | Present s => Some (s, s)
  end.

(** [item.get("status", "available")], then the validation of [status]. *)
Definition item_status_of (item : ResourceItem) : option ResourceStatus :=
  match item_status item with
  | Absent => Some res_available
  | Null => None
  | Present s => ResourceStatus_of_value s
  end.

(** [item.get("personnel", 2)], then the validation of [personnel: int]. *)
Definition item_personnel_of (item : ResourceItem) : option Z :=
  match item_personnel item with
  | Absent => Some 2
  | Null => None
  | Present z => Some z
  end.

(** The [ResourceNode(...)] of the inner loop, [None] when it raises.
    [h1] and [h2] are the hashes of the id and of the reversed id. *)
Definition initial_resource (now : datetime) (fresh : string) (h1 h2 : Z)
    (resource_type : string) (item : ResourceItem) : option ResourceNode :=
  let sector := item_sector_str item in
  let loc := resource_locations sector in
  let location :=
    mkLocation (offset_coord loc.1 0.0005 (h1 mod 50 - 25))
               (offset_coord loc.2 0.0005 (h2 mod 50 - 25))
               None (Some sector) None in
  match item_ids_of fresh item, item_status_of item, item_personnel_of item with
  | Some ids, Some st, Some p =>
      Some (mkResourceNode ids.1 (PyText.rstrip_char "s" resource_type) ids.2 location
              None st None p 2 None now)
  | _, _, _ => None
  end.

(** The inner loop [for item in items]; an item comes with the identifier
    and the two hashes drawn for it.  The boolean is [false] when a
    constructor has raised: the resources added before stay in the graph. *)
Fixpoint load_items (now : datetime) (resource_type : string)
    (items : list (ResourceItem * string * Z * Z)) (m : SituationGraphManager)
  : SituationGraphManager * bool :=
  match items with
  | [] => (m, true)
  | (item, fresh, h1, h2) :: rest =>
      match initial_resource now fresh h1 h2 resource_type item with
      | Some r => load_items now resource_type rest (add_resource now r m)
      | None => (m, false)
      end
  end.

(** [_load_initial_resources]; a value of [resources_data] that is not a
    list is [None]. *)
Fixpoint _load_initial_resources (now : datetime)
    (resources_data : list (string * option (list (ResourceItem * string * Z * Z))))
    (m : SituationGraphManager) : SituationGraphManager * bool :=
  match resources_data with
  | [] => (m, true)
  | (_, None) :: rest => _load_initial_resources now rest m
  | (resource_type, Some items) :: rest =>
      let r := load_items now resource_type items m in
      if r.2 then _load_initial_resources now rest r.1 else r
  end.

(** The identifiers of the resources that a load builds. *)
Definition item_ids (items : list (ResourceItem * string * Z * Z)) : list string :=
  (λ i, match item_id i.1.1.1 with Present s => s | _ => i.1.1.2 end) <$> items.

Definition loaded_ids
    (resources_data : list (string * option (list (ResourceItem * string * Z * Z))))
  : list string :=
  resources_data ≫= (λ kv, item_ids (default [] kv.2)).

(* ===================================================================== *)
(** ** base_agent.py: the brace scan of [_extract_json] *)
(* ===================================================================== *)

(** [text[text.find("{"):]], [None] when [find] returns -1. *)
Fixpoint from_first_brace (text : string) : option string :=
  match text with
  | EmptyString => None
  | String ch rest =>
      if decide (ch = "{"%char) then Some text else from_first_brace rest
  end.

(** The loop [for i, ch in enumerate(text[start:], start)] up to the first
    position at which [depth] is back to 0: the candidate
    [text[start:i + 1]], [None] when the loop runs to the end. *)
Fixpoint scan_candidate (depth : Z) (s : string) : option string :=
  match s with
  | EmptyString => None
  | String ch rest =>
      if decide (ch = "{"%char) then String ch <$> scan_candidate (depth + 1) rest
      else if decide (ch = "}"%char) then
        if decide (depth - 1 = 0) then Some (String ch EmptyString)
        else String ch <$> scan_candidate (depth - 1) rest
      else String ch <$> scan_candidate depth rest
  end.

Definition brace_candidate (text : string) : option string :=
  from_first_brace text ≫= scan_candidate 0.

(** The last stage of [_extract_json], after the code block and the whole
    text have failed to parse: [loads] is [json.loads] ([None] when it
    raises), [clean] the substitution that drops trailing commas.  [None] is
    the final [raise ValueError]. *)
Definition extract_by_scan {J} (loads : string → option J) (clean : string → string)
    (text : string) : option J :=
  match brace_candidate text with
  | Some candidate =>
      match loads candidate with
      | Some j => Some j
      | None => loads (clean candidate)
      end
  | None => None
  end.

(** Opening minus closing braces. *)
Fixpoint balance (s : string) : Z :=
  match s with
  | EmptyString => 0
  | String ch rest =>
      (if decide (ch = "{"%char) then 1 else if decide (ch = "}"%char) then -1 else 0)
      + balance rest
  end.

(* ===================================================================== *)
(** ** deliberation.py *)
(* ===================================================================== *)

Section Deliberation.

(** The values of the [data] dictionaries, with their [str]. *)
Context {V : Type} (str : V → string).

(** The fields of an [AgentOutput] that [deliberate] reads. *)
Record AgentOutput := mkAgentOutput {
  ao_agent_name : string;
  ao_data : gmap string V;
  ao_confidence : Q;
}.

(** One entry of [disagreements]: the field and, for every output that has
    it, the agent, the value and the confidence. *)
Record Disagreement := mkDisagreement {
  dis_field : string;
  dis_values : list (string * V * Q);
}.

(** [final_confidence], a floating-point mean that nothing below reads, is
    left out. *)
Record DeliberationResult := mkDeliberationResult {
  consensus : gmap string V;
  disagreements : list Disagreement;
}.

(** [[o.data.get(key) for o in outputs if key in o.data]] *)
Definition key_values (key : string) (outputs : list AgentOutput) : list V :=
  omap (λ o, ao_data o !! key) outputs.

(** [len(set(str(v) for v in values)) == 1] *)
Definition agree (values : list V) : bool :=
  bool_decide (size (list_to_set (str <$> values) : gset string) = 1%nat).

(** The body of [for key in all_keys]. *)
Definition deliberate_step (outputs : list AgentOutput)
    (acc : gmap string V * list Disagreement) (key : string)
  : gmap string V * list Disagreement :=
  let values := key_values key outputs in
  if agree values then
    match values with
    | v :: _ => (<[key := v]> acc.1, acc.2)
    | [] => acc
    end
  else
    (acc.1,
     (acc.2 ++
      [mkDisagreement key
         (omap (λ o, (λ v, (ao_agent_name o, v, ao_confidence o)) <$> ao_data o !! key)
            outputs)])%list).

(** [deliberate]; the keys are visited in the order of [elements], which
    stands for the iteration order of the Python set. *)
Definition deliberate (outputs : list AgentOutput) : DeliberationResult :=
  match outputs with
  | [] => mkDeliberationResult ∅ []
  | [o] => mkDeliberationResult (ao_data o) []
  | _ =>
      let all_keys : gset string := ⋃ ((λ o, dom (ao_data o)) <$> outputs) in
      let r := foldl (deliberate_step outputs) (∅, []) (elements all_keys) in
      mkDeliberationResult r.1 r.2
  end.

End Deliberation.

Arguments AgentOutput : clear implicits.
Arguments Disagreement : clear implicits.
Arguments DeliberationResult : clear implicits.

(* ===================================================================== *)
(** ** Sample data of the further properties *)
(* ===================================================================== *)

(** Two incidents and a free ambulance. *)
Definition graph_two : SituationGraphManager :=
  mkManager
    (mkSituationGraph
       (list_to_map [("inc_x", inc_x inc_active []);
                     ("inc_s3", inc_of_signal "s3" 3000)])
       {[ "AMB-7" := amb7 res_available None None None ]}
       ∅ ∅ "" "" 0 0 0)
    [].

(** A signal without coordinates and what the analyzers make of it. *)
Definition md_plain : Metadata := mkMetadata Absent Absent Absent None.

Definition image_severe : ImageData :=
  mkImageData (Some "severe") ["structural_collapse"] (Some 3) (Some 8)
    (Present (17 # 20)%Q).

Definition audio_verbose : AudioData :=
  mkAudioData (Some "CRITICAL - people trapped") (Present "building_collapse")
    (Some (Some 2, Some 5)) Absent.

Definition analyzers_1 : Analyzers :=
  mkAnalyzers ((9 # 10)%Q, image_severe) ((4 # 5)%Q, audio_verbose)
    ((7 # 10)%Q, Some "social_media",
     [mkClaimData bridge "Bridge collapsed" (1 # 2)]).

(** A coordinator whose graph holds a free ambulance and one pending
    action. *)
Definition coordinator_8 : Coordinator :=
  set_graph_manager graph_8 (new_coordinator 0).

(** The bridge has been handled by the detector. *)
Definition bridge_handled : Coordinator :=
  process_incident_signal fallback_verify 3000 "alert_1" (inc_of_signal "s3" 3000)
    race_start.

(** An answer whose [recommended_action_details] is [null]. *)
Definition raw_null_details : RawVerification :=
  mkRawVerification (JStr "CONTRADICTION") JAbsent (JStr "REQUEST_VERIFICATION") JNull.

Definition item_amb7 : ResourceItem :=
  mkResourceItem (Present "AMB-7") (Present "4") (Present "available") Absent.

(** Two outputs that agree on the damage and differ on the urgency. *)
Definition output_vision : AgentOutput string :=
  mkAgentOutput "VisionAgent"
    (list_to_map [("damage", "severe"); ("urgency", "critical")]) (9 # 10).

Definition output_audio : AgentOutput string :=
  mkAgentOutput "AudioAgent"
    (list_to_map [("damage", "severe"); ("urgency", "high")]) (7 # 10).

(* ===================================================================== *)
(** * Properties *)
(* ===================================================================== *)

(** ** Python string primitives *)

Module PyStrFacts.
Import PyStr.

Lemma startswith_spec p s :
  startswith p s = true ↔ ∃ post, s = p +:+ post.
Proof.
  revert s; induction p as [|a p IH]; intros s; simpl.
  - split; [intros _; by exists s | done].
  - destruct s as [|b s].
    + split; [done | intros [post H]; discriminate].
    + destruct (decide (a = b)) as [->|Hne].
      * rewrite IH. split; intros [post H]; exists post.
        -- by rewrite H.
        -- by injection H.
      * split; [done | intros [post H]; injection H; congruence].
Qed.

Lemma contains_spec needle hay :
  contains needle hay = true ↔ occurs_in needle hay.
Proof.
  induction hay as [|c hay IH].
  - simpl. rewrite orb_false_r, startswith_spec. split.
    + intros [post H]. by exists "", post.
    + intros [pre [post H]]. destruct pre; [by exists post | discriminate].
  - cbn [contains]. rewrite orb_true_iff, startswith_spec, IH. split.
    + intros [[post H] | [pre [post H]]].
      * by exists "", post.
      * exists (String c pre), post. simpl. by rewrite H.
    + intros [pre [post H]]. destruct pre as [|c' pre].
      * left. by exists post.
      * right. injection H as -> H. by exists pre, post.
Qed.

Lemma not_contains_spec needle hay :
  contains needle hay = false ↔ ¬ occurs_in needle hay.
Proof. rewrite <- contains_spec. by destruct (contains needle hay). Qed.

End PyStrFacts.

(** ** [_parse_urgency] *)

Example parse_urgency_verbose :
  _parse_urgency "Critical — some explanation" = CRITICAL.
Proof. reflexivity. Qed.

Example parse_urgency_order :
  _parse_urgency "low now, HIGH later" = HIGH.
Proof. reflexivity. Qed.

Example parse_urgency_default : _parse_urgency "urgent!" = HIGH.
Proof. reflexivity. Qed.

Lemma first_level_in_cons level rest raw :
  first_level_in (level :: rest) raw =
  if PyStr.contains level raw then Some level else first_level_in rest raw.
Proof. reflexivity. Qed.

(** C9. [_parse_urgency] folds case, then answers the first of "critical",
    "high", "medium", "low" (in this order) that occurs in the input, and
    [HIGH] when none of them occurs. *)
Theorem parse_urgency_first_match (raw : string) :
  (mentions "critical" raw → _parse_urgency raw = CRITICAL) ∧
  (¬ mentions "critical" raw → mentions "high" raw → _parse_urgency raw = HIGH) ∧
  (¬ mentions "critical" raw → ¬ mentions "high" raw → mentions "medium" raw →
     _parse_urgency raw = MEDIUM) ∧
  (¬ mentions "critical" raw → ¬ mentions "high" raw → ¬ mentions "medium" raw →
     mentions "low" raw → _parse_urgency raw = LOW) ∧
  (¬ mentions "critical" raw → ¬ mentions "high" raw → ¬ mentions "medium" raw →
     ¬ mentions "low" raw → _parse_urgency raw = HIGH).
Proof.
  unfold mentions, _parse_urgency, urgency_levels.
  rewrite !first_level_in_cons.
  repeat split; intros;
    repeat match goal with
      | H : PyStr.occurs_in _ _ |- _ => apply PyStrFacts.contains_spec in H; rewrite H
      | H : ¬ PyStr.occurs_in _ _ |- _ => apply PyStrFacts.not_contains_spec in H; rewrite H
      end; reflexivity.
Qed.

Lemma parse_urgency_first_match_witness :
  _parse_urgency "LOW at first, Medium after review" = MEDIUM.
Proof.
  apply (proj1 (proj2 (proj2
           (parse_urgency_first_match "LOW at first, Medium after review")))).
  - apply PyStrFacts.not_contains_spec. reflexivity.
  - apply PyStrFacts.not_contains_spec. reflexivity.
  - apply PyStrFacts.contains_spec. reflexivity.
Defined.

(** ** [approve_action] *)

Lemma dispatched_idemp now a r :
  dispatched now a (dispatched now a r) = dispatched now a r.
Proof. unfold dispatched; simpl. by destruct (target_location a). Qed.

(** The loop over [resources_to_allocate] rewrites exactly the listed
    resources that exist. *)
Lemma foldl_dispatch_lookup now a l (rs : gmap string ResourceNode) rid :
  foldl (dispatch_resource now a) rs l !! rid =
  if decide (rid ∈ l) then dispatched now a <$> rs !! rid else rs !! rid.
Proof.
  revert rs; induction l as [|x l IH]; intros rs; cbn [foldl].
  - rewrite decide_False; [done | apply not_elem_of_nil].
  - rewrite IH. unfold dispatch_resource.
    destruct (decide (rid = x)) as [->|Hne].
    + rewrite (decide_True (P := x ∈ x :: l)); [|apply elem_of_cons; by left].
      destruct (rs !! x) as [r|] eqn:Hx.
      * rewrite lookup_insert_eq. simpl. rewrite dispatched_idemp.
        by destruct (decide (x ∈ l)).
      * rewrite Hx. by destruct (decide (x ∈ l)).
    + assert (Hl : (match rs !! x with
                    | Some resource => <[x := dispatched now a resource]> rs
                    | None => rs
                    end) !! rid = rs !! rid).
      { destruct (rs !! x); [by rewrite lookup_insert_ne | done]. }
      rewrite Hl.
      destruct (decide (rid ∈ l)) as [Hin|Hnin].
      * rewrite decide_True; [done | apply elem_of_cons; by right].
      * rewrite decide_False; [done |].
        intros [?|?]%elem_of_cons; contradiction.
Qed.

(** C1 (amended). Approving an action that is in the pending-actions map
    stores it with status approved and the decision stamps; every listed
    resource that exists becomes dispatched to the action's target incident
    with an ETA of 8, and its destination becomes the action's target
    location when there is one (it keeps its destination otherwise); the
    target incident, when its id is non-empty and it exists, becomes
    responding and its assigned resources are the former ones together with
    the listed ids. *)
Theorem approve_action_spec now action_id who m a :
  pending_actions (graph m) !! action_id = Some a →
  let res := approve_action now action_id who m in
  let g' := graph res.2 in
  (∃ a', res.1 = Some a' ∧ pending_actions g' !! action_id = Some a'
         ∧ act_status a' = act_approved
         ∧ decided_at a' = Some now ∧ decided_by a' = Some who) ∧
  (∀ rid r, rid ∈ resources_to_allocate a →
     resources (graph m) !! rid = Some r →
     ∃ r', resources g' !! rid = Some r'
           ∧ res_status r' = res_dispatched
           ∧ assigned_incident r' = target_incident_id a
           ∧ eta_minutes r' = Some 8
           ∧ (∀ loc, target_location a = Some loc → destination r' = Some loc)
           ∧ (target_location a = None → destination r' = destination r)) ∧
  (∀ tid i, target_incident_id a = Some tid → tid ≠ "" →
     incidents (graph m) !! tid = Some i →
     ∃ i', incidents g' !! tid = Some i'
           ∧ inc_status i' = inc_responding
           ∧ ∀ x, x ∈ assigned_resources i' ↔
                  x ∈ assigned_resources i ∨ x ∈ resources_to_allocate a).
Proof.
  intros Ha. unfold approve_action. rewrite Ha. cbn zeta. simpl.
  split; [|split].
  - eexists. split; [reflexivity|]. rewrite lookup_insert_eq. done.
  - intros rid r Hin Hr. rewrite foldl_dispatch_lookup.
    rewrite decide_True by done. rewrite Hr. simpl.
    eexists. split; [reflexivity|]. simpl. repeat split.
    + intros loc Hloc. by rewrite Hloc.
    + intros Hloc. by rewrite Hloc.
  - intros tid i Htid Hne Hi. unfold respond_incident. simpl. rewrite Htid.
    assert (Ht : truthy tid = true).
    { unfold truthy. destruct (String.eqb_spec tid ""); [contradiction | done]. }
    rewrite Ht, Hi, lookup_insert_eq.
    eexists. split; [reflexivity|]. simpl. split; [done|].
    intros x. apply elem_of_app.
Qed.

(** C1 as stated fails on [graph_1]: after the approval the destination of
    AMB-7 is not the action's target location, and AMB-7 occurs twice in the
    incident's assigned resources.  It fails on [graph_8] too: the target
    incident exists, under the empty id, and is left as it was. *)
Lemma approve_action_counterexample :
  let m' := (approve_action 1000 "action_1" "operator" graph_1).2 in
  let m8 := (approve_action 1000 "action_4" "operator" graph_8).2 in
  (∃ r', resources (graph m') !! "AMB-7" = Some r'
         ∧ destination r' ≠ target_location action_1) ∧
  (∃ i', incidents (graph m') !! "inc_x" = Some i'
         ∧ assigned_resources i' = ["AMB-7"; "AMB-7"]
         ∧ ¬ NoDup (assigned_resources i')) ∧
  (target_incident_id action_4 = Some ""
   ∧ incidents (graph graph_8) !! "" = Some inc_blank
   ∧ incidents (graph m8) !! "" = Some inc_blank
   ∧ inc_status inc_blank ≠ inc_responding).
Proof.
  split; [|split].
  - eexists. split; [vm_compute; reflexivity|]. simpl. discriminate.
  - eexists. split; [vm_compute; reflexivity|]. simpl. split; [reflexivity|].
    intros Hnd. apply NoDup_cons in Hnd as [Hnin _].
    apply Hnin, elem_of_cons; by left.
  - split; [reflexivity|]. split; [by vm_compute|]. split; [by vm_compute|].
    discriminate.
Qed.

Lemma approve_action_spec_witness :
  ∃ a', (approve_action 1000 "action_1" "operator" graph_1).1 = Some a'
        ∧ act_status a' = act_approved.
Proof.
  destruct (approve_action_spec 1000 "action_1" "operator" graph_1 action_1)
    as [(a' & H1 & _ & H2 & _) _].
  - vm_compute. reflexivity.
  - exists a'. split; assumption.
Defined.

(** ** Resource invariants under the assignment operations *)

Lemma approve_action_resources now action_id who m rid :
  resources (graph (approve_action now action_id who m).2) !! rid =
  match pending_actions (graph m) !! action_id with
  | Some a =>
      if decide (rid ∈ resources_to_allocate a)
      then dispatched now (decide_action act_approved now who a)
             <$> resources (graph m) !! rid
      else resources (graph m) !! rid
  | None => resources (graph m) !! rid
  end.
Proof.
  unfold approve_action.
  destruct (pending_actions (graph m) !! action_id) as [a|]; [|done].
  cbn zeta. simpl. by rewrite foldl_dispatch_lookup.
Qed.

Lemma approve_action_pending now action_id who m id :
  pending_actions (graph (approve_action now action_id who m).2) !! id =
  match pending_actions (graph m) !! action_id with
  | Some a =>
      if decide (action_id = id) then Some (decide_action act_approved now who a)
      else pending_actions (graph m) !! id
  | None => pending_actions (graph m) !! id
  end.
Proof.
  unfold approve_action.
  destruct (pending_actions (graph m) !! action_id) as [a|]; [|done].
  cbn zeta. simpl. apply lookup_insert.
Qed.

Lemma assign_resource_manual_resources now resource_id incident_id m rid :
  resources (graph (assign_resource_manual now resource_id incident_id m).2) !! rid =
  match resources (graph m) !! resource_id, incidents (graph m) !! incident_id with
  | Some r, Some i =>
      if decide (resource_id = rid)
      then Some (set_assignment res_dispatched (Some incident_id)
                   (Some (inc_location i)) (Some 8) now r)
      else resources (graph m) !! rid
  | _, _ => resources (graph m) !! rid
  end.
Proof.
  unfold assign_resource_manual.
  destruct (resources (graph m) !! resource_id) as [r|]; [|done].
  destruct (incidents (graph m) !! incident_id) as [i|]; [|done].
  cbn zeta. simpl. apply lookup_insert.
Qed.

Lemma unassign_resource_resources now resource_id m rid :
  resources (graph (unassign_resource now resource_id m).2) !! rid =
  match resources (graph m) !! resource_id with
  | Some r =>
      if decide (resource_id = rid)
      then Some (set_assignment res_available None None None now r)
      else resources (graph m) !! rid
  | None => resources (graph m) !! rid
  end.
Proof.
  unfold unassign_resource.
  destruct (resources (graph m) !! resource_id) as [r|]; [|done].
  cbn zeta. simpl. apply lookup_insert.
Qed.

Lemma assign_resource_manual_pending now resource_id incident_id m :
  pending_actions (graph (assign_resource_manual now resource_id incident_id m).2) =
  pending_actions (graph m).
Proof.
  unfold assign_resource_manual.
  destruct (resources (graph m) !! resource_id) as [r|]; [|done].
  by destruct (incidents (graph m) !! incident_id) as [i|].
Qed.

Lemma unassign_resource_pending now resource_id m :
  pending_actions (graph (unassign_resource now resource_id m).2) =
  pending_actions (graph m).
Proof.
  unfold unassign_resource.
  by destruct (resources (graph m) !! resource_id) as [r|].
Qed.

Lemma apply_mutation_available_ok m op :
  all_resources available_ok m → all_resources available_ok (apply_mutation m op).
Proof.
  intros Hm rid r'. destruct op as [now [action_id who|resource_id incident_id|resource_id]];
    unfold apply_mutation; simpl.
  - rewrite approve_action_resources.
    destruct (pending_actions (graph m) !! action_id) as [a|]; [|apply Hm].
    destruct (decide (rid ∈ resources_to_allocate a)); [|apply Hm].
    destruct (resources (graph m) !! rid) as [r|]; [|done].
    intros [= <-]. intros Hst. discriminate.
  - rewrite assign_resource_manual_resources.
    destruct (resources (graph m) !! resource_id) as [r|]; [|apply Hm].
    destruct (incidents (graph m) !! incident_id) as [i|]; [|apply Hm].
    destruct (decide (resource_id = rid)); [|apply Hm].
    intros [= <-]. intros Hst. discriminate.
  - rewrite unassign_resource_resources.
    destruct (resources (graph m) !! resource_id) as [r|]; [|apply Hm].
    destruct (decide (resource_id = rid)); [|apply Hm].
    intros [= <-]. intros Hst. reflexivity.
Qed.

Lemma apply_mutation_actions_targeted m op :
  actions_targeted m → actions_targeted (apply_mutation m op).
Proof.
  intros Hm id a'. destruct op as [now [action_id who|resource_id incident_id|resource_id]];
    unfold apply_mutation; simpl.
  - rewrite approve_action_pending.
    destruct (pending_actions (graph m) !! action_id) as [a|] eqn:Ha; [|apply Hm].
    destruct (decide (action_id = id)); [|apply Hm].
    intros [= <-]. simpl. by apply (Hm action_id).
  - rewrite assign_resource_manual_pending. apply Hm.
  - rewrite unassign_resource_pending. apply Hm.
Qed.

Lemma apply_mutation_dispatched_ok m op :
  actions_targeted m →
  all_resources dispatched_ok m → all_resources dispatched_ok (apply_mutation m op).
Proof.
  intros Ht Hm rid r'. destruct op as [now [action_id who|resource_id incident_id|resource_id]];
    unfold apply_mutation; simpl.
  - rewrite approve_action_resources.
    destruct (pending_actions (graph m) !! action_id) as [a|] eqn:Ha; [|apply Hm].
    destruct (decide (rid ∈ resources_to_allocate a)); [|apply Hm].
    destruct (resources (graph m) !! rid) as [r|]; [|done].
    intros [= <-]. intros _. simpl.
    destruct (Ht _ _ Ha) as [Hi Hl]. split; [done|].
    by destruct (target_location a).
  - rewrite assign_resource_manual_resources.
    destruct (resources (graph m) !! resource_id) as [r|]; [|apply Hm].
    destruct (incidents (graph m) !! incident_id) as [i|]; [|apply Hm].
    destruct (decide (resource_id = rid)); [|apply Hm].
    intros [= <-]. intros _. by simpl.
  - rewrite unassign_resource_resources.
    destruct (resources (graph m) !! resource_id) as [r|]; [|apply Hm].
    destruct (decide (resource_id = rid)); [|apply Hm].
    intros [= <-]. intros Hst. discriminate.
Qed.

Lemma apply_mutations_available_ok ops m :
  all_resources available_ok m → all_resources available_ok (apply_mutations ops m).
Proof.
  unfold apply_mutations. revert m.
  induction ops as [|op ops IH]; intros m Hav; [done|].
  cbn [foldl]. by apply IH, apply_mutation_available_ok.
Qed.

Lemma apply_mutations_dispatched_ok ops m :
  actions_targeted m →
  all_resources dispatched_ok m → all_resources dispatched_ok (apply_mutations ops m).
Proof.
  unfold apply_mutations. revert m.
  induction ops as [|op ops IH]; intros m Ht Hdi; [done|].
  cbn [foldl]. apply IH.
  - by apply apply_mutation_actions_targeted.
  - by apply apply_mutation_dispatched_ok.
Qed.

(** C3 (amended). From a graph whose resources satisfy both invariants,
    any sequence of approvals, manual assignments and unassignments leaves
    [available ⇒ assigned_incident = null] true of every resource; it leaves
    [dispatched ⇒ assigned_incident ≠ null ∧ destination ≠ null] true of
    every resource when every pending action names a target incident and
    carries a target location. *)
Theorem resource_invariants_preserved ops m :
  all_resources available_ok m →
  all_resources dispatched_ok m →
  all_resources available_ok (apply_mutations ops m) ∧
  (actions_targeted m → all_resources dispatched_ok (apply_mutations ops m)).
Proof.
  intros Hav Hdi. split.
  - by apply apply_mutations_available_ok.
  - intros Ht. by apply apply_mutations_dispatched_ok.
Qed.

Lemma graph_2_ok :
  all_resources available_ok graph_2 ∧ all_resources dispatched_ok graph_2.
Proof.
  split; intros rid r Hr; simpl in Hr;
    apply lookup_singleton_Some in Hr as [_ <-]; by intros ?.
Qed.

(** C3 as stated fails: [graph_2] satisfies both invariants, and one
    approval leaves AMB-7 dispatched with no destination. *)
Lemma resource_invariants_counterexample :
  all_resources available_ok graph_2 ∧ all_resources dispatched_ok graph_2 ∧
  ∃ r, resources (graph (apply_mutations [(1000, Approve "action_2" "operator")] graph_2))
         !! "AMB-7" = Some r
       ∧ res_status r = res_dispatched ∧ destination r = None.
Proof.
  split; [apply graph_2_ok | split; [apply graph_2_ok |]].
  eexists. split; [vm_compute; reflexivity|]. by split.
Qed.

Lemma resource_invariants_preserved_witness :
  all_resources available_ok (apply_mutations ops_7 graph_7)
  ∧ all_resources dispatched_ok (apply_mutations ops_7 graph_7).
Proof.
  destruct (resource_invariants_preserved ops_7 graph_7) as [Hav Hdi].
  - intros rid r Hr. simpl in Hr.
    apply lookup_singleton_Some in Hr as [_ <-]. by intros ?.
  - intros rid r Hr. simpl in Hr.
    apply lookup_singleton_Some in Hr as [_ <-]. by intros ?.
  - split; [exact Hav|]. apply Hdi.
    intros id a Ha. simpl in Ha.
    apply lookup_singleton_Some in Ha as [_ <-]. by split.
Defined.

(** ** [decay_confidences] *)

Lemma py_max_is_max a b : (py_max a b == Qmax a b)%Q.
Proof.
  unfold py_max. destruct (Qlt_le_dec a b) as [Hlt|Hle].
  - symmetry. apply Q.max_r. by apply Qlt_le_weak.
  - symmetry. by apply Q.max_l.
Qed.

Lemma py_max_lower a b : (a <= py_max a b)%Q.
Proof.
  unfold py_max. destruct (Qlt_le_dec a b) as [Hlt|Hle].
  - by apply Qlt_le_weak.
  - apply Qle_refl.
Qed.

Lemma decay_confidences_lookup now t m id :
  incidents (graph (decay_confidences now t m)) !! id =
  decay_incident t <$> incidents (graph m) !! id.
Proof. unfold decay_confidences. simpl. apply lookup_fmap. Qed.

(** C5 (amended). For [t ≥ 0], [decay_confidences t] sets the confidence of
    each active incident to [max(0.1, confidence − decay_rate × t)], which
    is at least 0.1, and leaves every other incident as it is; the new
    confidence does not exceed the old one when the old one is at least 0.1
    and the decay rate is not negative, and a confidence that goes down
    never goes below 0.1. *)
Theorem decay_confidences_spec now (t : Q) m id i :
  (0 <= t)%Q →
  incidents (graph m) !! id = Some i →
  ∃ i', incidents (graph (decay_confidences now t m)) !! id = Some i'
    ∧ (inc_status i = inc_active →
         (inc_confidence i' == Qmax (1 # 10) (inc_confidence i - decay_rate i * t))%Q
         ∧ (1 # 10 <= inc_confidence i')%Q
         ∧ inc_status i' = inc_active)
    ∧ (inc_status i ≠ inc_active → i' = i)
    ∧ ((0 <= decay_rate i)%Q → (1 # 10 <= inc_confidence i)%Q →
         (inc_confidence i' <= inc_confidence i)%Q)
    ∧ ((inc_confidence i' < inc_confidence i)%Q → (1 # 10 <= inc_confidence i')%Q).
Proof.
  intros Ht Hi. rewrite decay_confidences_lookup, Hi. simpl.
  eexists. split; [reflexivity|]. unfold decay_incident.
  destruct (decide (inc_status i = inc_active)) as [Hact|Hna]; simpl.
  - repeat split.
    + apply py_max_is_max.
    + apply py_max_lower.
    + done.
    + done.
    + intros Hd Hc. unfold py_max.
      destruct (Qlt_le_dec _ _) as [Hlt|Hle]; [|done].
      assert (0 <= decay_rate i * t)%Q by (by apply Qmult_le_0_compat).
      lra.
    + intros _. apply py_max_lower.
  - repeat split; try done.
    + intros _ _. apply Qle_refl.
    + intros Hlt. by apply Qlt_irrefl in Hlt.
Qed.

(** C5 as stated fails: the aftershock decay ([t = 5]) raises the
    confidence of [inc_faint] from 0.05 to 0.1, and that of [inc_growing],
    whose decay rate is negative, from 0.5 to 0.55. *)
Lemma decay_confidences_counterexample :
  (∃ i', incidents (graph (decay_confidences 1000 5 graph_3)) !! "inc_y" = Some i'
         ∧ inc_confidence i' = (1 # 10)%Q
         ∧ ¬ (inc_confidence i' <= inc_confidence inc_faint)%Q) ∧
  (∃ i', incidents (graph (decay_confidences 1000 5 graph_9)) !! "inc_g" = Some i'
         ∧ (inc_confidence i' == 11 # 20)%Q
         ∧ ¬ (inc_confidence i' <= inc_confidence inc_growing)%Q).
Proof.
  split.
  - eexists. split; [vm_compute; reflexivity|]. simpl.
    split; [reflexivity|]. intros H. vm_compute in H. by apply H.
  - eexists. split; [vm_compute; reflexivity|]. simpl.
    split; [reflexivity|]. intros H. vm_compute in H. by apply H.
Qed.

Lemma decay_confidences_spec_witness :
  ∃ i', incidents (graph (decay_confidences 1000 5 graph_1)) !! "inc_x" = Some i'
        ∧ (inc_confidence i' <= 17 # 20)%Q.
Proof.
  destruct (decay_confidences_spec 1000 5 graph_1 "inc_x" (inc_x inc_active ["AMB-7"]))
    as (i' & Hi' & _ & _ & Hle & _).
  - by vm_compute.
  - vm_compute. reflexivity.
  - exists i'. split; [exact Hi'|]. apply Hle; by vm_compute.
Defined.

(** ** [resolve_contradiction] *)

(** C6 (amended). Resolving an alert that is already resolved keeps it
    resolved and keeps every field except [resolution], [resolved_by] and
    [resolved_at], which take the values of the new call; no other alert
    changes. *)
Theorem resolve_contradiction_again now id res who m a :
  contradictions (graph m) !! id = Some a →
  resolved a = true →
  let r := resolve_contradiction now id res who m in
  ∃ a', r.1 = Some a'
    ∧ contradictions (graph r.2) !! id = Some a'
    ∧ same_alert_but_resolution a a'
    ∧ resolution a' = Some res
    ∧ resolved_by a' = Some who
    ∧ resolved_at a' = Some now
    ∧ ∀ id', id' ≠ id →
        contradictions (graph r.2) !! id' = contradictions (graph m) !! id'.
Proof.
  intros Ha Hres. unfold resolve_contradiction. rewrite Ha. cbn zeta. simpl.
  eexists. split; [reflexivity|]. rewrite lookup_insert_eq.
  split; [reflexivity|]. split.
  - unfold same_alert_but_resolution. simpl. by rewrite Hres.
  - repeat split. intros id' Hne. by rewrite lookup_insert_ne.
Qed.

(** C6 as stated fails: a second resolution of [alert_1] returns a record
    whose [resolution], [resolved_by] and [resolved_at] have changed. *)
Lemma resolve_contradiction_counterexample :
  resolved alert_1 = true ∧
  ∃ a', (resolve_contradiction 200 "alert_1" "trust_satellite" "supervisor" graph_4).1
          = Some a'
        ∧ resolution a' ≠ resolution alert_1
        ∧ resolved_by a' ≠ resolved_by alert_1
        ∧ resolved_at a' ≠ resolved_at alert_1.
Proof.
  split; [reflexivity|]. eexists. split; [vm_compute; reflexivity|].
  simpl. repeat split; discriminate.
Qed.

Lemma resolve_contradiction_again_witness :
  ∃ a', (resolve_contradiction 200 "alert_1" "trust_satellite" "supervisor" graph_4).1
          = Some a'
        ∧ resolution a' = Some "trust_satellite".
Proof.
  destruct (resolve_contradiction_again 200 "alert_1" "trust_satellite" "supervisor"
              graph_4 alert_1) as (a' & H1 & _ & _ & H2 & _).
  - vm_compute. reflexivity.
  - reflexivity.
  - exists a'. by split.
Defined.

(** ** [assign_resource_manual] then [unassign_resource] *)

Lemma list_remove_first_app x l :
  x ∉ l → list_remove_first x (l ++ [x]) = l.
Proof.
  induction l as [|y l IH]; intros Hnin; simpl.
  - by rewrite decide_True.
  - apply not_elem_of_cons in Hnin as [Hne Hnin].
    rewrite decide_False by done. by rewrite IH.
Qed.

(** C7 (amended). When the resource is available with no assigned incident,
    destination or ETA, is not yet listed by the incident, and the incident
    id is not the empty string, assigning it by hand and unassigning it
    gives back the same resources and incidents: only the [updated_at] of
    the resource and of the incident differ. *)
Theorem assign_unassign_restores now1 now2 rid iid m r i :
  resources (graph m) !! rid = Some r →
  incidents (graph m) !! iid = Some i →
  res_status r = res_available →
  assigned_incident r = None → destination r = None → eta_minutes r = None →
  rid ∉ assigned_resources i →
  iid ≠ "" →
  let m' := (unassign_resource now2 rid
               (assign_resource_manual now1 rid iid m).2).2 in
  resources (graph m') = <[rid := touch_resource now2 r]> (resources (graph m))
  ∧ incidents (graph m') = <[iid := touch_incident now1 i]> (incidents (graph m))
  ∧ contradictions (graph m') = contradictions (graph m)
  ∧ pending_actions (graph m') = pending_actions (graph m).
Proof.
  intros Hr Hi Hst Hai Hde Heta Hnin Hne.
  unfold assign_resource_manual. rewrite Hr, Hi. cbn zeta. simpl.
  unfold unassign_resource. simpl. rewrite lookup_insert_eq. cbn zeta. simpl.
  assert (Ht : truthy iid = true).
  { unfold truthy. destruct (String.eqb_spec iid ""); [contradiction | done]. }
  rewrite Ht, lookup_insert_eq. simpl.
  rewrite (decide_False (P := rid ∈ assigned_resources i)) by done. simpl.
  rewrite decide_True by (apply elem_of_app; right; apply elem_of_cons; by left).
  rewrite !insert_insert_eq. repeat split.
  - f_equal. unfold touch_resource, set_assignment. simpl.
    by rewrite Hst, Hai, Hde, Heta.
  - f_equal. unfold set_assigned_resources, touch_incident, set_response. simpl.
    by rewrite list_remove_first_app.
Qed.

(** C7 as stated fails on [graph_1], where AMB-7 is already on its way to
    [inc_x]: after the round trip AMB-7 is available with no destination and
    [inc_x] has lost it.  It fails on [graph_8] too, where AMB-7 is free: the
    incident stored under the empty id keeps AMB-7 in its list. *)
Lemma assign_unassign_counterexample :
  let m' := (unassign_resource 2000 "AMB-7"
               (assign_resource_manual 1000 "AMB-7" "inc_x" graph_1).2).2 in
  let m8 := (unassign_resource 2000 "AMB-7"
               (assign_resource_manual 1000 "AMB-7" "" graph_8).2).2 in
  (∃ r r' i i',
    resources (graph graph_1) !! "AMB-7" = Some r
    ∧ resources (graph m') !! "AMB-7" = Some r'
    ∧ incidents (graph graph_1) !! "inc_x" = Some i
    ∧ incidents (graph m') !! "inc_x" = Some i'
    ∧ res_status r ≠ res_status r'
    ∧ assigned_incident r ≠ assigned_incident r'
    ∧ destination r ≠ destination r'
    ∧ eta_minutes r ≠ eta_minutes r'
    ∧ assigned_resources i ≠ assigned_resources i') ∧
  (∃ i i',
    incidents (graph graph_8) !! "" = Some i
    ∧ incidents (graph m8) !! "" = Some i'
    ∧ assigned_resources i = [] ∧ assigned_resources i' = ["AMB-7"]).
Proof.
  split.
  - do 4 eexists.
    split; [vm_compute; reflexivity|]. split; [vm_compute; reflexivity|].
    split; [vm_compute; reflexivity|]. split; [vm_compute; reflexivity|].
    simpl. repeat split; discriminate.
  - do 2 eexists.
    split; [vm_compute; reflexivity|]. split; [vm_compute; reflexivity|].
    by split.
Qed.

Lemma assign_unassign_restores_witness :
  incidents (graph (unassign_resource 2000 "AMB-7"
                      (assign_resource_manual 1000 "AMB-7" "inc_x" graph_2).2).2)
  = <[ "inc_x" := touch_incident 1000 (inc_x inc_active []) ]> (incidents (graph graph_2)).
Proof.
  apply (assign_unassign_restores 1000 2000 "AMB-7" "inc_x" graph_2
           (amb7 res_available None None None) (inc_x inc_active [])).
  - vm_compute. reflexivity.
  - vm_compute. reflexivity.
  - reflexivity.
  - reflexivity.
  - reflexivity.
  - reflexivity.
  - simpl. apply not_elem_of_nil.
  - discriminate.
Defined.

(** ** [update_incident] and [update_resource] *)

Lemma apply_updates_fields class_attr updates (o : Reflect.pyobject) key :
  is_Some ((Reflect.apply_updates class_attr o updates).1 !! key) ↔ is_Some (o !! key).
Proof.
  revert o. induction updates as [|[k v] updates IH]; intros o; cbn [Reflect.apply_updates];
    [done|].
  unfold Reflect.hasattr, Reflect.setattr, Reflect.is_field. simpl.
  destruct (bool_decide (is_Some (o !! k))) eqn:Hk; simpl.
  - rewrite IH. apply bool_decide_eq_true in Hk.
    destruct (decide (k = key)) as [->|Hne];
      [by rewrite lookup_insert_eq | by rewrite lookup_insert_ne].
  - destruct (class_attr k); [done | apply IH].
Qed.

(** When every key is a field or no attribute at all, the loop runs to its
    end and leaves under each field the last value given for it. *)
Lemma apply_updates_lookup class_attr updates (o : Reflect.pyobject) :
  Reflect.plain_keys class_attr o updates →
  (Reflect.apply_updates class_attr o updates).2 = false
  ∧ ∀ key,
      (Reflect.apply_updates class_attr o updates).1 !! key =
      match o !! key with
      | Some old => Some (default old (Reflect.last_update key updates))
      | None => None
      end.
Proof.
  unfold Reflect.plain_keys. revert o.
  induction updates as [|[k v] updates IH]; intros o Hp;
    cbn [Reflect.apply_updates Reflect.last_update].
  - split; [done|]. intros key. simpl. by destruct (o !! key).
  - apply Forall_cons in Hp as [Hk Hp]. simpl in Hk.
    unfold Reflect.hasattr, Reflect.setattr, Reflect.is_field. simpl.
    destruct (o !! k) as [old_k|] eqn:Hok.
    + rewrite bool_decide_eq_true_2 by eauto. simpl.
      assert (Hp' : Forall (λ kv, is_Some (<[k := v]> o !! kv.1) ∨ class_attr kv.1 = false)
                      updates).
      { eapply Forall_impl; [exact Hp|]. intros kv [Hs | Hc]; [left | by right].
        destruct (decide (k = kv.1)) as [<-|Hne];
          [by rewrite lookup_insert_eq | by rewrite lookup_insert_ne]. }
      destruct (IH _ Hp') as [Hr Hl]. split; [done|]. intros key. rewrite Hl.
      destruct (decide (k = key)) as [->|Hne].
      * rewrite lookup_insert_eq, Hok. by destruct (Reflect.last_update key updates).
      * rewrite lookup_insert_ne by done. destruct (o !! key); [|done].
        by destruct (Reflect.last_update key updates).
    + rewrite bool_decide_eq_false_2 by (by intros [? ?]). simpl.
      destruct Hk as [[? ?] | ->]; [done|].
      destruct (IH _ Hp) as [Hr Hl]. split; [done|]. intros key. rewrite Hl.
      destruct (decide (k = key)) as [->|Hne].
      * by rewrite Hok.
      * destruct (o !! key); [|done]. by destruct (Reflect.last_update key updates).
Qed.

Lemma stamped_updated_from class_attr now updates (o : Reflect.pyobject) :
  Reflect.plain_keys class_attr o updates →
  Reflect.updated_from now updates o
    (<["updated_at" := Reflect.PDatetime now]> (Reflect.apply_updates class_attr o updates).1).
Proof.
  intros Hp. destruct (apply_updates_lookup class_attr updates o Hp) as [_ Hl].
  unfold Reflect.updated_from. split.
  - apply lookup_insert_eq.
  - intros key Hne. rewrite lookup_insert_ne by done. apply Hl.
Qed.

(** The frame of the two methods when no key of [updates] names an
    inherited attribute: on an id of the graph they return the node after
    applying the entries whose key is a field of the node and ignoring the
    others; besides [updated_at] of the node and [last_updated] of the graph
    nothing else changes.  On an id that is not in the graph they return
    [None] and change nothing, whatever the keys. *)
Lemma update_node_frame class_attr now id updates (m : Reflect.manager) :
  let g := Reflect.mgr_graph m in
  let ri := Reflect.update_incident class_attr now id updates m in
  let rr := Reflect.update_resource class_attr now id updates m in
  (∀ o, Reflect.incidents g !! id = Some o →
     Reflect.plain_keys class_attr o updates →
     ∃ o', ri.1 = Reflect.Returned (Some o')
       ∧ Reflect.incidents (Reflect.mgr_graph ri.2) !! id = Some o'
       ∧ Reflect.updated_from now updates o o'
       ∧ (∀ id', id' ≠ id →
            Reflect.incidents (Reflect.mgr_graph ri.2) !! id' = Reflect.incidents g !! id')
       ∧ Reflect.resources (Reflect.mgr_graph ri.2) = Reflect.resources g
       ∧ Reflect.last_updated (Reflect.mgr_graph ri.2) = now) ∧
  (Reflect.incidents g !! id = None → ri = (Reflect.Returned None, m)) ∧
  (∀ o, Reflect.resources g !! id = Some o →
     Reflect.plain_keys class_attr o updates →
     ∃ o', rr.1 = Reflect.Returned (Some o')
       ∧ Reflect.resources (Reflect.mgr_graph rr.2) !! id = Some o'
       ∧ Reflect.updated_from now updates o o'
       ∧ (∀ id', id' ≠ id →
            Reflect.resources (Reflect.mgr_graph rr.2) !! id' = Reflect.resources g !! id')
       ∧ Reflect.incidents (Reflect.mgr_graph rr.2) = Reflect.incidents g
       ∧ Reflect.last_updated (Reflect.mgr_graph rr.2) = now
       ∧ Reflect.audit_log rr.2 = Reflect.audit_log m) ∧
  (Reflect.resources g !! id = None → rr = (Reflect.Returned None, m)).
Proof.
  cbn zeta. unfold Reflect.update_incident, Reflect.update_resource.
  split; [|split; [|split]].
  - intros o Ho Hp. rewrite Ho.
    destruct (apply_updates_lookup class_attr updates o Hp) as [-> _]. simpl.
    eexists. split; [reflexivity|].
    rewrite lookup_insert_eq. split; [reflexivity|].
    split; [by apply stamped_updated_from|].
    split; [|done]. intros id' Hne. by rewrite lookup_insert_ne.
  - intros Ho. by rewrite Ho.
  - intros o Ho Hp. rewrite Ho.
    destruct (apply_updates_lookup class_attr updates o Hp) as [-> _]. simpl.
    eexists. split; [reflexivity|].
    rewrite lookup_insert_eq. split; [reflexivity|].
    split; [by apply stamped_updated_from|].
    split; [|done]. intros id' Hne. by rewrite lookup_insert_ne.
  - intros Ho. by rewrite Ho.
Qed.

(** The first key that names an inherited attribute stops the loop. *)
Lemma apply_updates_raises class_attr (o : Reflect.pyobject) before key value after :
  Reflect.plain_keys class_attr o before →
  o !! key = None →
  class_attr key = true →
  Reflect.apply_updates class_attr o (before ++ (key, value) :: after)
  = ((Reflect.apply_updates class_attr o before).1, true).
Proof.
  unfold Reflect.plain_keys. revert o.
  induction before as [|[k v] before IH]; intros o Hp Hnone Hc.
  - cbn [app Reflect.apply_updates].
    unfold Reflect.hasattr, Reflect.setattr, Reflect.is_field. simpl.
    rewrite Hnone, Hc. by rewrite bool_decide_eq_false_2 by (by intros [? ?]).
  - apply Forall_cons in Hp as [Hk Hp]. simpl in Hk.
    rewrite <- app_comm_cons. cbn [Reflect.apply_updates].
    unfold Reflect.hasattr, Reflect.setattr, Reflect.is_field. simpl.
    destruct (o !! k) as [old_k|] eqn:Hok.
    + rewrite bool_decide_eq_true_2 by eauto. simpl. apply IH; [|by
        rewrite lookup_insert_ne by (intros ->; congruence) | done].
      eapply Forall_impl; [exact Hp|]. intros kv [Hs | Hn]; [left | by right].
      destruct (decide (k = kv.1)) as [<-|Hne];
        [by rewrite lookup_insert_eq | by rewrite lookup_insert_ne].
    + rewrite bool_decide_eq_false_2 by (by intros [? ?]). simpl.
      destruct Hk as [[? ?] | ->]; [done|]. by apply IH.
Qed.

(** C10 (the code departs from the claim). An update of AMB-7 that names
    the method [model_dump] between the fields [status] and [personnel]:
    [hasattr] is true of the method, [setattr] raises on it, and the
    exception leaves [update_resource] with [status] already written,
    [personnel] not written, and neither [updated_at] nor [last_updated]
    stamped; [update_incident] on the incident ends the same way, without
    its audit event. *)
Theorem update_node_aborts_on_method (class_attr : string → bool) :
  class_attr "model_dump" = true →
  let rr := Reflect.update_resource class_attr 1000 "AMB-7" updates_6 manager_5 in
  let ri := Reflect.update_incident class_attr 1000 "inc_x" updates_6 manager_5 in
  rr.1 = Reflect.Raised
  ∧ (∃ o', Reflect.resources (Reflect.mgr_graph rr.2) !! "AMB-7" = Some o'
        ∧ o' !! "status" = Some (Reflect.PStr "returning")
        ∧ o' !! "personnel" = Some (Reflect.PInt 2)
        ∧ o' !! "updated_at" = Some (Reflect.PDatetime 0))
  ∧ Reflect.last_updated (Reflect.mgr_graph rr.2) = 0
  ∧ ri.1 = Reflect.Raised
  ∧ (∃ o', Reflect.incidents (Reflect.mgr_graph ri.2) !! "inc_x" = Some o'
        ∧ o' !! "status" = Some (Reflect.PStr "returning")
        ∧ o' !! "updated_at" = Some (Reflect.PDatetime 0))
  ∧ Reflect.last_updated (Reflect.mgr_graph ri.2) = 0
  ∧ Reflect.audit_log ri.2 = [].
Proof.
  intros Hc. cbn zeta.
  assert (Hr : ∀ o : Reflect.pyobject,
            is_Some (o !! "status") → o !! "model_dump" = None →
            Reflect.apply_updates class_attr o updates_6
            = (<["status" := Reflect.PStr "returning"]> o, true)).
  { intros o Hs Hn.
    change updates_6 with
      ([("status", Reflect.PStr "returning")]
       ++ ("model_dump", Reflect.PNone) :: [("personnel", Reflect.PInt 4)])%list.
    rewrite (apply_updates_raises class_attr o [("status", Reflect.PStr "returning")]
               "model_dump" Reflect.PNone [("personnel", Reflect.PInt 4)]); try done.
    - cbn [Reflect.apply_updates]. unfold Reflect.hasattr, Reflect.setattr, Reflect.is_field.
      simpl. by rewrite bool_decide_eq_true_2.
    - constructor; [by left | constructor]. }
  unfold Reflect.update_resource, Reflect.update_incident.
  assert (H1 : Reflect.resources (Reflect.mgr_graph manager_5) !! "AMB-7"
               = Some (Reflect.resource_dict (amb7 res_available None None None)))
    by (vm_compute; reflexivity).
  assert (H2 : Reflect.incidents (Reflect.mgr_graph manager_5) !! "inc_x"
               = Some (Reflect.incident_dict (inc_x inc_active [])))
    by (vm_compute; reflexivity).
  rewrite H1, H2.
  rewrite !Hr by (vm_compute; eauto).
  cbn [fst snd Reflect.mgr_graph Reflect.resources Reflect.incidents Reflect.last_updated
       Reflect.audit_log].
  split; [done|]. split.
  { eexists. split; [apply lookup_insert_eq|]. by vm_compute. }
  split; [done|]. split; [done|]. split.
  { eexists. split; [apply lookup_insert_eq|]. by vm_compute. }
  done.
Qed.

Lemma update_node_aborts_on_method_witness :
  (Reflect.update_resource has_model_dump 1000 "AMB-7" updates_6 manager_5).1
  = Reflect.Raised.
Proof.
  destruct (update_node_aborts_on_method has_model_dump) as (H & _).
  - reflexivity.
  - exact H.
Defined.

Example update_resource_plain_keys :
  ∃ o', (Reflect.update_resource has_model_dump 1000 "AMB-7" updates_5 manager_5).1
        = Reflect.Returned (Some o')
        ∧ o' !! "status" = Some (Reflect.PStr "returning")
        ∧ o' !! "crew" = None
        ∧ o' !! "unit_id" = Some (Reflect.PStr "AMB-7")
        ∧ o' !! "updated_at" = Some (Reflect.PDatetime 1000).
Proof. eexists. split; [vm_compute; reflexivity|]. by vm_compute. Qed.

Example update_incident_unknown_id :
  Reflect.update_incident has_model_dump 1000 "inc_z" updates_6 manager_5
  = (Reflect.Returned None, manager_5).
Proof. reflexivity. Qed.

Example update_incident_status :
  ∃ o', (Reflect.update_incident has_model_dump 1000 "inc_x"
           [("status", Reflect.PStr "contained")] manager_5).1
        = Reflect.Returned (Some o')
        ∧ o' !! "status" = Some (Reflect.PStr "contained")
        ∧ o' !! "updated_at" = Some (Reflect.PDatetime 1000)
        ∧ o' !! "urgency" = Some (Reflect.PStr "critical").
Proof. eexists. split; [vm_compute; reflexivity|]. by vm_compute. Qed.

(** ** The claim dictionary *)

Lemma claims_ref_app e sc k ref :
  claims_ref e (sc ++ [(k, ref)]) =
  match claims_ref e sc with
  | Some r => Some r
  | None => if decide (k = e) then Some ref else None
  end.
Proof.
  induction sc as [|[k' r'] sc IH]; simpl; [done|].
  destruct (decide (k' = e)); [done | apply IH].
Qed.

Lemma claims_ref_filter e e' sc :
  claims_ref e (filter (λ kv, kv.1 ≠ e') sc) =
  if decide (e = e') then None else claims_ref e sc.
Proof.
  induction sc as [|[k r] sc IH]; simpl.
  - by destruct (decide (e = e')).
  - rewrite filter_cons. simpl. destruct (decide (k ≠ e')) as [Hk|Hk]; simpl.
    + destruct (decide (k = e)) as [->|Hne].
      * by rewrite decide_False.
      * apply IH.
    + apply dec_stable in Hk as ->. rewrite IH.
      destruct (decide (e = e')) as [->|Hne]; [done|].
      by rewrite decide_False.
Qed.

Lemma has_claims_del e c : has_claims e (del_claims e c) = false.
Proof.
  unfold has_claims, del_claims. simpl. rewrite claims_ref_filter.
  rewrite decide_True by done. apply bool_decide_eq_false_2. by intros [? ?].
Qed.

Lemma append_claims_graph_manager e new c :
  graph_manager (append_claims e new c) = graph_manager c.
Proof. unfold append_claims. by destruct (claims_ref e (signal_claims c)). Qed.

Lemma append_claims_handled e new c :
  handled_contradictions (append_claims e new c) = handled_contradictions c.
Proof. unfold append_claims. by destruct (claims_ref e (signal_claims c)). Qed.

Lemma append_claims_detector_alerts e new c :
  detector_alerts (append_claims e new c) = detector_alerts c.
Proof. unfold append_claims. by destruct (claims_ref e (signal_claims c)). Qed.

(** After the push the entity is bound to a list object that ends with the
    pushed claims. *)
Lemma append_claims_ref e new c :
  refs_valid c →
  ∃ ref, claims_ref e (signal_claims (append_claims e new c)) = Some ref
    ∧ deref (append_claims e new c) ref =
      (match claims_ref e (signal_claims c) with
       | Some r => deref c r
       | None => []
       end ++ new)%list.
Proof.
  intros Hv. unfold append_claims.
  destruct (claims_ref e (signal_claims c)) as [r|] eqn:Hr; simpl.
  - exists r. split; [done|]. unfold deref at 1. simpl.
    rewrite list_lookup_insert_eq; [done | by eapply Hv].
  - exists (length (claim_store c)). rewrite claims_ref_app, Hr.
    rewrite decide_True by done. split; [done|].
    unfold deref. simpl. rewrite lookup_app_r by done.
    by rewrite Nat.sub_diag.
Qed.

(** ** [_inject_contradiction] *)

(** What an injection with at least two claims does, whatever the analyzer
    answers: one alert is stored under the drawn id, with severity high and
    the entity id derived from the name, over the accumulated claims; the
    entity becomes handled and loses its claim list.  The verdict is the
    analyzer's when it gives one, and the forced one only otherwise. *)
Lemma inject_contradiction_alert verify now sim_time id data c :
  refs_valid c →
  (2 ≤ length (inj_claims data))%nat →
  let c' := _inject_contradiction verify now sim_time id data c in
  let e := inject_entity data in
  ∃ a, contradictions (graph (graph_manager c')) !! id = Some a
    ∧ severity a = sev_high
    ∧ entity_id a = entity_id_of e
    ∧ entity_name a = e
    ∧ resolved a = false
    ∧ (∃ old, alert_claims a = (old ++ (stamp_claim sim_time <$> inj_claims data))%list)
    ∧ verdict a =
        default CONTRADICTION
          (verdict_map
             (default (default "CONTRADICTION" (inj_force_verdict data))
                (ver_verdict (verify e (alert_claims a)))))
    ∧ (∀ id', id' ≠ id →
         contradictions (graph (graph_manager c')) !! id' =
         contradictions (graph (graph_manager c)) !! id')
    ∧ e ∈ handled_contradictions c'
    ∧ has_claims e c' = false.
Proof.
  intros Hv Hlen. cbn zeta. unfold _inject_contradiction, inject_push.
  destruct (append_claims_ref (inject_entity data)
              (stamp_claim sim_time <$> inj_claims data) c Hv) as (ref & Href & Hd).
  set (c1 := append_claims _ _ c) in *.
  rewrite Href. rewrite bool_decide_eq_true_2.
  2:{ rewrite Hd, length_app, length_fmap. lia. }
  unfold inject_finish. rewrite Href.
  assert (Hg : graph_manager c1 = graph_manager c)
    by apply append_claims_graph_manager.
  eexists. split; [simpl; apply lookup_insert_eq|].
  simpl. repeat split.
  - rewrite Hd. eauto.
  - intros id' Hne. rewrite lookup_insert_ne by done. by rewrite Hg.
  - set_solver.
  - unfold has_claims. simpl. rewrite claims_ref_filter, decide_True by done.
    apply bool_decide_eq_false_2. by intros [? ?].
Qed.

(** C8 (the code departs from the claim). The bridge injection, whose
    [force_verdict] is "CONTRADICTION", run against an analyzer that answers
    "CONSISTENT": the alert is created with severity high, the derived
    entity id, the entity handled and its claim list deleted, but its
    verdict is the analyzer's [CONSISTENT], not the forced one. *)
Theorem inject_contradiction_keeps_analyzer_verdict :
  let c := _inject_contradiction (λ _ _, ver_consistent) 1000 32000000 "alert_9"
             bridge_inject (start_simulation (new_coordinator 0)) in
  inj_force_verdict bridge_inject = Some "CONTRADICTION" ∧
  ∃ a, contradictions (graph (graph_manager c)) !! "alert_9" = Some a
    ∧ verdict a = CONSISTENT
    ∧ severity a = sev_high
    ∧ entity_id a = "main_street_bridge"
    ∧ length (alert_claims a) = 2%nat
    ∧ "Main Street Bridge" ∈ handled_contradictions c
    ∧ has_claims "Main Street Bridge" c = false.
Proof.
  split; [reflexivity|].
  eexists. split; [vm_compute; reflexivity|].
  repeat split.
Qed.

(** ** The planning trigger *)

Lemma cooldown_elapsed_spec now c :
  cooldown_elapsed now c = true ↔
  match _last_planning_call c with
  | None => True
  | Some last => _planning_cooldown_seconds c * 1000000 ≤ now - last
  end.
Proof.
  unfold cooldown_elapsed. destruct (_last_planning_call c) as [last|]; [|done].
  rewrite Qle_bool_iff. unfold Qle, total_seconds, inject_Z. simpl. lia.
Qed.

Lemma maybe_generate_invoked now stamp c c' :
  _maybe_generate_recommendations now stamp c = (c', true) →
  cooldown_elapsed now c = true
  ∧ critical_incidents (graph_manager c) ≠ []
  ∧ (pending_count (graph_manager c) < 3)%nat
  ∧ get_available_resources (graph_manager c) ≠ []
  ∧ c' = set_last_planning_call stamp c.
Proof.
  unfold _maybe_generate_recommendations.
  destruct (cooldown_elapsed now c); simpl; [|intros [= ]].
  case_bool_decide; [intros [= ]|].
  case_bool_decide; [intros [= ]|].
  case_bool_decide; [intros [= ]|].
  intros [= <-]. repeat split; [done | lia | done].
Qed.

Lemma maybe_generate_not_invoked now stamp c c' :
  _maybe_generate_recommendations now stamp c = (c', false) → c' = c.
Proof.
  unfold _maybe_generate_recommendations.
  destruct (cooldown_elapsed now c); simpl; [|by intros [= ]].
  repeat (case_bool_decide; [by intros [= ]|]).
  intros [= ].
Qed.

Lemma critical_incidents_elem m :
  critical_incidents m ≠ [] →
  ∃ id i, incidents (graph m) !! id = Some i
    ∧ (inc_urgency i = CRITICAL ∨ inc_urgency i = HIGH)
    ∧ inc_status i = inc_active
    ∧ assigned_resources i = [].
Proof.
  unfold critical_incidents. intros Hne.
  destruct (filter _ _) as [|i l] eqn:Hf; [done|].
  assert (Hi : i ∈ i :: l) by (apply elem_of_cons; by left).
  rewrite <- Hf in Hi. apply list_elem_of_filter in Hi as [(Hu & Hs & Hl) Hi].
  apply list_elem_of_fmap in Hi as ([id i'] & -> & Hi).
  apply elem_of_map_to_list in Hi.
  exists id, i'. repeat split; try done. by apply length_zero_iff_nil.
Qed.

Lemma get_available_resources_elem m :
  get_available_resources m ≠ [] →
  ∃ id r, resources (graph m) !! id = Some r ∧ res_status r = res_available.
Proof.
  unfold get_available_resources. intros Hne.
  destruct (filter _ _) as [|r l] eqn:Hf; [done|].
  assert (Hr : r ∈ r :: l) by (apply elem_of_cons; by left).
  rewrite <- Hf in Hr. apply list_elem_of_filter in Hr as [Hs Hr].
  apply list_elem_of_fmap in Hr as ([id r'] & -> & Hr).
  apply elem_of_map_to_list in Hr. by exists id, r'.
Qed.

Lemma planning_run_well_spaced calls c since :
  (∀ last, _last_planning_call c = Some last → last ≤ since) →
  clock_monotone since calls →
  well_spaced (_planning_cooldown_seconds c * 1000000) (_last_planning_call c)
    (planning_run calls c).
Proof.
  revert c since.
  induction calls as [|[[now stamp] m] calls IH]; intros c since Hlast Hmono; [done|].
  destruct Hmono as (Hsince & Hnow & Hmono). cbn [planning_run].
  destruct (_maybe_generate_recommendations now stamp (set_graph_manager m c))
    as [c' invoked] eqn:Hcall.
  destruct invoked; simpl.
  - apply maybe_generate_invoked in Hcall as (Hcd & _ & _ & _ & ->).
    apply cooldown_elapsed_spec in Hcd. simpl in Hcd. split.
    + destruct (_last_planning_call c) as [last|]; [lia | done].
    + apply (IH (set_last_planning_call stamp (set_graph_manager m c)) stamp);
        [|done]. simpl. intros last [= <-]. lia.
  - apply maybe_generate_not_invoked in Hcall as ->.
    apply (IH (set_graph_manager m c) stamp); [|done].
    simpl. intros last Hl. specialize (Hlast _ Hl). lia.
Qed.

Lemma well_spaced_after gap p l t :
  0 ≤ gap → well_spaced gap (Some p) l → t ∈ l → p + gap ≤ t.
Proof.
  intros Hgap. revert p. induction l as [|x l IH]; intros p Hws Hin.
  - by apply elem_of_nil in Hin.
  - destruct Hws as [Hx Hws]. apply elem_of_cons in Hin as [->|Hin]; [done|].
    specialize (IH _ Hws Hin). lia.
Qed.

Lemma in_window_cons from width t l :
  in_window from width (t :: l) =
  if decide (from ≤ t < from + width) then t :: in_window from width l
  else in_window from width l.
Proof. unfold in_window. by rewrite filter_cons. Qed.

Lemma in_window_none from width l :
  (∀ t, t ∈ l → ¬ (from ≤ t < from + width)) → in_window from width l = [].
Proof.
  intros H. apply elem_of_nil_inv. unfold in_window.
  intros t [Ht Hin]%list_elem_of_filter. by apply (H t).
Qed.

Lemma well_spaced_window gap prev l from width :
  well_spaced gap prev l → width < gap →
  (length (in_window from width l) ≤ 1)%nat.
Proof.
  intros Hws Hw.
  destruct (decide (0 ≤ gap)) as [Hgap|Hgap].
  - revert prev Hws. induction l as [|t l IH]; intros prev Hws; [simpl; lia|].
    destruct Hws as [_ Hws]. rewrite in_window_cons.
    destruct (decide (from ≤ t < from + width)) as [Ht|Ht]; [|by eapply IH].
    rewrite (in_window_none from width l); [simpl; lia|].
    intros t' Hin Ht'.
    pose proof (well_spaced_after _ _ _ _ Hgap Hws Hin). lia.
  - rewrite (in_window_none from width l); [simpl; lia|].
    intros t' _ Ht'. lia.
Qed.

(** C4. A call of the trigger reaches the planning analyzer only if some
    active incident of urgency critical or high has no assigned resource,
    some resource is available, fewer than three actions are pending, and
    the clock was never stamped or was stamped at least the cooldown (20 s
    for a new coordinator) before; the state in which the analyzer is called
    already carries the new stamp.  Hence, in any run whose clock does not
    go backwards, a window shorter than the cooldown holds at most one call
    of the analyzer. *)
Theorem planning_trigger_cooldown :
  _planning_cooldown_seconds (new_coordinator 0) = 20 ∧
  (∀ now stamp c c',
     _maybe_generate_recommendations now stamp c = (c', true) →
     (∃ id i, incidents (graph (graph_manager c)) !! id = Some i
        ∧ (inc_urgency i = CRITICAL ∨ inc_urgency i = HIGH)
        ∧ inc_status i = inc_active ∧ assigned_resources i = [])
     ∧ (∃ id r, resources (graph (graph_manager c)) !! id = Some r
          ∧ res_status r = res_available)
     ∧ (pending_count (graph_manager c) < 3)%nat
     ∧ match _last_planning_call c with
       | None => True
       | Some last => _planning_cooldown_seconds c * 1000000 ≤ now - last
       end
     ∧ _last_planning_call c' = Some stamp) ∧
  (∀ calls c since from width,
     (∀ last, _last_planning_call c = Some last → last ≤ since) →
     clock_monotone since calls →
     width < _planning_cooldown_seconds c * 1000000 →
     (length (in_window from width (planning_run calls c)) ≤ 1)%nat).
Proof.
  split; [reflexivity|]. split.
  - intros now stamp c c' Hcall.
    apply maybe_generate_invoked in Hcall as (Hcd & Hci & Hp & Hav & ->).
    split; [by apply critical_incidents_elem|].
    split; [by apply get_available_resources_elem|].
    split; [done|]. split; [by apply cooldown_elapsed_spec | done].
  - intros calls c since from width Hlast Hmono Hw.
    eapply well_spaced_window; [|exact Hw].
    by eapply planning_run_well_spaced.
Qed.

Lemma planning_trigger_cooldown_witness :
  planning_run calls_5 (new_coordinator 0) = [10]
  ∧ (length (in_window 0%Z 2000000%Z (planning_run calls_5 (new_coordinator 0%Z))) ≤ 1)%nat.
Proof.
  split; [vm_compute; reflexivity|].
  apply (proj2 (proj2 planning_trigger_cooldown) calls_5 (new_coordinator 0) 0
           0 2000000).
  - intros last H. discriminate H.
  - simpl. lia.
  - simpl. lia.
Defined.

(** ** The contradiction detector *)

Lemma same_detector_view_inv c c' :
  same_detector_view c c' → detector_inv c → detector_inv c'.
Proof.
  intros (Hc & Hh & Hd). unfold detector_inv. cbn zeta. by rewrite Hc, Hh, Hd.
Qed.

Lemma accumulate_claim_view now signal_id source_type c claim_data :
  same_detector_view c (accumulate_claim now signal_id source_type c claim_data).
Proof.
  unfold accumulate_claim, same_detector_view.
  destruct (truthy (cd_name claim_data)); [|done].
  destruct (decide (cd_name claim_data ∈ handled_contradictions c)); [done|].
  by rewrite append_claims_graph_manager, append_claims_handled,
    append_claims_detector_alerts.
Qed.

Lemma update_graph_text_view now signal_id source_type claims c :
  same_detector_view c (update_graph_text now signal_id source_type claims c).
Proof.
  unfold update_graph_text. destruct (simulation_running c); [done|].
  revert c. induction claims as [|cd claims IH]; intros c; [done|].
  cbn [foldl].
  destruct (accumulate_claim_view now signal_id source_type c cd) as (H1 & H2 & H3).
  destruct (IH (accumulate_claim now signal_id source_type c cd)) as (H4 & H5 & H6).
  unfold same_detector_view. by rewrite H4, H5, H6.
Qed.

(** A claim about a handled entity is dropped. *)
Lemma accumulate_claim_handled now signal_id source_type c claim_data :
  cd_name claim_data ∈ handled_contradictions c →
  accumulate_claim now signal_id source_type c claim_data = c.
Proof.
  intros Hin. unfold accumulate_claim.
  destruct (truthy (cd_name claim_data)); [|done]. by rewrite decide_True.
Qed.

Lemma detector_alert_entity_name now id e claims ver a :
  detector_alert now id e claims ver = Some a →
  alert_id a = id ∧ entity_name a = e ∧ resolved a = false.
Proof.
  unfold detector_alert. destruct (Severity_of_value _); [|done].
  by intros [= <-].
Qed.

(** What the statements after the [await] do to the alerts: nothing, or one
    alert for [e] under [id], which then is handled and has no claim list. *)
Lemma detector_resume_cases now id e ref ver c :
  let r := detector_resume now id e ref ver c in
  (r.2 = false ∧ same_detector_view c r.1) ∨
  (r.2 = true ∧ ∃ a, entity_name a = e ∧ resolved a = false
     ∧ contradictions (graph (graph_manager r.1)) =
         <[id := a]> (contradictions (graph (graph_manager c)))
     ∧ handled_contradictions r.1 = {[e]} ∪ handled_contradictions c
     ∧ detector_alerts r.1 = {[id]} ∪ detector_alerts c
     ∧ has_claims e r.1 = false).
Proof.
  cbn zeta. unfold detector_resume. destruct (adverse ver); [|by left].
  destruct (detector_alert now id e (deref c ref) ver) as [a|] eqn:Ha.
  - right. split; [done|]. exists a.
    apply detector_alert_entity_name in Ha as (Hid & Hn & Hr).
    repeat split; try done.
    + simpl. by rewrite Hid.
    + unfold has_claims. simpl. rewrite claims_ref_filter, decide_True by done.
      apply bool_decide_eq_false_2. by intros [? ?].
  - by left.
Qed.

Lemma detector_resume_inv now id e ref ver c :
  e ∉ handled_contradictions c →
  detector_inv c → detector_inv (detector_resume now id e ref ver c).1.
Proof.
  intros Hnew Hinv.
  destruct (detector_resume_cases now id e ref ver c)
    as [[_ Hv] | [_ (a & Hn & _ & Hc & Hh & Hd & _)]].
  { by eapply same_detector_view_inv. }
  destruct Hinv as [Hhandled Huniq].
  assert (Hold : ∀ id' a', id' ∈ detector_alerts c →
            contradictions (graph (graph_manager c)) !! id' = Some a' →
            entity_name a' ≠ e).
  { intros id' a' Hin Hl He. apply Hnew. rewrite <- He. by eapply Hhandled. }
  unfold detector_inv. cbn zeta. rewrite Hc, Hh, Hd. split.
  - intros id0 a0 Hin Hl. destruct (decide (id0 = id)) as [->|Hne].
    + rewrite lookup_insert_eq in Hl. injection Hl as <-.
      apply elem_of_union_l, elem_of_singleton. exact Hn.
    + rewrite lookup_insert_ne in Hl by done.
      apply elem_of_union in Hin as [Hin|Hin]; [set_solver|].
      apply elem_of_union_r. by eapply Hhandled.
  - intros id1 id2 a1 a2 Hin1 Hin2 Hl1 Hl2 He.
    destruct (decide (id1 = id)) as [->|Hne1], (decide (id2 = id)) as [->|Hne2];
      [done| | |].
    + rewrite lookup_insert_eq in Hl1. injection Hl1 as <-.
      rewrite lookup_insert_ne in Hl2 by done.
      apply elem_of_union in Hin2 as [Hin2|Hin2]; [set_solver|].
      exfalso. eapply Hold; [exact Hin2 | exact Hl2 | congruence].
    + rewrite lookup_insert_eq in Hl2. injection Hl2 as <-.
      rewrite lookup_insert_ne in Hl1 by done.
      apply elem_of_union in Hin1 as [Hin1|Hin1]; [set_solver|].
      exfalso. eapply Hold; [exact Hin1 | exact Hl1 | congruence].
    + rewrite lookup_insert_ne in Hl1, Hl2 by done.
      apply elem_of_union in Hin1 as [Hin1|Hin1]; [set_solver|].
      apply elem_of_union in Hin2 as [Hin2|Hin2]; [set_solver|].
      by eapply Huniq.
Qed.

Lemma detector_guard_not_handled c e ref :
  detector_guard c e ref = true → e ∉ handled_contradictions c.
Proof.
  unfold detector_guard. intros H.
  apply andb_true_iff in H as [H _]. apply andb_true_iff in H as [_ H].
  apply negb_true_iff in H. by apply bool_decide_eq_false in H.
Qed.

Lemma check_loop_inv verify now id snapshot c :
  detector_inv c → detector_inv (check_loop verify now id snapshot c).
Proof.
  revert c. induction snapshot as [|[e ref] rest IH]; intros c Hinv; [done|].
  cbn [check_loop]. destruct (detector_guard c e ref) eqn:Hg; [|by apply IH].
  apply detector_guard_not_handled in Hg.
  pose proof (detector_resume_inv now id e ref (verify e (deref c ref)) c Hg Hinv).
  destruct (detector_resume now id e ref (verify e (deref c ref)) c) as [c' stop].
  simpl in *. destruct stop; [done | by apply IH].
Qed.

(** One run of the detector stores at most one alert. *)
Lemma check_loop_at_most_one verify now id snapshot c :
  let alerts' := contradictions (graph (graph_manager (check_loop verify now id snapshot c))) in
  alerts' = contradictions (graph (graph_manager c))
  ∨ ∃ a, alerts' = <[id := a]> (contradictions (graph (graph_manager c))).
Proof.
  cbn zeta. revert c. induction snapshot as [|[e ref] rest IH]; intros c; [by left|].
  cbn [check_loop]. destruct (detector_guard c e ref); [|apply IH].
  destruct (detector_resume_cases now id e ref (verify e (deref c ref)) c)
    as [[Hb (Hc & _)] | [Hb (a & _ & _ & Hc & _)]]; rewrite Hb.
  - rewrite <- Hc. apply IH.
  - right. by exists a.
Qed.

Lemma inject_contradiction_inv verify now sim_time id data c :
  detector_inv c → detector_inv (_inject_contradiction verify now sim_time id data c).
Proof.
  intros Hinv. unfold _inject_contradiction, inject_push.
  set (c1 := append_claims _ _ c).
  assert (Hinv1 : detector_inv c1).
  { eapply same_detector_view_inv; [|exact Hinv]. unfold c1, same_detector_view.
    by rewrite append_claims_graph_manager, append_claims_handled,
      append_claims_detector_alerts. }
  clearbody c1. clear Hinv c.
  destruct (claims_ref (inject_entity data) (signal_claims c1)) as [ref|] eqn:Href;
    [|done].
  case_bool_decide; [|done].
  unfold inject_finish. rewrite Href.
  destruct Hinv1 as [Hhandled Huniq].
  unfold detector_inv. simpl. split.
  - intros id0 a0 [Hin Hne]%elem_of_difference Hl.
    rewrite lookup_insert_ne in Hl by set_solver.
    apply elem_of_union_r. by eapply Hhandled.
  - intros id1 id2 a1 a2 [Hin1 Hne1]%elem_of_difference
      [Hin2 Hne2]%elem_of_difference Hl1 Hl2 He.
    rewrite lookup_insert_ne in Hl1 by set_solver.
    rewrite lookup_insert_ne in Hl2 by set_solver.
    by eapply Huniq.
Qed.

Lemma resolve_contradiction_inv now id res who c :
  detector_inv c →
  detector_inv (on_graph (λ m, (resolve_contradiction now id res who m).2) c).
Proof.
  intros [Hhandled Huniq]. unfold on_graph, resolve_contradiction.
  destruct (contradictions (graph (graph_manager c)) !! id) as [a|] eqn:Ha;
    [|by split].
  assert (Hname : ∀ id0 a0,
            <[id := set_resolution res who now a]>
              (contradictions (graph (graph_manager c))) !! id0 = Some a0 →
            ∃ b, contradictions (graph (graph_manager c)) !! id0 = Some b
                 ∧ entity_name b = entity_name a0).
  { intros id0 a0 Hl. destruct (decide (id0 = id)) as [->|Hne].
    - rewrite lookup_insert_eq in Hl. injection Hl as <-. by exists a.
    - rewrite lookup_insert_ne in Hl by done. by exists a0. }
  unfold detector_inv. simpl. split.
  - intros id0 a0 Hin Hl. apply Hname in Hl as (b & Hb & <-). by eapply Hhandled.
  - intros id1 id2 a1 a2 Hin1 Hin2 Hl1 Hl2 He.
    apply Hname in Hl1 as (b1 & Hb1 & He1). apply Hname in Hl2 as (b2 & Hb2 & He2).
    eapply Huniq; [done | done | exact Hb1 | exact Hb2 | congruence].
Qed.

Lemma coordinator_step_inv c c' :
  coordinator_step c c' → detector_inv c → detector_inv c'.
Proof.
  intros Hstep Hinv. destruct Hstep.
  - eapply same_detector_view_inv; [apply update_graph_text_view | done].
  - unfold process_incident_signal.
    assert (Hi : detector_inv (update_graph_incident now incident c)) by done.
    destruct (simulation_running _); [done|]. by apply check_loop_inv.
  - by apply inject_contradiction_inv.
  - by apply resolve_contradiction_inv.
  - eapply same_detector_view_inv; [|exact Hinv].
    unfold same_detector_view, on_graph. simpl. by rewrite H.
  - unfold _maybe_generate_recommendations.
    repeat (destruct (_ : bool); [done|]). done.
  - done.
  - split; simpl; intros; set_solver.
Qed.

Lemma reachable_atomically_inv c : reachable_atomically c → detector_inv c.
Proof.
  intros [t0 Hr].
  assert (H0 : detector_inv (new_coordinator t0)) by (split; simpl; intros; set_solver).
  revert H0. induction Hr as [|c1 c2 c3 Hstep _ IH]; [done|].
  intros H1. apply IH. by eapply coordinator_step_inv.
Qed.

(** All elements of a duplicate-free list that are pairwise equal: at most
    one element. *)
Lemma NoDup_all_equal_length {A} (l : list A) :
  NoDup l → (∀ x y, x ∈ l → y ∈ l → x = y) → (length l ≤ 1)%nat.
Proof.
  intros Hnd Heq. destruct l as [|x [|y l]]; simpl; [lia | lia |].
  exfalso. apply NoDup_cons in Hnd as [Hx _]. apply Hx.
  rewrite (Heq x y); [apply elem_of_cons; by left | apply elem_of_cons; by left |].
  apply elem_of_cons; right. apply elem_of_cons; by left.
Qed.

Lemma detector_inv_at_most_one entity c :
  detector_inv c → (length (unresolved_detector_alerts entity c) ≤ 1)%nat.
Proof.
  intros [_ Huniq]. unfold unresolved_detector_alerts.
  apply NoDup_all_equal_length.
  - apply NoDup_filter, NoDup_map_to_list.
  - intros [id1 a1] [id2 a2] [(Hd1 & He1 & _) Hl1]%list_elem_of_filter
      [(Hd2 & He2 & _) Hl2]%list_elem_of_filter.
    apply elem_of_map_to_list in Hl1, Hl2. simpl in *.
    assert (id1 = id2) as -> by (eapply Huniq; [done | done | done | done | congruence]).
    congruence.
Qed.

(** When the operations of the coordinator run one after the other, every
    reachable state holds at most one unresolved detector alert per entity
    name. *)
Lemma detector_at_most_one_atomically entity c :
  reachable_atomically c →
  (length (unresolved_detector_alerts entity c) ≤ 1)%nat.
Proof. intros Hr. by apply detector_inv_at_most_one, reachable_atomically_inv. Qed.

(** *** Two signals in flight *)

(** C2 (the code departs from the claim). Two signals whose detector runs
    overlap: each run passes the three tests on the bridge before the other
    has marked it handled, so once both analyzer calls have returned the
    graph holds two unresolved detector alerts for the same entity name. *)
Theorem detector_overlap_two_alerts :
  signal_claims race_A_waiting = [(bridge, 0%nat)]
  ∧ detector_guard race_A_waiting bridge 0 = true
  ∧ signal_claims race_B_waiting = [(bridge, 0%nat)]
  ∧ detector_guard race_B_waiting bridge 0 = true
  ∧ length (unresolved_detector_alerts bridge race_B_done) = 2%nat
  ∧ ∃ a b,
      contradictions (graph (graph_manager race_B_done)) !! "alert_a" = Some a
      ∧ contradictions (graph (graph_manager race_B_done)) !! "alert_b" = Some b
      ∧ entity_name a = bridge ∧ entity_name b = bridge
      ∧ resolved a = false ∧ resolved b = false.
Proof.
  split; [reflexivity|]. split; [by vm_compute|].
  split; [reflexivity|]. split; [by vm_compute|].
  split; [by vm_compute|].
  do 2 eexists. split; [vm_compute; reflexivity|].
  split; [vm_compute; reflexivity|]. done.
Qed.

(** The same two signals processed one after the other leave one alert. *)
Example detector_in_sequence_one_alert :
  length (unresolved_detector_alerts bridge
            (process_incident_signal fallback_verify 6000 "alert_b"
               (inc_of_signal "s4" 4000)
               (process_incident_signal fallback_verify 5000 "alert_a"
                  (inc_of_signal "s3" 3000) race_start))) = 1%nat.
Proof. by vm_compute. Qed.

(** ** The literal scenarios of the specification *)

(** "Approve dispatches atomically." *)
Example scenario_approve :
  let m' := (approve_action 1000 "A" "operator" graph_A).2 in
  (inc_status <$> incidents (graph m') !! "inc_x") = Some inc_responding
  ∧ (assigned_resources <$> incidents (graph m') !! "inc_x")
    = Some ["AMB-7"; "AMB-12"; "AMB-15"]
  ∧ Forall (λ rid,
       ((λ r, (res_status r, assigned_incident r, eta_minutes r))
          <$> resources (graph m') !! rid)
       = Some (res_dispatched, Some "inc_x", Some 8))
      ["AMB-7"; "AMB-12"; "AMB-15"]
  ∧ (res_status <$> resources (graph m') !! "AMB-3") = Some res_available.
Proof.
  split; [by vm_compute|]. split; [by vm_compute|]. split; [|by vm_compute].
  repeat constructor; by vm_compute.
Qed.

(** "Contradiction injection", with the analyzer's fallback answer. *)
Example scenario_inject :
  let c := _inject_contradiction fallback_verify 1000 32000000 "alert_9"
             bridge_inject (start_simulation (new_coordinator 0)) in
  ((λ a, (entity_id a, verdict a, severity a))
     <$> contradictions (graph (graph_manager c)) !! "alert_9")
  = Some ("main_street_bridge", CONTRADICTION, sev_high)
  ∧ size (contradictions (graph (graph_manager c))) = 1%nat
  ∧ bridge ∈ handled_contradictions c
  ∧ signal_claims c = [].
Proof.
  split; [by vm_compute|]. split; [by vm_compute|]. split; [|by vm_compute].
  apply elem_of_union_l, elem_of_singleton. reflexivity.
Qed.

(** "Cooldown gate": of five calls within two seconds one reaches the
    analyzer. *)
Example scenario_cooldown :
  planning_run calls_5 (new_coordinator 0) = [10].
Proof. by vm_compute. Qed.

(** "Aftershock decay"; the confidences are compared as rationals. *)
Example scenario_decay :
  let m1 := decay_confidences 1000 5 graph_D in
  let m2 := decay_confidences 2000 1000 m1 in
  let confidence_is (m : SituationGraphManager) (id : string) (q : Q) :=
    (λ i, Qeq_bool (inc_confidence i) q) <$> incidents (graph m) !! id = Some true in
  confidence_is m1 "inc_x" (4 # 5)%Q ∧ confidence_is m1 "inc_s3" (4 # 5)%Q
  ∧ confidence_is m2 "inc_x" (1 # 10)%Q ∧ confidence_is m2 "inc_s3" (1 # 10)%Q.
Proof. repeat split; by vm_compute. Qed.

(* ===================================================================== *)
(** * Further properties of the graph manager *)
(* ===================================================================== *)

(** ** Frames of [reject_action] and [approve_action] *)

(** X1. [reject_action] on an id of the pending-actions map returns the
    action with status rejected and the decision stamps, and touches no
    resource, no incident, no alert and no other action; on any other id it
    returns [None] and changes nothing. *)
Theorem reject_action_frame now id reason who m :
  let r := reject_action now id reason who m in
  resources (graph r.2) = resources (graph m)
  ∧ incidents (graph r.2) = incidents (graph m)
  ∧ contradictions (graph r.2) = contradictions (graph m)
  ∧ (∀ id', id' ≠ id →
       pending_actions (graph r.2) !! id' = pending_actions (graph m) !! id')
  ∧ match pending_actions (graph m) !! id with
    | None => r = (None, m)
    | Some a =>
        ∃ a', r.1 = Some a' ∧ pending_actions (graph r.2) !! id = Some a'
          ∧ act_status a' = act_rejected
          ∧ decided_at a' = Some now ∧ decided_by a' = Some who
          ∧ resources_to_allocate a' = resources_to_allocate a
          ∧ target_incident_id a' = target_incident_id a
    end.
Proof.
  cbn zeta. unfold reject_action.
  destruct (pending_actions (graph m) !! id) as [a|] eqn:Ha; simpl.
  - repeat split; try done.
    + intros id' Hne. by rewrite lookup_insert_ne.
    + eexists. split; [reflexivity|]. by rewrite lookup_insert_eq.
  - done.
Qed.

Lemma respond_incident_other now a (incs : gmap string IncidentNode) iid :
  target_incident_id a ≠ Some iid →
  respond_incident now a incs !! iid = incs !! iid.
Proof.
  intros Hne. unfold respond_incident.
  destruct (target_incident_id a) as [tid|]; [|done].
  destruct (truthy tid); [|done].
  destruct (incs !! tid) eqn:Ht; [|done].
  rewrite lookup_insert_ne; [done | congruence].
Qed.

Lemma respond_incident_dom now a (incs : gmap string IncidentNode) iid :
  is_Some (respond_incident now a incs !! iid) ↔ is_Some (incs !! iid).
Proof.
  unfold respond_incident.
  destruct (target_incident_id a) as [tid|]; [|done].
  destruct (truthy tid); [|done].
  destruct (incs !! tid) eqn:Ht; [|done].
  destruct (decide (tid = iid)) as [->|Hne].
  - rewrite lookup_insert_eq, Ht. split; eauto.
  - by rewrite lookup_insert_ne.
Qed.

(** X2. [approve_action] changes no resource outside the action's list and
    no incident other than the target, creates neither resources nor
    incidents, and touches no alert and no other action; on an id that is
    not in the pending-actions map it returns [None] and changes nothing. *)
Theorem approve_action_frame now id who m :
  let r := approve_action now id who m in
  match pending_actions (graph m) !! id with
  | None => r = (None, m)
  | Some a =>
      (∀ rid, rid ∉ resources_to_allocate a →
         resources (graph r.2) !! rid = resources (graph m) !! rid)
      ∧ (∀ rid, is_Some (resources (graph r.2) !! rid)
                ↔ is_Some (resources (graph m) !! rid))
      ∧ (∀ iid, target_incident_id a ≠ Some iid →
           incidents (graph r.2) !! iid = incidents (graph m) !! iid)
      ∧ (∀ iid, is_Some (incidents (graph r.2) !! iid)
                ↔ is_Some (incidents (graph m) !! iid))
      ∧ contradictions (graph r.2) = contradictions (graph m)
      ∧ (∀ id', id' ≠ id →
           pending_actions (graph r.2) !! id' = pending_actions (graph m) !! id')
  end.
Proof.
  cbn zeta. destruct (pending_actions (graph m) !! id) as [a|] eqn:Ha.
  - split; [|split; [|split; [|split; [|split]]]].
    + intros rid Hnin. rewrite approve_action_resources, Ha.
      by rewrite decide_False.
    + intros rid. rewrite approve_action_resources, Ha.
      destruct (decide (rid ∈ resources_to_allocate a)); [|done].
      by rewrite fmap_is_Some.
    + intros iid Hne. unfold approve_action. rewrite Ha. simpl.
      by apply respond_incident_other.
    + intros iid. unfold approve_action. rewrite Ha. simpl.
      apply respond_incident_dom.
    + unfold approve_action. by rewrite Ha.
    + intros id' Hne. rewrite approve_action_pending, Ha. by rewrite decide_False.
  - unfold approve_action. by rewrite Ha.
Qed.

(** X3. A rejection does not block a later approval: approving a rejected
    action leaves the graph it would have left without the rejection. *)
Theorem approve_after_reject now1 now2 id reason who1 who2 m :
  graph (approve_action now2 id who2 (reject_action now1 id reason who1 m).2).2
  = graph (approve_action now2 id who2 m).2.
Proof.
  unfold reject_action.
  destruct (pending_actions (graph m) !! id) as [a|] eqn:Ha; [|done].
  unfold approve_action. simpl. rewrite lookup_insert_eq, Ha. simpl.
  by rewrite insert_insert_eq.
Qed.

(** ** Manual assignment: composition *)

(** X4. Assigning the same pair twice is the same as assigning it once (at
    the time of the second call). *)
Theorem assign_twice now1 now2 rid iid m :
  graph (assign_resource_manual now2 rid iid
           (assign_resource_manual now1 rid iid m).2).2
  = graph (assign_resource_manual now2 rid iid m).2.
Proof.
  unfold assign_resource_manual.
  destruct (resources (graph m) !! rid) as [r|] eqn:Hr; [|simpl; by rewrite Hr].
  destruct (incidents (graph m) !! iid) as [i|] eqn:Hi; [|simpl; by rewrite Hr, Hi].
  simpl. rewrite !lookup_insert_eq. simpl. rewrite !insert_insert_eq.
  destruct (decide (rid ∈ assigned_resources i)) as [Hin|Hnin].
  - by rewrite decide_True.
  - rewrite decide_True; [done|].
    apply elem_of_app; right. apply elem_of_cons; by left.
Qed.

Lemma assign_resource_manual_incidents now rid iid m id :
  incidents (graph (assign_resource_manual now rid iid m).2) !! id =
  match resources (graph m) !! rid, incidents (graph m) !! iid with
  | Some r, Some i =>
      if decide (iid = id)
      then Some (set_response (inc_status i)
                   (if decide (rid ∈ assigned_resources i)
                    then assigned_resources i
                    else (assigned_resources i ++ [rid])%list) now i)
      else incidents (graph m) !! id
  | _, _ => incidents (graph m) !! id
  end.
Proof.
  unfold assign_resource_manual.
  destruct (resources (graph m) !! rid) as [r|]; [|done].
  destruct (incidents (graph m) !! iid) as [i|]; [|done].
  cbn zeta. simpl. apply lookup_insert.
Qed.

Lemma unassign_resource_incidents now rid m :
  incidents (graph (unassign_resource now rid m).2) =
  match resources (graph m) !! rid with
  | Some r => release_from_incident rid (assigned_incident r) (incidents (graph m))
  | None => incidents (graph m)
  end.
Proof.
  unfold unassign_resource. by destruct (resources (graph m) !! rid) as [r|].
Qed.

(** X5. Nothing takes a resource off the incident it was first assigned
    to: after a second assignment to another incident the resource points
    to the second incident and both incidents list it, and unassigning it
    clears the resource and the second incident's list only. *)
Theorem assign_elsewhere_leaves_stale_entry now1 now2 now3 rid i1 i2 m r inc1 inc2 :
  resources (graph m) !! rid = Some r →
  incidents (graph m) !! i1 = Some inc1 →
  incidents (graph m) !! i2 = Some inc2 →
  i1 ≠ i2 → i2 ≠ "" → rid ∉ assigned_resources inc2 →
  let m2 := (assign_resource_manual now2 rid i2
               (assign_resource_manual now1 rid i1 m).2).2 in
  let m3 := (unassign_resource now3 rid m2).2 in
  (∃ r2 a b, resources (graph m2) !! rid = Some r2
      ∧ assigned_incident r2 = Some i2
      ∧ incidents (graph m2) !! i1 = Some a ∧ rid ∈ assigned_resources a
      ∧ incidents (graph m2) !! i2 = Some b ∧ rid ∈ assigned_resources b)
  ∧ (∃ r3 a b, resources (graph m3) !! rid = Some r3
      ∧ res_status r3 = res_available ∧ assigned_incident r3 = None
      ∧ incidents (graph m3) !! i1 = Some a ∧ rid ∈ assigned_resources a
      ∧ incidents (graph m3) !! i2 = Some b
      ∧ assigned_resources b = assigned_resources inc2).
Proof.
  intros Hr H1 H2 Hne Hne2 Hnin. cbn zeta.
  set (m1 := (assign_resource_manual now1 rid i1 m).2).
  set (l1 := if decide (rid ∈ assigned_resources inc1)
             then assigned_resources inc1
             else (assigned_resources inc1 ++ [rid])%list).
  assert (Hin1 : rid ∈ l1).
  { unfold l1. destruct (decide (rid ∈ assigned_resources inc1)); [done|].
    apply elem_of_app; right. apply elem_of_cons; by left. }
  assert (Hr1 : resources (graph m1) !! rid
                = Some (set_assignment res_dispatched (Some i1)
                          (Some (inc_location inc1)) (Some 8) now1 r)).
  { unfold m1. rewrite assign_resource_manual_resources, Hr, H1.
    by rewrite decide_True. }
  assert (H11 : incidents (graph m1) !! i1
                = Some (set_response (inc_status inc1) l1 now1 inc1)).
  { unfold m1. rewrite assign_resource_manual_incidents, Hr, H1.
    by rewrite decide_True. }
  assert (H12 : incidents (graph m1) !! i2 = Some inc2).
  { unfold m1. rewrite assign_resource_manual_incidents, Hr, H1.
    by rewrite decide_False. }
  clearbody m1.
  set (m2 := (assign_resource_manual now2 rid i2 m1).2).
  assert (Hr2 : resources (graph m2) !! rid
                = Some (set_assignment res_dispatched (Some i2)
                          (Some (inc_location inc2)) (Some 8) now2
                          (set_assignment res_dispatched (Some i1)
                             (Some (inc_location inc1)) (Some 8) now1 r))).
  { unfold m2. rewrite assign_resource_manual_resources, Hr1, H12.
    by rewrite decide_True. }
  assert (H21 : incidents (graph m2) !! i1
                = Some (set_response (inc_status inc1) l1 now1 inc1)).
  { unfold m2. rewrite assign_resource_manual_incidents, Hr1, H12.
    by rewrite decide_False. }
  assert (H22 : incidents (graph m2) !! i2
                = Some (set_response (inc_status inc2)
                          (assigned_resources inc2 ++ [rid])%list now2 inc2)).
  { unfold m2. rewrite assign_resource_manual_incidents, Hr1, H12.
    rewrite decide_True by done. by rewrite decide_False. }
  clearbody m2.
  assert (Ht : truthy i2 = true).
  { unfold truthy. destruct (String.eqb_spec i2 ""); [contradiction | done]. }
  split.
  - do 3 eexists. split; [exact Hr2|]. split; [reflexivity|].
    split; [exact H21|]. split; [exact Hin1|]. split; [exact H22|].
    simpl. apply elem_of_app; right. apply elem_of_cons; by left.
  - do 3 eexists. rewrite unassign_resource_resources, Hr2.
    rewrite decide_True by done. split; [reflexivity|].
    split; [reflexivity|]. split; [reflexivity|].
    rewrite unassign_resource_incidents, Hr2. simpl.
    unfold release_from_incident. rewrite Ht, H22. simpl.
    rewrite decide_True by (apply elem_of_app; right; apply elem_of_cons; by left).
    rewrite lookup_insert_ne by done. split; [exact H21|].
    split; [exact Hin1|]. rewrite lookup_insert_eq. split; [reflexivity|].
    simpl. by apply list_remove_first_app.
Qed.

(** X6. Unassigning twice is the same as unassigning once (at the time of
    the second call). *)
Theorem unassign_twice now1 now2 rid m :
  graph (unassign_resource now2 rid (unassign_resource now1 rid m).2).2
  = graph (unassign_resource now2 rid m).2.
Proof.
  unfold unassign_resource.
  destruct (resources (graph m) !! rid) as [r|] eqn:Hr; [|simpl; by rewrite Hr].
  simpl. rewrite lookup_insert_eq. simpl. by rewrite insert_insert_eq.
Qed.

(** ** [get_stats] *)

Lemma filter_two_length {A} (P Q : A → Prop) `{∀ x, Decision (P x)}
    `{∀ x, Decision (Q x)} (l : list A) :
  (∀ x, P x → Q x → False) →
  (length (filter P l) + length (filter Q l) ≤ length l)%nat.
Proof.
  intros Hdis. induction l as [|x l IH]; [done|].
  rewrite !filter_cons.
  destruct (decide (P x)) as [HP|HP], (decide (Q x)) as [HQ|HQ]; simpl; try lia.
  destruct (Hdis x HP HQ).
Qed.

Lemma count_values_two {A} (P Q : A → Prop) `{∀ x, Decision (P x)}
    `{∀ x, Decision (Q x)} (d : gmap string A) :
  (∀ x, P x → Q x → False) →
  (count_values P d + count_values Q d ≤ size d)%nat.
Proof.
  intros Hdis. unfold count_values.
  etrans; [by apply filter_two_length|].
  by rewrite length_fmap, length_map_to_list.
Qed.

Lemma count_values_le {A} (P : A → Prop) `{∀ x, Decision (P x)} (d : gmap string A) :
  (count_values P d ≤ size d)%nat.
Proof.
  unfold count_values. etrans; [apply length_filter|].
  by rewrite length_fmap, length_map_to_list.
Qed.

(** Replacing the value under a key moves one unit of the count from the old
    value to the new one. *)
Lemma count_values_insert {A} (P : A → Prop) `{∀ x, Decision (P x)}
    (d : gmap string A) k v v' :
  d !! k = Some v →
  (count_values P (<[k := v']> d) + (if decide (P v) then 1 else 0)
   = count_values P d + (if decide (P v') then 1 else 0))%nat.
Proof.
  intros Hk. unfold count_values.
  rewrite <- (insert_delete_eq d k v').
  rewrite (map_to_list_insert (delete k d) k v') by apply lookup_delete_eq.
  rewrite <- (map_to_list_delete d k v Hk).
  rewrite !fmap_cons, !filter_cons. simpl.
  destruct (decide (P v)), (decide (P v')); simpl; lia.
Qed.

(** X7. The counters of [get_stats] are consistent with the sizes of the
    dictionaries: active plus responding incidents do not exceed the
    incidents, available plus deployed resources do not exceed the
    resources, and likewise for alerts, actions and camps; on a new graph
    every counter is zero. *)
Theorem get_stats_bounds m :
  let s := get_stats m in
  let g := graph (core m) in
  total_incidents s = size (incidents g)
  ∧ (active_incidents s + responding_incidents s ≤ total_incidents s)%nat
  ∧ (resources_available s + resources_deployed s ≤ size (resources g))%nat
  ∧ (pending_contradictions s ≤ size (contradictions g))%nat
  ∧ (stat_pending_actions s ≤ size (pending_actions g))%nat
  ∧ (camps_active s + camps_suggested s ≤ size (camp_locations m))%nat
  ∧ ∀ now, get_stats (mkFullManager (new_manager now) ∅)
           = mkStats 0 0 0 0 0 0 0 0 0.
Proof.
  cbn zeta. unfold get_stats. simpl. split; [done|].
  split; [apply count_values_two; congruence|].
  split; [apply count_values_two; intros x Hx [Hy|Hy]; congruence|].
  split; [apply count_values_le|]. split; [apply count_values_le|].
  split; [apply count_values_two; congruence|]. done.
Qed.

(** X8. Assigning a free resource to an incident by hand moves exactly one
    unit from [resources_available] to [resources_deployed]; the incident
    counters stay as they are, because a manual assignment does not change
    the status of the incident. *)
Theorem assign_moves_one_resource now rid iid m camps r i :
  resources (graph m) !! rid = Some r →
  incidents (graph m) !! iid = Some i →
  res_status r = res_available →
  let s := get_stats (mkFullManager m camps) in
  let s' := get_stats
              (mkFullManager (assign_resource_manual now rid iid m).2 camps) in
  (resources_available s' + 1 = resources_available s)%nat
  ∧ resources_deployed s' = (resources_deployed s + 1)%nat
  ∧ total_incidents s' = total_incidents s
  ∧ active_incidents s' = active_incidents s
  ∧ responding_incidents s' = responding_incidents s.
Proof.
  intros Hr Hi Hst. cbn zeta. unfold get_stats, assign_resource_manual.
  rewrite Hr, Hi. cbn zeta. simpl.
  pose proof (count_values_insert (λ r, res_status r = res_available)
                (resources (graph m)) rid r
                (set_assignment res_dispatched (Some iid) (Some (inc_location i))
                   (Some 8) now r) Hr) as Hav.
  pose proof (count_values_insert
                (λ r, res_status r = res_dispatched ∨ res_status r = res_on_scene)
                (resources (graph m)) rid r
                (set_assignment res_dispatched (Some iid) (Some (inc_location i))
                   (Some 8) now r) Hr) as Hde.
  set (i' := set_response (inc_status i) _ now i).
  pose proof (count_values_insert (λ i, inc_status i = inc_active)
                (incidents (graph m)) iid i i' Hi) as Hac.
  pose proof (count_values_insert (λ i, inc_status i = inc_responding)
                (incidents (graph m)) iid i i' Hi) as Hre.
  assert (Hi' : inc_status i' = inc_status i) by done.
  clearbody i'.
  repeat match type of Hav with context [decide ?P] => destruct (decide P) end;
    simpl in *; try congruence.
  repeat match type of Hde with context [decide ?P] => destruct (decide P) end;
    simpl in *; try (intuition congruence).
  split; [lia|]. split; [lia|].
  split; [by apply map_size_insert_Some|].
  rewrite Hi' in Hac, Hre.
  split.
  - destruct (decide (inc_status i = inc_active)); lia.
  - destruct (decide (inc_status i = inc_responding)); lia.
Qed.

(** ** [get_incidents_by_urgency] *)

Lemma insert_by_urgency_perm i l : insert_by_urgency i l ≡ₚ i :: l.
Proof.
  induction l as [|j l IH]; simpl; [done|].
  destruct (decide _); [done|]. rewrite IH. apply Permutation_swap.
Qed.

Lemma sorted_by_urgency_perm l : sorted_by_urgency l ≡ₚ l.
Proof.
  induction l as [|i l IH]; simpl; [done|].
  by rewrite insert_by_urgency_perm, IH.
Qed.

Lemma insert_by_urgency_sorted i l :
  StronglySorted by_urgency l → StronglySorted by_urgency (insert_by_urgency i l).
Proof.
  induction 1 as [|j l Hs IH Hall]; simpl.
  - repeat constructor.
  - destruct (decide _) as [Hle|Hgt].
    + constructor; [by constructor|].
      constructor; [done|].
      eapply Forall_impl; [exact Hall|]. unfold by_urgency in *. intros; lia.
    + constructor; [done|].
      rewrite insert_by_urgency_perm. constructor; [|done].
      unfold by_urgency. lia.
Qed.

Lemma insert_by_urgency_filter u i l :
  filter (λ x, inc_urgency x = u) (insert_by_urgency i l)
  = filter (λ x, inc_urgency x = u) (i :: l).
Proof.
  induction l as [|j l IH]; simpl; [done|].
  destruct (decide _) as [Hle|Hgt]; [done|].
  rewrite filter_cons, IH, !filter_cons.
  destruct (decide (inc_urgency j = u)) as [Hj|Hj],
           (decide (inc_urgency i = u)) as [Hi|Hi]; try done.
  exfalso. apply Hgt. rewrite Hi, Hj. lia.
Qed.

(** X9. [get_incidents_by_urgency] returns the active incidents of the
    listing it is given, each as often as it is listed, ordered critical,
    high, medium, low; incidents of the same urgency keep the order of the
    listing, which in the program is the order in which the dictionary got
    its keys.  When the listing is that of the graph, the result holds the
    active incidents of the graph and nothing else. *)
Theorem get_incidents_by_urgency_sorted (values : list IncidentNode) :
  let actives := filter (λ i, inc_status i = inc_active) values in
  let l := get_incidents_by_urgency values in
  l ≡ₚ actives
  ∧ StronglySorted by_urgency l
  ∧ (∀ u, filter (λ x, inc_urgency x = u) l = filter (λ x, inc_urgency x = u) actives)
  ∧ (∀ m, incident_values m values →
       ∀ i, i ∈ l ↔ inc_status i = inc_active
                     ∧ ∃ id, incidents (graph m) !! id = Some i).
Proof.
  cbn zeta. unfold get_incidents_by_urgency.
  set (actives := filter _ _).
  split; [apply sorted_by_urgency_perm|]. split; [|split].
  - induction actives as [|i l IH]; simpl; [constructor|].
    by apply insert_by_urgency_sorted.
  - intros u. induction actives as [|i l IH]; simpl; [done|].
    rewrite insert_by_urgency_filter, !filter_cons. by rewrite IH.
  - intros m Hvalues i. rewrite sorted_by_urgency_perm. unfold actives.
    rewrite list_elem_of_filter. unfold incident_values in Hvalues.
    rewrite Hvalues, list_elem_of_fmap. split.
    + intros [Hs ([id i'] & -> & Hin)]. split; [done|].
      exists id. by apply elem_of_map_to_list.
    + intros [Hs [id Hid]]. split; [done|].
      exists (id, i). split; [done|]. by apply elem_of_map_to_list.
Qed.

(** ** [get_incident_audit] *)

Lemma incident_events_log now ty data m id :
  incident_events id (_log_event now ty data m)
  = (incident_events id m
     ++ if about_incident id (mkAuditEvent now ty data)
        then [mkAuditEvent now ty data] else [])%list.
Proof.
  unfold incident_events, _log_event. simpl. rewrite filter_app. f_equal.
  rewrite filter_cons, filter_nil. by destruct (about_incident _ _).
Qed.

(** X10. The audit events of an incident are the events whose data carry
    its id under "incident_id": the addition of the incident and each
    manual assignment to it add one; an approval, a rejection or an
    unassignment adds none, whatever incident the action or the resource
    was bound to. *)
Theorem incident_audit_trail now m id :
  (∀ i, inc_id i = id →
     incident_events id (add_incident now i m)
     = (incident_events id m
        ++ [mkAuditEvent now "incident_added"
              [("incident_id", AStr id); ("type", AStr (incident_type i))]])%list)
  ∧ (∀ rid r i, resources (graph m) !! rid = Some r →
       incidents (graph m) !! id = Some i →
       incident_events id (assign_resource_manual now rid id m).2
       = (incident_events id m
          ++ [mkAuditEvent now "resource_assigned"
                [("resource_id", AStr rid); ("incident_id", AStr id)]])%list)
  ∧ (∀ aid who,
       incident_events id (approve_action now aid who m).2 = incident_events id m)
  ∧ (∀ aid reason who,
       incident_events id (reject_action now aid reason who m).2
       = incident_events id m)
  ∧ (∀ rid,
       incident_events id (unassign_resource now rid m).2 = incident_events id m).
Proof.
  split; [|split; [|split; [|split]]].
  - intros i <-. unfold add_incident. rewrite incident_events_log.
    unfold about_incident. simpl. by rewrite bool_decide_eq_true_2.
  - intros rid r i Hr Hi. unfold assign_resource_manual. rewrite Hr, Hi.
    cbn zeta. simpl. rewrite incident_events_log.
    unfold about_incident. simpl. by rewrite bool_decide_eq_true_2.
  - intros aid who. unfold approve_action.
    destruct (pending_actions (graph m) !! aid); [|done].
    cbn zeta. simpl. rewrite incident_events_log. simpl. apply app_nil_r.
  - intros aid reason who. unfold reject_action.
    destruct (pending_actions (graph m) !! aid); [|done].
    cbn zeta. simpl. rewrite incident_events_log. simpl. apply app_nil_r.
  - intros rid. unfold unassign_resource.
    destruct (resources (graph m) !! rid); [|done].
    cbn zeta. simpl. rewrite incident_events_log. simpl. apply app_nil_r.
Qed.

(* ===================================================================== *)
(** ** Further properties of the coordinator *)
(* ===================================================================== *)

(** X11. The timeline keeps the last fifty events: after [_add_event] it
    holds one event more, but never more than fifty; the new event is its
    last one and the events kept are the most recent ones, in order. *)
Theorem add_event_keeps_last_fifty id now ty data evs :
  let e := mkTimelineEvent id ty now data in
  let evs' := _add_event id now ty data evs in
  length evs' = Nat.min (S (length evs)) 50
  ∧ last evs' = Some e
  ∧ evs' `suffix_of` (evs ++ [e])%list.
Proof.
  cbn zeta. unfold _add_event.
  set (e := mkTimelineEvent id ty now data).
  assert (Hlen : length (evs ++ [e])%list = S (length evs))
    by (rewrite length_app; simpl; lia).
  case_bool_decide as Hc.
  - repeat split.
    + rewrite length_drop. lia.
    + rewrite last_lookup, lookup_drop, length_drop, Hlen.
      replace (S (length evs) - 50 + Nat.pred (S (length evs) - (S (length evs) - 50)))%nat
        with (length evs + 0)%nat by lia.
      by rewrite lookup_app_r, Nat.add_comm, Nat.add_sub by lia.
    + apply suffix_drop.
  - repeat split.
    + lia.
    + apply last_snoc.
    + done.
Qed.

Lemma in_unit_spec q : in_unit q = true ↔ (0 <= q <= 1)%Q.
Proof.
  unfold in_unit. rewrite andb_true_iff, !Qle_bool_iff. tauto.
Qed.

Lemma resolve_confidence_unit v q :
  resolve_confidence v = Some q → (0 <= q <= 1)%Q.
Proof.
  destruct v as [| |p]; simpl.
  - intros [= <-]. split; by apply Qle_bool_iff.
  - done.
  - destruct (in_unit p) eqn:Hp; [|done]. intros [= <-]. by apply in_unit_spec.
Qed.

(** A property of the integers from 0 up to [n], checked one by one. *)
Lemma check_range (P : Z → bool) (n : nat) :
  forallb (λ k, P (Z.of_nat k)) (seq 0 n) = true →
  ∀ k, 0 ≤ k < Z.of_nat n → P k = true.
Proof.
  intros H k Hk. rewrite forallb_forall in H.
  specialize (H (Z.to_nat k)). rewrite Z2Nat.id in H by lia.
  apply H, in_seq. lia.
Qed.

Lemma between_spec lo hi q : between lo hi q = true → (lo <= q <= hi)%Q.
Proof.
  unfold between. intros H. apply andb_true_iff in H as [H1 H2].
  split; by apply Qle_bool_iff.
Qed.

Lemma signal_coord_bounds h :
  ((3778 # 100) - (1 # 1000000000000) <= offset_coord 37.78 0.001 (h mod 100)
     <= (37879 # 1000) + (1 # 1000000000000))%Q
  ∧ ((-12241 # 100) - (1 # 1000000000000) <= offset_coord (-122.41) 0.001 (h mod 100)
     <= (-122311 # 1000) + (1 # 1000000000000))%Q.
Proof.
  pose proof (Z.mod_pos_bound h 100 eq_refl) as Hb.
  split; apply between_spec.
  - apply (check_range (λ k, between _ _ (offset_coord _ _ k)) 100);
      [vm_compute; reflexivity | done].
  - apply (check_range (λ k, between _ _ (offset_coord _ _ k)) 100);
      [vm_compute; reflexivity | done].
Qed.

(** X12. A signal whose metadata carries no coordinates is placed by the
    hash of its identifier: whatever the two hash values are, the location
    is built, and its coordinates, computed in binary64, lie within
    10^-12 of the tenth of a degree north and east of (37.78, -122.41);
    its sector is "1" when the metadata names none. *)
Theorem signal_location_default_bounds (h1 h2 : Z) (nm : option string) :
  ∃ loc, signal_location h1 h2 (mkMetadata Absent Absent Absent nm) = Some loc
    ∧ ((3778 # 100) - (1 # 1000000000000) <= lat loc
         <= (37879 # 1000) + (1 # 1000000000000))%Q
    ∧ ((-12241 # 100) - (1 # 1000000000000) <= lng loc
         <= (-122311 # 1000) + (1 # 1000000000000))%Q
    ∧ sector loc = Some "1"
    ∧ name loc = nm.
Proof.
  destruct (signal_coord_bounds h1) as [B1 _].
  destruct (signal_coord_bounds h2) as [_ B2].
  unfold signal_location, resolve_coord.
  cbn [md_lat md_lng md_sector md_location_name resolve_sector].
  eexists. split; [reflexivity|]. cbn [lat lng sector name].
  split; [exact B1|]. split; [exact B2|]. by split.
Qed.

(** The sum is rounded: for a hash that ends in 99 the longitude exceeds
    -122.311, by less than 10^-13. *)
Example signal_location_rounding :
  (-122311 # 1000 < offset_coord (-122.41) 0.001 (199 mod 100))%Q.
Proof. vm_compute. reflexivity. Qed.

(** A coordinate given as [None] makes the constructor of [Location] raise,
    for whatever type of signal. *)
Lemma signal_location_null h1 h2 md :
  md_lat md = Null ∨ md_lng md = Null → signal_location h1 h2 md = None.
Proof.
  unfold signal_location. intros [-> | ->]; simpl; [done|].
  by destruct (resolve_coord _ _ _).
Qed.

(** X13. The incident built from an image: the damage level is the one the
    analyzer names, and moderate when it names none or one that is not a
    level; the urgency follows from the damage (critical for severe and
    catastrophic, high for moderate, medium for minor, low for none).  The
    incident is active, unassigned, named after the signal, and its
    confidence and the credibility of its one source lie in [0, 1]. *)
Theorem image_incident_shape now signal_id confidence h1 h2 md data inc :
  image_incident now signal_id confidence h1 h2 md data = Some inc →
  inc_id inc = "inc_" +:+ signal_id
  ∧ (inc_urgency inc = CRITICAL ↔
       img_damage_level data = Some "severe"
       ∨ img_damage_level data = Some "catastrophic")
  ∧ (inc_urgency inc = LOW ↔ img_damage_level data = Some "none")
  ∧ (img_damage_level data = None →
       damage_level inc = MODERATE ∧ inc_urgency inc = HIGH)
  ∧ (∀ s, img_damage_level data = Some s → DamageLevel_of_value s = None →
       damage_level inc = MODERATE ∧ inc_urgency inc = HIGH)
  ∧ (∀ s d, img_damage_level data = Some s → DamageLevel_of_value s = Some d →
       damage_level inc = d)
  ∧ inc_urgency inc = damage_urgency (damage_level inc)
  ∧ inc_status inc = inc_active
  ∧ assigned_resources inc = []
  ∧ (0 <= inc_confidence inc <= 1)%Q
  ∧ (∃ s, inc_sources inc = [s] ∧ source_id s = signal_id
        ∧ source_type s = IMAGE ∧ (0 <= credibility_score s <= 1)%Q).
Proof.
  unfold image_incident, source_reference.
  destruct (in_unit confidence) eqn:Hc; [|done].
  destruct (signal_location h1 h2 md) as [loc|]; [|done].
  destruct (resolve_confidence _) as [conf|] eqn:Hconf; [|done].
  intros [= <-]. cbn -[DamageLevel_of_value].
  apply in_unit_spec in Hc. apply resolve_confidence_unit in Hconf.
  split; [done|].
  assert (Hlevel : (img_damage_level data = None
                    ∨ ∃ s, img_damage_level data = Some s ∧ DamageLevel_of_value s = None)
                   → default MODERATE
                       (DamageLevel_of_value (default "moderate" (img_damage_level data)))
                     = MODERATE).
  { intros [-> | (s & -> & Hs)]; [done|]. simpl. by rewrite Hs. }
  split_and!; try done.
  - destruct (img_damage_level data) as [s|]; simpl;
      [|split; [done | intros [?|?]; done]].
    unfold DamageLevel_of_value.
    repeat (destruct (decide _) as [->|?]; simpl); split;
      try done; try (intros [?|?]; congruence); try (by left); try (by right).
  - destruct (img_damage_level data) as [s|]; simpl; [|split; done].
    unfold DamageLevel_of_value.
    repeat (destruct (decide _) as [->|?]; simpl); split; try done; congruence.
  - intros Hn. rewrite Hlevel by (by left). done.
  - intros s Hs Hd. rewrite Hlevel by (right; eauto). done.
  - intros s d -> Hd. simpl. by rewrite Hd.
  - apply Hconf.
  - apply Hconf.
  - eexists. split; [done|]. by repeat split; try apply Hc.
Qed.

(** X14. The incident built from an audio report reads the urgency by exact
    match: it is CRITICAL (and the damage SEVERE) only for the very string
    "critical"; any string outside the four level names, or a missing
    urgency, gives HIGH urgency and MODERATE damage. *)
Theorem audio_incident_urgency_exact now signal_id confidence h1 h2 md data inc :
  audio_incident now signal_id confidence h1 h2 md data = Some inc →
  (inc_urgency inc = CRITICAL ↔ aud_urgency data = Some "critical")
  ∧ (damage_level inc = SEVERE ↔ aud_urgency data = Some "critical")
  ∧ (damage_level inc = SEVERE ∨ damage_level inc = MODERATE)
  ∧ ((∀ s, aud_urgency data = Some s → Urgency_of_value s = None) →
       inc_urgency inc = HIGH ∧ damage_level inc = MODERATE)
  ∧ inc_status inc = inc_active
  ∧ assigned_resources inc = []
  ∧ (0 <= inc_confidence inc <= 1)%Q.
Proof.
  unfold audio_incident, source_reference.
  destruct (in_unit confidence) eqn:Hc; [|done].
  destruct (signal_location h1 h2 md) as [loc|]; [|done].
  destruct (resolve_incident_type _) as [ty|]; [|done].
  destruct (resolve_confidence _) as [conf|] eqn:Hconf; [|done].
  intros [= <-]. simpl.
  apply resolve_confidence_unit in Hconf.
  set (u := default HIGH (Urgency_of_value (default "high" (aud_urgency data)))).
  assert (Hu : u = CRITICAL ↔ aud_urgency data = Some "critical").
  { subst u. destruct (aud_urgency data) as [s|]; simpl; [|by split].
    unfold Urgency_of_value.
    repeat (destruct (decide _) as [->|?]; simpl); split; congruence. }
  assert (Hn : (∀ s, aud_urgency data = Some s → Urgency_of_value s = None) → u = HIGH).
  { subst u. destruct (aud_urgency data) as [s|]; simpl; [|done].
    intros Hs. by rewrite (Hs _ eq_refl). }
  clearbody u.
  destruct (decide (u = CRITICAL)) as [->|Hne].
  - simpl. split_and!; try done; try tauto.
    intros Hs. by apply Hn in Hs.
  - simpl.
    split_and!; try done; try tauto; try (by right); try (by intros Hs; apply Hn).
    split; [done | tauto].
Qed.

(** *** What the planning trigger and the detector leave alone *)

Lemma maybe_generate_fields now stamp c :
  let c' := (_maybe_generate_recommendations now stamp c).1 in
  graph_manager c' = graph_manager c
  ∧ claim_store c' = claim_store c
  ∧ signal_claims c' = signal_claims c
  ∧ handled_contradictions c' = handled_contradictions c
  ∧ detector_alerts c' = detector_alerts c
  ∧ simulation_running c' = simulation_running c.
Proof.
  cbn zeta. unfold _maybe_generate_recommendations.
  destruct (negb _); [done|].
  repeat (case_bool_decide; [done|]). done.
Qed.

Lemma same_planning_view_refl c : same_planning_view c c.
Proof. by repeat split. Qed.

Lemma same_planning_view_trans c1 c2 c3 :
  same_planning_view c1 c2 → same_planning_view c2 c3 → same_planning_view c1 c3.
Proof.
  intros (H1 & H2 & H3 & H4 & H5) (H1' & H2' & H3' & H4' & H5').
  unfold same_planning_view. by rewrite H1', H2', H3', H4', H5'.
Qed.

Lemma detector_resume_planning_view now id e ref ver c :
  same_planning_view c (detector_resume now id e ref ver c).1.
Proof.
  unfold detector_resume. destruct (adverse ver); [|apply same_planning_view_refl].
  destruct (detector_alert _ _ _ _ _); by repeat split.
Qed.

Lemma check_loop_planning_view verify now id snapshot c :
  same_planning_view c (check_loop verify now id snapshot c).
Proof.
  revert c. induction snapshot as [|[e ref] rest IH]; intros c;
    [apply same_planning_view_refl|].
  cbn [check_loop]. destruct (detector_guard c e ref); [|apply IH].
  pose proof (detector_resume_planning_view now id e ref (verify e (deref c ref)) c) as Hv.
  destruct (detector_resume now id e ref (verify e (deref c ref)) c) as [c' stop].
  simpl in *. destruct stop; [done|].
  eapply same_planning_view_trans; [done | apply IH].
Qed.

Lemma check_loop_simulation verify now id snapshot c :
  simulation_running (check_loop verify now id snapshot c) = simulation_running c.
Proof.
  revert c. induction snapshot as [|[e ref] rest IH]; intros c; [done|].
  cbn [check_loop]. destruct (detector_guard c e ref); [|apply IH].
  assert (Hs : simulation_running (detector_resume now id e ref (verify e (deref c ref)) c).1
               = simulation_running c).
  { unfold detector_resume. destruct (adverse _); [|done].
    by destruct (detector_alert _ _ _ _ _). }
  destruct (detector_resume now id e ref (verify e (deref c ref)) c) as [c' stop].
  simpl in *. destruct stop; [done|]. by rewrite IH.
Qed.

(** The trigger decides alike in two states it cannot tell apart. *)
Lemma same_planning_view_trigger now stamp c c' :
  same_planning_view c c' →
  (_maybe_generate_recommendations now stamp c').2 =
  (_maybe_generate_recommendations now stamp c).2.
Proof.
  intros (H1 & H2 & H3 & H4 & H5).
  unfold _maybe_generate_recommendations, cooldown_elapsed, critical_incidents,
    pending_count, get_available_resources.
  rewrite H1, H2, H3, H4, H5.
  destruct (negb _); [done|].
  repeat (case_bool_decide; [done|]). done.
Qed.

Lemma process_incident_signal_incidents verify now id incident c :
  incidents (graph (graph_manager (process_incident_signal verify now id incident c))) =
  <[inc_id incident := incident]> (incidents (graph (graph_manager c))).
Proof.
  unfold process_incident_signal.
  destruct (simulation_running _); [done|].
  unfold _check_contradictions.
  by destruct (check_loop_planning_view verify now id
    (signal_claims (update_graph_incident now incident c))
    (update_graph_incident now incident c)) as (-> & _).
Qed.

Lemma process_incident_signal_planning verify now id incident c :
  let c' := process_incident_signal verify now id incident c in
  resources (graph (graph_manager c')) = resources (graph (graph_manager c))
  ∧ pending_actions (graph (graph_manager c')) = pending_actions (graph (graph_manager c))
  ∧ _last_planning_call c' = _last_planning_call c
  ∧ _planning_cooldown_seconds c' = _planning_cooldown_seconds c.
Proof.
  cbn zeta. unfold process_incident_signal.
  destruct (simulation_running _); [done|].
  unfold _check_contradictions.
  by destruct (check_loop_planning_view verify now id
    (signal_claims (update_graph_incident now incident c))
    (update_graph_incident now incident c)) as (_ & -> & -> & -> & ->).
Qed.

Lemma update_graph_text_graph_manager now signal_id source_type claims c :
  graph_manager (update_graph_text now signal_id source_type claims c) = graph_manager c.
Proof.
  unfold update_graph_text. destruct (simulation_running c); [done|].
  revert c. induction claims as [|cd claims IH]; intros c; [done|].
  cbn [foldl]. rewrite IH. unfold accumulate_claim.
  destruct (truthy _); [|done]. destruct (decide _); [done|].
  apply append_claims_graph_manager.
Qed.

Lemma text_signal_fields verify now now_p stamp signal_id alert_id h1 h2 md a c c' b :
  process_signal verify now now_p stamp signal_id alert_id h1 h2 "text" md a c
    = Some (c', b) →
  graph_manager c' = graph_manager c
  ∧ handled_contradictions c' = handled_contradictions c
  ∧ detector_alerts c' = detector_alerts c
  ∧ (simulation_running c = true →
       signal_claims c' = signal_claims c ∧ claim_store c' = claim_store c).
Proof.
  unfold process_signal. simpl.
  destruct (source_reference _ _ _ _); [|done].
  destruct (signal_location _ _ _); [|done].
  set (c1 := update_graph_text _ _ _ _ c).
  intros [= Hc].
  pose proof (maybe_generate_fields now_p stamp c1) as (G1 & G2 & G3 & G4 & G5 & _).
  rewrite Hc in *. simpl in *.
  destruct (update_graph_text_view now signal_id
              (default "unverified" (text a).1.2) (text a).2 c) as (_ & V2 & V3).
  fold c1 in V2, V3.
  split_and!.
  - rewrite G1. apply update_graph_text_graph_manager.
  - by rewrite G4.
  - by rewrite G5.
  - intros Hsim. rewrite G2, G3. subst c1. unfold update_graph_text. by rewrite Hsim.
Qed.

Lemma update_graph_text_planning_view now signal_id source_type claims c :
  same_planning_view c (update_graph_text now signal_id source_type claims c).
Proof.
  unfold update_graph_text. destruct (simulation_running c);
    [apply same_planning_view_refl|].
  revert c. induction claims as [|cd claims IH]; intros c;
    [apply same_planning_view_refl|].
  cbn [foldl]. eapply same_planning_view_trans; [|apply IH].
  unfold accumulate_claim.
  destruct (truthy _); [|apply same_planning_view_refl].
  destruct (decide _); [apply same_planning_view_refl|].
  unfold append_claims. destruct (claims_ref _ _); by repeat split.
Qed.

(** The planning trigger decides after a text signal as it would have
    before it. *)
Lemma text_signal_trigger verify now now_p stamp signal_id alert_id h1 h2 md a c c' b :
  process_signal verify now now_p stamp signal_id alert_id h1 h2 "text" md a c
    = Some (c', b) →
  b = (_maybe_generate_recommendations now_p stamp c).2.
Proof.
  unfold process_signal. simpl.
  destruct (source_reference _ _ _ _); [|done].
  destruct (signal_location _ _ _); [|done].
  intros [= Hc]. apply (f_equal snd) in Hc. simpl in Hc. subst b.
  apply same_planning_view_trigger, update_graph_text_planning_view.
Qed.

(** X15. A text signal creates no incident, changes no resource, does not
    run the detector and stores no alert, whatever the analyzer extracts;
    while a simulation is running its claims are not collected either.
    The one write to the graph it can cause is the recommendation of the
    planning analyzer: when the planning trigger does not fire, the graph
    manager is left as it was, and when it fires, the graph manager is the
    old one with the action that was built added, or the old one when none
    was built. *)
Theorem text_signal_keeps_graph verify plan now now_p stamp now_a signal_id alert_id
    h1 h2 md a c c' :
  process_signal_planned verify plan now now_p stamp now_a signal_id alert_id h1 h2
    "text" md a c = Some c' →
  incidents (graph (graph_manager c')) = incidents (graph (graph_manager c))
  ∧ resources (graph (graph_manager c')) = resources (graph (graph_manager c))
  ∧ contradictions (graph (graph_manager c')) = contradictions (graph (graph_manager c))
  ∧ handled_contradictions c' = handled_contradictions c
  ∧ detector_alerts c' = detector_alerts c
  ∧ (simulation_running c = true →
       signal_claims c' = signal_claims c ∧ claim_store c' = claim_store c)
  ∧ ((_maybe_generate_recommendations now_p stamp c).2 = false →
       graph_manager c' = graph_manager c)
  ∧ ((_maybe_generate_recommendations now_p stamp c).2 = true →
       ∃ c1, graph_manager c1 = graph_manager c
         ∧ graph_manager c' =
           match plan c1 with
           | Some action => add_action now_a action (graph_manager c)
           | None => graph_manager c
           end).
Proof.
  unfold process_signal_planned.
  destruct (process_signal _ _ _ _ _ _ _ _ _ _ _ _) as [[c1 b]|] eqn:Hp; [|done].
  destruct (text_signal_fields _ _ _ _ _ _ _ _ _ _ _ _ _ Hp) as (F1 & F2 & F3 & F4).
  pose proof (text_signal_trigger _ _ _ _ _ _ _ _ _ _ _ _ _ Hp) as <-.
  destruct b.
  - intros [= <-]. unfold planning_tail.
    destruct (plan c1) as [action|] eqn:Hplan.
    + unfold on_graph. simpl. rewrite F1.
      split_and!; try done.
      intros _. exists c1. by rewrite Hplan, F1.
    + rewrite F1. split_and!; try done.
      intros _. exists c1. by rewrite Hplan.
  - intros [= <-]. rewrite F1. by split_and!.
Qed.

(** X16. While a simulation is running no signal of any type runs the
    detector or collects claims: the alerts, the claims per entity and the
    handled set are what they were before the signal. *)
Theorem simulation_signals_skip_detector verify now now_p stamp signal_id alert_id
    h1 h2 signal_type md a c c' b :
  simulation_running c = true →
  process_signal verify now now_p stamp signal_id alert_id h1 h2 signal_type md a c
    = Some (c', b) →
  contradictions (graph (graph_manager c')) = contradictions (graph (graph_manager c))
  ∧ signal_claims c' = signal_claims c
  ∧ claim_store c' = claim_store c
  ∧ handled_contradictions c' = handled_contradictions c
  ∧ detector_alerts c' = detector_alerts c.
Proof.
  intros Hsim. unfold process_signal.
  assert (Hinc : ∀ incident c1,
    (c1, b).1 = (_maybe_generate_recommendations now_p stamp
             (process_incident_signal verify now alert_id incident c)).1 →
    contradictions (graph (graph_manager c1)) = contradictions (graph (graph_manager c))
    ∧ signal_claims c1 = signal_claims c
    ∧ claim_store c1 = claim_store c
    ∧ handled_contradictions c1 = handled_contradictions c
    ∧ detector_alerts c1 = detector_alerts c).
  { intros incident c1 Hc. simpl in Hc.
    pose proof (maybe_generate_fields now_p stamp
      (process_incident_signal verify now alert_id incident c))
      as (G1 & G2 & G3 & G4 & G5 & _).
    rewrite <- Hc in *. rewrite G1, G2, G3, G4, G5.
    unfold process_incident_signal, update_graph_incident. simpl. by rewrite Hsim. }
  repeat case_decide.
  - destruct (image_incident _ _ _ _ _ _ _); [|done].
    intros [= Hc]. apply (Hinc i). by rewrite Hc.
  - destruct (audio_incident _ _ _ _ _ _ _); [|done].
    intros [= Hc]. apply (Hinc i). by rewrite Hc.
  - subst signal_type. intros Hc.
    destruct (text_signal_fields verify now now_p stamp signal_id alert_id
                h1 h2 md a c c' b Hc) as (T1 & T2 & T3 & T4).
    destruct (T4 Hsim) as [T5 T6]. by rewrite T1.
  - done.
Qed.

Lemma critical_incidents_intro m id i :
  incidents (graph m) !! id = Some i →
  inc_urgency i = CRITICAL ∨ inc_urgency i = HIGH →
  inc_status i = inc_active →
  assigned_resources i = [] →
  critical_incidents m ≠ [].
Proof.
  intros Hl Hu Hs Ha Hnil.
  assert (Hin : i ∈ critical_incidents m).
  { unfold critical_incidents. apply list_elem_of_filter. split.
    - by rewrite Ha.
    - apply list_elem_of_fmap. exists (id, i). split; [done|].
      by apply elem_of_map_to_list. }
  rewrite Hnil in Hin. by apply elem_of_nil in Hin.
Qed.

(** X17. From signal to planner: an image that the analyzer rates moderate,
    severe or catastrophic calls the planning analyzer in the same
    [process_signal], and stamps the planning clock, whenever the cooldown
    has elapsed, fewer than three actions are pending and a resource is
    available; what the detector does in between does not matter. *)
Theorem damaging_image_invokes_planner verify now now_p stamp signal_id alert_id
    h1 h2 md a c inc :
  image_incident now signal_id (vision a).1 h1 h2 md (vision a).2 = Some inc →
  img_damage_level (vision a).2 ≠ Some "none" →
  img_damage_level (vision a).2 ≠ Some "minor" →
  cooldown_elapsed now_p c = true →
  (pending_count (graph_manager c) < 3)%nat →
  get_available_resources (graph_manager c) ≠ [] →
  ∃ c', process_signal verify now now_p stamp signal_id alert_id h1 h2 "image" md a c
          = Some (c', true)
    ∧ _last_planning_call c' = Some stamp
    ∧ incidents (graph (graph_manager c')) =
        <[inc_id inc := inc]> (incidents (graph (graph_manager c))).
Proof.
  intros Hinc Hnone Hminor Hcool Hpend Havail.
  unfold process_signal. simpl. rewrite Hinc.
  set (c1 := process_incident_signal verify now alert_id inc c).
  pose proof (process_incident_signal_incidents verify now alert_id inc c) as Hi.
  pose proof (process_incident_signal_planning verify now alert_id inc c)
    as (Hr & Hp & Hl & Hcd).
  fold c1 in Hi, Hr, Hp, Hl, Hcd.
  assert (Hshape : (inc_urgency inc = CRITICAL ∨ inc_urgency inc = HIGH)
                   ∧ inc_status inc = inc_active ∧ assigned_resources inc = []).
  { revert Hinc. unfold image_incident.
    destruct (source_reference _ _ _ _); [|done].
    destruct (signal_location _ _ _); [|done].
    destruct (resolve_confidence _); [|done].
    intros [= <-]. simpl. split; [|done].
    destruct (img_damage_level (vision a).2) as [dl|]; simpl; [|by right].
    unfold DamageLevel_of_value.
    repeat case_decide; subst; simpl; try done; auto. }
  destruct Hshape as (Hu & Hs & Ha).
  unfold _maybe_generate_recommendations.
  assert (cooldown_elapsed now_p c1 = true) as ->.
  { unfold cooldown_elapsed in *. by rewrite Hl, Hcd. }
  simpl.
  rewrite bool_decide_eq_false_2.
  2:{ apply (critical_incidents_intro _ (inc_id inc) inc); try done.
      rewrite Hi. apply lookup_insert_eq. }
  rewrite bool_decide_eq_false_2.
  2:{ unfold pending_count in *. rewrite Hp. lia. }
  rewrite bool_decide_eq_false_2.
  2:{ unfold get_available_resources in *. by rewrite Hr. }
  eexists. split; [done|]. by split.
Qed.

(** X18. A reset does not clear the planning clock: after [reset_simulation]
    the planner stays silent until the cooldown counted from the last call
    before the reset has run out, whatever the new run puts into the
    graph. *)
Theorem reset_keeps_planning_cooldown t now stamp last f c :
  _last_planning_call c = Some last →
  now - last < _planning_cooldown_seconds c * 1000000 →
  _last_planning_call (reset_simulation t c) = Some last
  ∧ _maybe_generate_recommendations now stamp (on_graph f (reset_simulation t c))
    = (on_graph f (reset_simulation t c), false).
Proof.
  intros Hl Hlt. split; [done|].
  unfold _maybe_generate_recommendations.
  assert (cooldown_elapsed now (on_graph f (reset_simulation t c)) = false) as ->; [|done].
  apply not_true_is_false. rewrite cooldown_elapsed_spec. simpl. rewrite Hl. lia.
Qed.

(** X19. The detector changes nothing unless the analyzer answers
    CONTRADICTION or TEMPORAL_GAP: on any other verdict no alert is stored,
    no entity is marked handled and the claims stay where they are, so the
    same entities are put to the analyzer again by the next run. *)
Theorem detector_quiet_unless_adverse verify now id c :
  (∀ e claims, adverse (verify e claims) = false) →
  _check_contradictions verify now id c = c.
Proof.
  intros Hv. unfold _check_contradictions.
  generalize (signal_claims c) as snapshot.
  induction snapshot as [|[e ref] rest IH]; [done|].
  cbn [check_loop]. destruct (detector_guard c e ref); [|done].
  unfold detector_resume. by rewrite Hv.
Qed.

(** X20. When the operations of the coordinator run one after the other,
    every state reached from a fresh coordinator keeps the detector's
    alerts apart: each names an entity that is marked handled, and no
    entity has more than one that is unresolved. *)
Theorem detector_alerts_sequential c :
  reachable_atomically c →
  (∀ id a, id ∈ detector_alerts c →
     contradictions (graph (graph_manager c)) !! id = Some a →
     entity_name a ∈ handled_contradictions c)
  ∧ (∀ entity, (length (unresolved_detector_alerts entity c) ≤ 1)%nat).
Proof.
  intros Hr. pose proof (reachable_atomically_inv c Hr) as Hinv. split.
  - apply Hinv.
  - intros entity. by apply detector_inv_at_most_one.
Qed.

(** *** Every entity of [signal_claims] is bound to a list object *)

Lemma append_claims_refs_valid e new c :
  refs_valid c → refs_valid (append_claims e new c).
Proof.
  intros Hv e' ref. unfold append_claims.
  destruct (claims_ref e (signal_claims c)) as [r|] eqn:Hr; simpl.
  - rewrite length_insert. apply Hv.
  - rewrite claims_ref_app, length_app. simpl.
    destruct (claims_ref e' (signal_claims c)) as [r'|] eqn:Hr'.
    + intros [= <-]. apply Hv in Hr'. lia.
    + destruct (decide (e = e')); [|done]. intros [= <-]. lia.
Qed.

Lemma del_claims_refs_valid e c : refs_valid c → refs_valid (del_claims e c).
Proof.
  intros Hv e' ref. unfold del_claims. simpl. rewrite claims_ref_filter.
  destruct (decide (e' = e)); [done|]. apply Hv.
Qed.

Lemma update_graph_text_refs_valid now signal_id source_type claims c :
  refs_valid c → refs_valid (update_graph_text now signal_id source_type claims c).
Proof.
  unfold update_graph_text. destruct (simulation_running c); [done|].
  revert c. induction claims as [|cd claims IH]; intros c Hv; [done|].
  cbn [foldl]. apply IH. unfold accumulate_claim.
  destruct (truthy _); [|done]. destruct (decide _); [done|].
  by apply append_claims_refs_valid.
Qed.

Lemma detector_resume_refs_valid now id e ref ver c :
  refs_valid c → refs_valid (detector_resume now id e ref ver c).1.
Proof.
  intros Hv. unfold detector_resume. destruct (adverse ver); [|done].
  destruct (detector_alert _ _ _ _ _); simpl; by apply del_claims_refs_valid.
Qed.

Lemma check_loop_refs_valid verify now id snapshot c :
  refs_valid c → refs_valid (check_loop verify now id snapshot c).
Proof.
  revert c. induction snapshot as [|[e ref] rest IH]; intros c Hv; [done|].
  cbn [check_loop]. destruct (detector_guard c e ref); [|by apply IH].
  pose proof (detector_resume_refs_valid now id e ref (verify e (deref c ref)) c Hv).
  destruct (detector_resume now id e ref (verify e (deref c ref)) c) as [c' stop].
  simpl in *. destruct stop; [done | by apply IH].
Qed.

Lemma inject_contradiction_refs_valid verify now sim_time id data c :
  refs_valid c → refs_valid (_inject_contradiction verify now sim_time id data c).
Proof.
  intros Hv. unfold _inject_contradiction, inject_push.
  pose proof (append_claims_refs_valid (inject_entity data)
    (stamp_claim sim_time <$> inj_claims data) c Hv) as Hv1.
  set (c1 := append_claims _ _ c) in *.
  destruct (claims_ref _ (signal_claims c1)) as [ref|] eqn:Href; [|done].
  case_bool_decide; [|done].
  unfold inject_finish. rewrite Href. by apply del_claims_refs_valid.
Qed.

Lemma coordinator_step_refs_valid c c' :
  coordinator_step c c' → refs_valid c → refs_valid c'.
Proof.
  intros Hstep Hv. destruct Hstep.
  - by apply update_graph_text_refs_valid.
  - unfold process_incident_signal.
    destruct (simulation_running _); [done|]. by apply check_loop_refs_valid.
  - by apply inject_contradiction_refs_valid.
  - done.
  - done.
  - destruct (maybe_generate_fields now stamp c) as (_ & G2 & G3 & _).
    intros e ref. rewrite G2, G3. apply Hv.
  - done.
  - by intros e ref.
Qed.

Lemma reachable_atomically_refs_valid c : reachable_atomically c → refs_valid c.
Proof.
  intros [t0 Hr].
  assert (H0 : refs_valid (new_coordinator t0)) by (by intros e ref).
  revert H0. induction Hr as [|c1 c2 c3 Hstep _ IH]; [done|].
  intros H1. apply IH. by eapply coordinator_step_refs_valid.
Qed.

Lemma lookup_answer_none {A} (table : string → option A) fallback dflt v :
  lookup_answer table fallback dflt v = None ↔ ∃ b, v = JContainer b.
Proof.
  destruct v; simpl; split; try done; try (by intros [? ?]). by eexists.
Qed.

Lemma raw_temporal_none data v :
  raw_temporal data v = None ↔ v = JScalar true ∨ v = JContainer true.
Proof.
  destruct v as [| | s | [] | []]; simpl; split; try done;
    try (by intros [?|?]); try (by left); try (by right).
Qed.

Lemma raw_details_none v :
  raw_details v = None ↔ v ≠ JAbsent ∧ ∀ s, v ≠ JStr s.
Proof.
  destruct v as [| | s | b | b]; simpl; split; try done;
    try (by intros [? ?]).
  intros [_ H]. by destruct (H s).
Qed.

(** When the answer raises: a verdict or an action that is a list or a
    dict, an analysis that is neither a string nor false, or details that
    are given and not a string. *)
Lemma inject_alert_raw_none sim_time id data claims raw :
  inject_alert_raw sim_time id data claims raw = None ↔
    (∃ b, raw_verdict raw = JContainer b)
    ∨ (raw_temporal_analysis raw = JScalar true
       ∨ raw_temporal_analysis raw = JContainer true)
    ∨ (∃ b, raw_recommended_action raw = JContainer b)
    ∨ (raw_recommended_action_details raw ≠ JAbsent
       ∧ ∀ s, raw_recommended_action_details raw ≠ JStr s).
Proof.
  unfold inject_alert_raw.
  rewrite <- (lookup_answer_none verdict_map CONTRADICTION
                (default "CONTRADICTION" (inj_force_verdict data))).
  rewrite <- (raw_temporal_none data).
  rewrite <- (lookup_answer_none action_map REQUEST_VERIFICATION "REQUEST_VERIFICATION").
  rewrite <- raw_details_none.
  destruct (lookup_answer verdict_map CONTRADICTION
              (default "CONTRADICTION" (inj_force_verdict data)) (raw_verdict raw)),
    (raw_temporal data (raw_temporal_analysis raw)),
    (lookup_answer action_map REQUEST_VERIFICATION "REQUEST_VERIFICATION"
       (raw_recommended_action raw)),
    (raw_details (raw_recommended_action_details raw));
    split; intros H; try done; try tauto; by destruct H as [?|[?|[?|?]]].
Qed.

Lemma inject_alert_raw_fields sim_time id data claims raw a :
  inject_alert_raw sim_time id data claims raw = Some a →
  alert_id a = id ∧ entity_name a = inject_entity data ∧ severity a = sev_high
  ∧ resolved a = false ∧ alert_claims a = claims.
Proof.
  unfold inject_alert_raw.
  destruct (lookup_answer verdict_map CONTRADICTION
              (default "CONTRADICTION" (inj_force_verdict data)) (raw_verdict raw)),
    (raw_temporal data (raw_temporal_analysis raw)),
    (lookup_answer action_map REQUEST_VERIFICATION "REQUEST_VERIFICATION"
       (raw_recommended_action raw)),
    (raw_details (raw_recommended_action_details raw)); try done.
  by intros [= <-].
Qed.

(** On an answer whose keys are absent or strings the alert is the one of
    [inject_alert]. *)
Lemma inject_alert_raw_typed sim_time id data claims ver :
  inject_alert_raw sim_time id data claims (raw_of ver)
  = Some (inject_alert sim_time id data claims ver).
Proof.
  unfold inject_alert_raw, inject_alert, inject_verdict_str, raw_of.
  destruct ver as [v et ca sv ta ra rd u]. cbn [raw_verdict raw_temporal_analysis
    raw_recommended_action raw_recommended_action_details ver_verdict
    ver_temporal_analysis ver_recommended_action ver_recommended_action_details].
  destruct v, ta as [t|], ra, rd; cbn [raw_of_opt lookup_answer raw_temporal raw_details default];
    try destruct (truthy t); reflexivity.
Qed.

Lemma inject_contradiction_raw_typed verify now sim_time id data c :
  _inject_contradiction_raw (λ e claims, Some (raw_of (verify e claims)))
    now sim_time id data c
  = _inject_contradiction verify now sim_time id data c.
Proof.
  unfold _inject_contradiction_raw, _inject_contradiction.
  destruct (claims_ref _ _) as [ref|] eqn:Href; [|done].
  destruct (bool_decide _); [|done].
  unfold inject_finish_raw, inject_finish. rewrite Href.
  cbn [mbind option_bind]. by rewrite inject_alert_raw_typed.
Qed.

(** The bridge injection on a state in which the bridge is handled, with
    the answer of the offline analyzer: a second alert is stored. *)
Example injection_on_handled_entity :
  let c := _inject_contradiction_raw (λ e claims, Some (raw_of (fallback_verify e claims)))
             4000 32000000 "alert_9" bridge_inject bridge_handled in
  bridge ∈ handled_contradictions bridge_handled
  ∧ is_Some (contradictions (graph (graph_manager bridge_handled)) !! "alert_1")
  ∧ is_Some (contradictions (graph (graph_manager c)) !! "alert_1")
  ∧ is_Some (contradictions (graph (graph_manager c)) !! "alert_9").
Proof.
  cbn zeta. rewrite inject_contradiction_raw_typed.
  split; [vm_compute; set_solver|].
  split; [vm_compute; eauto|]. split; vm_compute; eauto.
Qed.

(** X21. A scripted injection with at least two claims does not apply the
    guard of the detector: whether or not the entity is already marked
    handled, the analyzer is asked about the accumulated claims, which end
    with the scripted ones.  When the alert can be built from its answer,
    the alert (unresolved, of severity high, over those claims) is stored
    under the identifier drawn for it and the entity is handled.  When the
    analyzer raises or the constructor rejects the answer (a verdict or an
    action that is a list or a dict, an analysis that is neither a string
    nor false, details that are given and not a string), no alert is
    stored and the handled set is left as it was.  In both cases the other
    alerts are kept and the claims of the entity are dropped. *)
Theorem injection_ignores_handled verify now sim_time id data c :
  refs_valid c →
  (2 ≤ length (inj_claims data))%nat →
  let e := inject_entity data in
  let c' := _inject_contradiction_raw verify now sim_time id data c in
  ∃ claims,
    (∃ old, claims = (old ++ (stamp_claim sim_time <$> inj_claims data))%list)
    ∧ has_claims e c' = false
    ∧ (∀ id', id' ≠ id →
         contradictions (graph (graph_manager c')) !! id' =
         contradictions (graph (graph_manager c)) !! id')
    ∧ (∀ a, verify e claims ≫= inject_alert_raw sim_time id data claims = Some a →
         contradictions (graph (graph_manager c')) !! id = Some a
         ∧ e ∈ handled_contradictions c'
         ∧ entity_name a = e ∧ severity a = sev_high ∧ resolved a = false
         ∧ alert_claims a = claims)
    ∧ (verify e claims ≫= inject_alert_raw sim_time id data claims = None →
         graph_manager c' = graph_manager c
         ∧ handled_contradictions c' = handled_contradictions c)
    ∧ (∀ raw, inject_alert_raw sim_time id data claims raw = None ↔
         (∃ b, raw_verdict raw = JContainer b)
         ∨ (raw_temporal_analysis raw = JScalar true
            ∨ raw_temporal_analysis raw = JContainer true)
         ∨ (∃ b, raw_recommended_action raw = JContainer b)
         ∨ (raw_recommended_action_details raw ≠ JAbsent
            ∧ ∀ s, raw_recommended_action_details raw ≠ JStr s)).
Proof.
  intros Hv Hlen. cbn zeta. unfold _inject_contradiction_raw, inject_push.
  destruct (append_claims_ref (inject_entity data)
              (stamp_claim sim_time <$> inj_claims data) c Hv) as (ref & Href & Hd).
  assert (Hg : graph_manager (append_claims (inject_entity data)
                 (stamp_claim sim_time <$> inj_claims data) c) = graph_manager c)
    by apply append_claims_graph_manager.
  assert (Hh : handled_contradictions (append_claims (inject_entity data)
                 (stamp_claim sim_time <$> inj_claims data) c) = handled_contradictions c)
    by apply append_claims_handled.
  set (c1 := append_claims _ _ c) in *.
  rewrite Href. rewrite bool_decide_eq_true_2.
  2:{ rewrite Hd, length_app, length_fmap. lia. }
  unfold inject_finish_raw. rewrite Href.
  exists (deref c1 ref).
  split; [rewrite Hd; by eexists|].
  assert (Hdel : ∀ c2, signal_claims c2 = signal_claims c1 →
            has_claims (inject_entity data) (del_claims (inject_entity data) c2) = false).
  { intros c2 Hc2. unfold has_claims. simpl. rewrite claims_ref_filter, decide_True by done.
    apply bool_decide_eq_false_2. by intros [? ?]. }
  destruct (verify (inject_entity data) (deref c1 ref)
              ≫= inject_alert_raw sim_time id data (deref c1 ref)) as [alert|] eqn:Halert.
  - split; [by apply Hdel|].
    split.
    { intros id' Hne. simpl. rewrite lookup_insert_ne; [by rewrite Hg|].
      destruct (verify _ _) as [raw|]; [|done]. simpl in Halert.
      apply inject_alert_raw_fields in Halert as (-> & _). done. }
    split.
    { intros a [= <-].
      destruct (verify _ _) as [raw|]; [|done]. simpl in Halert.
      apply inject_alert_raw_fields in Halert as (Hid & Hn & Hs & Hr & Hcl).
      split_and!; try done.
      - simpl. rewrite Hid. apply lookup_insert_eq.
      - simpl. apply elem_of_union. left. by apply elem_of_singleton. }
    split; [done|]. intros raw. apply inject_alert_raw_none.
  - split; [by apply Hdel|].
    split; [intros id' _; simpl; by rewrite Hg|].
    split; [done|].
    split; [intros _; simpl; by rewrite Hg, Hh|].
    intros raw. apply inject_alert_raw_none.
Qed.

(* ===================================================================== *)
(** ** Python string primitives, continued *)
(* ===================================================================== *)

Module PyTextFacts.
Import PyText.

Lemma lstrip_by_lstripped P s : lstripped P (lstrip_by P s).
Proof.
  induction s as [|c s IH]; simpl; [done|].
  destruct (P c) eqn:Hc; [done|]. simpl. exact Hc.
Qed.

Lemma lstrip_by_id P s : lstripped P s → lstrip_by P s = s.
Proof. destruct s as [|c s]; simpl; [done|]. by intros ->. Qed.

Lemma rstrip_by_lstripped P s : lstripped P s → lstripped P (rstrip_by P s).
Proof.
  destruct s as [|c s]; simpl; [done|]. intros Hc.
  destruct (rstrip_by P s); simpl; [by rewrite Hc | done].
Qed.

Lemma rstrip_by_idemp P s : rstrip_by P (rstrip_by P s) = rstrip_by P s.
Proof.
  induction s as [|c s IH]; simpl; [done|].
  destruct (rstrip_by P s) as [|d r] eqn:Hr.
  - destruct (P c) eqn:Hc; simpl; [done|]. by rewrite Hc.
  - cbn [rstrip_by]. cbn [rstrip_by] in IH. by rewrite IH.
Qed.

Lemma strip_idemp s : strip (strip s) = strip s.
Proof.
  unfold strip.
  rewrite (lstrip_by_id isspace (rstrip_by isspace (lstrip_by isspace s))).
  - apply rstrip_by_idemp.
  - apply rstrip_by_lstripped, lstrip_by_lstripped.
Qed.

Lemma append_nil_l s : "" +:+ s = s.
Proof. done. Qed.

Lemma append_cons c s t : String c s +:+ t = String c (s +:+ t).
Proof. done. Qed.

(** [rstrip] leaves a prefix and takes only characters that satisfy [P]. *)
Lemma rstrip_by_app P s :
  ∃ t, s = rstrip_by P s +:+ t
     ∧ Forall (λ c, P c = true) (list_ascii_of_string t).
Proof.
  induction s as [|c s (t & IH & Ht)]; cbn [rstrip_by].
  - by exists "".
  - destruct (rstrip_by P s) as [|d r] eqn:Hr.
    + rewrite append_nil_l in IH. subst t.
      destruct (P c) eqn:Hc.
      * exists (String c s). split; [done|]. simpl. by constructor.
      * exists s. by rewrite append_cons, append_nil_l.
    + exists t. by rewrite append_cons, <- IH.
Qed.

(** What [rstrip] returns does not end with a character that satisfies
    [P]. *)
Lemma rstrip_by_last P s r c :
  rstrip_by P s = r +:+ String c "" → P c = false.
Proof.
  revert r. induction s as [|a s IH]; intros r; cbn [rstrip_by].
  - destruct r; [rewrite append_nil_l | rewrite append_cons]; done.
  - destruct (rstrip_by P s) as [|d u] eqn:Hu.
    + destruct (P a) eqn:Ha.
      * destruct r; [rewrite append_nil_l | rewrite append_cons]; done.
      * destruct r as [|b r]; [rewrite append_nil_l | rewrite append_cons].
        -- by intros [= <-].
        -- intros [= _ H]. destruct r; [rewrite append_nil_l in H | rewrite append_cons in H]; done.
    + destruct r as [|b r]; [rewrite append_nil_l | rewrite append_cons].
      * intros [= ].
      * intros [= _ H]. by apply (IH r).
Qed.

End PyTextFacts.

(* ===================================================================== *)
(** ** The debate *)
(* ===================================================================== *)

Lemma gemini_role_invalid r : DebateRole_of_value (gemini_role r) = None.
Proof. unfold gemini_role. by destruct (decide (r = "user")). Qed.

Lemma fallback_turn_confidence now n :
  (0 <= dt_confidence (_fallback_turn now n) <= 1)%Q.
Proof.
  unfold _fallback_turn, fallbacks.
  repeat case_decide; simpl; split; by apply Qle_bool_iff.
Qed.

Lemma fallback_turn_stripped now n :
  PyText.strip (argument (_fallback_turn now n)) = argument (_fallback_turn now n).
Proof.
  unfold _fallback_turn, fallbacks.
  repeat case_decide; vm_compute; reflexivity.
Qed.

Lemma run_turn_history generate float now system user_msg history n agent_name role :
  history ≠ [] →
  _run_turn generate float now system user_msg history n agent_name role
  = _fallback_turn now n.
Proof.
  intros Hne. unfold _run_turn.
  destruct (generate _ _) as [text|]; [|done].
  assert (Hrole : ∃ r, foldl (λ _ msg, gemini_role msg.1) role history = gemini_role r).
  { destruct (exists_last Hne) as (h & m & ->).
    rewrite foldl_app. simpl. by eexists. }
  destruct Hrole as [r ->].
  unfold DebateTurn_new. by rewrite gemini_role_invalid.
Qed.

Lemma run_turn_cases generate float now system user_msg history n agent_name role :
  let t := _run_turn generate float now system user_msg history n agent_name role in
  t = _fallback_turn now n
  ∨ (history = []
     ∧ ∃ text, generate system [("user", user_msg)] = Some text
         ∧ argument t = drop_confidence_lines (strip_markers text)
         ∧ turn_confidence float text = Some (dt_confidence t)
         ∧ (0 <= dt_confidence t <= 1)%Q
         ∧ DebateRole_of_value role = Some (dt_role t)
         ∧ dt_agent_name t = agent_name
         ∧ turn_number t = n
         ∧ dt_timestamp t = now).
Proof.
  cbn zeta. destruct history as [|m history].
  - unfold _run_turn. simpl.
    destruct (generate _ _) as [text|] eqn:Hg; [|by left].
    unfold DebateTurn_new.
    destruct (DebateRole_of_value role) as [r|] eqn:Hr; [|by left].
    destruct (turn_confidence float text) as [q|] eqn:Hc; [|by left].
    destruct (in_unit q) eqn:Hq; [|by left].
    right. split; [done|]. exists text. simpl.
    apply in_unit_spec in Hq. repeat split; try done; apply Hq.
  - left. by apply run_turn_history.
Qed.

(** X22. A debate turn run with a history never shows the model's answer:
    the loop over the history overwrites [role] with "user" or "model",
    which the constructor of the turn rejects, so whatever the model answers
    (or if it fails) the pre-written turn of that number is returned. *)
Theorem run_turn_with_history_is_scripted generate float now system user_msg
    history n agent_name role :
  history ≠ [] →
  _run_turn generate float now system user_msg history n agent_name role
  = _fallback_turn now n.
Proof. apply run_turn_history. Qed.


(** X24. Every turn that [_run_turn] returns has the requested number, a
    confidence in [0, 1] and an argument without surrounding white space.
    With an empty history, an answer of the model, a role that is one of
    the four and a confidence read from the answer (0.72 when it gives none
    that parses) that lies in [0, 1], the turn is the model's: its argument
    is the answer without its markers and CONFIDENCE lines, under the given
    agent, role and clock.  In every other case (a history, no answer,
    another role, a confidence that is not finite or out of range) it is
    the pre-written turn of that number. *)
Theorem run_turn_result generate float now system user_msg history n agent_name role :
  let t := _run_turn generate float now system user_msg history n agent_name role in
  turn_number t = n
  ∧ (0 <= dt_confidence t <= 1)%Q
  ∧ PyText.strip (argument t) = argument t
  ∧ (∀ text r q,
       history = [] →
       generate system [("user", user_msg)] = Some text →
       DebateRole_of_value role = Some r →
       turn_confidence float text = Some q →
       in_unit q = true →
       t = mkDebateTurn n agent_name r (drop_confidence_lines (strip_markers text)) q now)
  ∧ (history ≠ []
     ∨ generate system [("user", user_msg)] = None
     ∨ DebateRole_of_value role = None
     ∨ (∃ text, generate system [("user", user_msg)] = Some text
          ∧ ∀ q, turn_confidence float text = Some q → in_unit q = false) →
     t = _fallback_turn now n).
Proof.
  cbn zeta.
  split; [|split; [|split; [|split]]].
  - destruct (run_turn_cases generate float now system user_msg history n agent_name role)
      as [-> | (_ & text & _ & _ & _ & _ & _ & _ & Hnum & _)]; done.
  - destruct (run_turn_cases generate float now system user_msg history n agent_name role)
      as [-> | (_ & text & _ & _ & _ & Hq & _)];
      [apply fallback_turn_confidence | done].
  - destruct (run_turn_cases generate float now system user_msg history n agent_name role)
      as [-> | (_ & text & _ & Ha & _)]; [apply fallback_turn_stripped|].
    rewrite Ha. unfold drop_confidence_lines. apply PyTextFacts.strip_idemp.
  - intros text r q -> Hg Hr Hc Hq. unfold _run_turn. cbn [foldl fmap list_fmap app].
    rewrite Hg. unfold DebateTurn_new. by rewrite Hr, Hc, Hq.
  - intros [Hh | [Hg | [Hr | (text & Hg & Hc)]]].
    + by apply run_turn_history.
    + destruct history as [|m history]; [|by apply run_turn_history].
      unfold _run_turn. cbn [foldl fmap list_fmap app]. by rewrite Hg.
    + destruct history as [|m history]; [|by apply run_turn_history].
      unfold _run_turn. cbn [foldl fmap list_fmap app].
      destruct (generate _ _); [|done]. unfold DebateTurn_new. by rewrite Hr.
    + destruct history as [|m history]; [|by apply run_turn_history].
      unfold _run_turn. cbn [foldl fmap list_fmap app]. rewrite Hg.
      unfold DebateTurn_new. destruct (DebateRole_of_value role); [|done].
      destruct (turn_confidence float text) as [q|]; [|done].
      by rewrite (Hc q eq_refl).
Qed.

(* ===================================================================== *)
(** ** Loading the initial resources *)
(* ===================================================================== *)

Lemma initial_resource_id now fresh h1 h2 ty item r :
  initial_resource now fresh h1 h2 ty item = Some r →
  res_id r = match item_id item with Present s => s | _ => fresh end.
Proof.
  unfold initial_resource, item_ids_of.
  destruct (item_id item); simpl; [|done|];
    destruct (item_status_of item); try done;
    destruct (item_personnel_of item); try done;
    by intros [= <-].
Qed.

Lemma load_items_frame now ty items m :
  let r := load_items now ty items m in
  incidents (graph r.1) = incidents (graph m)
  ∧ contradictions (graph r.1) = contradictions (graph m)
  ∧ pending_actions (graph r.1) = pending_actions (graph m)
  ∧ audit_log r.1 = audit_log m
  ∧ (∀ id, is_Some (resources (graph m) !! id) → is_Some (resources (graph r.1) !! id))
  ∧ (∀ id, is_Some (resources (graph r.1) !! id) →
       is_Some (resources (graph m) !! id) ∨ id ∈ item_ids items)
  ∧ (r.2 = true → ∀ id, id ∈ item_ids items → is_Some (resources (graph r.1) !! id)).
Proof.
  cbn zeta. revert m. induction items as [|[[[item fresh] h1] h2] rest IH]; intros m.
  - simpl. split_and!; try done; try (by left).
    intros _ id Hin. by apply elem_of_nil in Hin.
  - cbn [load_items].
    destruct (initial_resource now fresh h1 h2 ty item) as [r|] eqn:Hr.
    + destruct (IH (add_resource now r m)) as (H1 & H2 & H3 & H4 & H5 & H6 & H7).
      pose proof (initial_resource_id _ _ _ _ _ _ _ Hr) as Hid.
      split_and!; try done.
      * intros id Hm. apply H5. simpl.
        destruct (decide (res_id r = id)) as [->|Hne];
          [by rewrite lookup_insert_eq | by rewrite lookup_insert_ne].
      * intros id Hin. destruct (H6 id Hin) as [Hm | Hrest].
        -- simpl in Hm. destruct (decide (res_id r = id)) as [<-|Hne].
           ++ right. unfold item_ids. rewrite fmap_cons. simpl.
              rewrite Hid. apply elem_of_cons. by left.
           ++ left. by rewrite lookup_insert_ne in Hm.
        -- right. unfold item_ids. rewrite fmap_cons. apply elem_of_cons. by right.
      * intros Hok id Hin. unfold item_ids in Hin. rewrite fmap_cons in Hin.
        apply elem_of_cons in Hin as [-> | Hin].
        -- apply H5. simpl. rewrite <- Hid. by rewrite lookup_insert_eq.
        -- by apply H7.
    + simpl. split_and!; try done; by left.
Qed.

Lemma resource_coord_bounds sector h :
  let base := resource_locations sector in
  (Q_of_float base.1 - (125 # 10000) - (1 # 1000000000000)
     <= offset_coord base.1 0.0005 (h mod 50 - 25)
     <= Q_of_float base.1 + (12 # 1000) + (1 # 1000000000000))%Q
  ∧ (Q_of_float base.2 - (125 # 10000) - (1 # 1000000000000)
     <= offset_coord base.2 0.0005 (h mod 50 - 25)
     <= Q_of_float base.2 + (12 # 1000) + (1 # 1000000000000))%Q.
Proof.
  cbn zeta. pose proof (Z.mod_pos_bound h 50 eq_refl) as Hb.
  unfold resource_locations.
  repeat case_decide; cbn [fst snd]; split; apply between_spec;
    apply (check_range (λ k, between _ _ (offset_coord _ _ (k - 25))) 50);
    solve [vm_compute; reflexivity | done].
Qed.

(** X25. A resource built from a scenario item: its type is the key of the
    scenario without all its trailing "s" (so "ambulances" gives
    "ambulance" and "glass" would give "gla"); it carries no assignment, no
    destination and no arrival time; it is available unless the item says
    otherwise; and its coordinates, computed in binary64, lie from 0.0125
    degrees below to 0.012 degrees above the base of its sector, up to
    10^-12. *)
Theorem initial_resource_shape now fresh h1 h2 ty item r :
  initial_resource now fresh h1 h2 ty item = Some r →
  (∃ t, ty = resource_type r +:+ t
      ∧ Forall (λ c, c = "s"%char) (list_ascii_of_string t))
  ∧ (∀ pre, resource_type r ≠ pre +:+ "s")
  ∧ assigned_incident r = None
  ∧ destination r = None
  ∧ eta_minutes r = None
  ∧ capacity_remaining r = 2
  ∧ (item_status item = Absent → res_status r = res_available)
  ∧ (item_personnel item = Absent → personnel r = 2)
  ∧ (∀ id, item_id item = Present id → res_id r = id ∧ unit_id r = id)
  ∧ (item_id item = Absent → res_id r = fresh ∧ unit_id r = "UNIT-?")
  ∧ sector (current_location r) = Some (item_sector_str item)
  ∧ (let base := resource_locations (item_sector_str item) in
     (Q_of_float base.1 - (125 # 10000) - (1 # 1000000000000)
        <= lat (current_location r)
        <= Q_of_float base.1 + (12 # 1000) + (1 # 1000000000000))%Q
     ∧ (Q_of_float base.2 - (125 # 10000) - (1 # 1000000000000)
        <= lng (current_location r)
        <= Q_of_float base.2 + (12 # 1000) + (1 # 1000000000000))%Q).
Proof.
  unfold initial_resource.
  destruct (item_ids_of fresh item) as [[id unit]|] eqn:Hi; [|done].
  destruct (item_status_of item) as [st|] eqn:Hs; [|done].
  destruct (item_personnel_of item) as [p|] eqn:Hp; [|done].
  intros [= <-].
  cbn [resource_type assigned_incident destination eta_minutes capacity_remaining
       res_status personnel res_id unit_id current_location sector lat lng fst snd].
  destruct (resource_coord_bounds (item_sector_str item) h1) as [B1 _].
  destruct (resource_coord_bounds (item_sector_str item) h2) as [_ B2].
  split.
  { destruct (PyTextFacts.rstrip_by_app (λ c, bool_decide (c = "s"%char)) ty)
      as (t & Ht & Hall).
    exists t. split; [done|].
    eapply Forall_impl; [exact Hall|]. intros c Hc. by apply bool_decide_eq_true in Hc. }
  split.
  { intros pre Hpre.
    apply PyTextFacts.rstrip_by_last in Hpre. by apply bool_decide_eq_false in Hpre. }
  do 4 (split; [done|]).
  split.
  { intros Ha. unfold item_status_of in Hs. rewrite Ha in Hs. congruence. }
  split.
  { intros Ha. unfold item_personnel_of in Hp. rewrite Ha in Hp. congruence. }
  split.
  { intros id' Ha. unfold item_ids_of in Hi. rewrite Ha in Hi.
    injection Hi as <- <-. done. }
  split.
  { intros Ha. unfold item_ids_of in Hi. rewrite Ha in Hi.
    injection Hi as <- <-. done. }
  split; [done|].
  split; [exact B1 | exact B2].
Qed.

(** X26. Loading the initial resources touches nothing but the resources:
    incidents, alerts and pending actions are kept and no audit event is
    written.  No resource is removed; every resource found afterwards was
    there before or is one of the items; and when no item is rejected every
    item is in the graph under its identifier. *)
Theorem load_initial_resources_spec now data m :
  let r := _load_initial_resources now data m in
  incidents (graph r.1) = incidents (graph m)
  ∧ contradictions (graph r.1) = contradictions (graph m)
  ∧ pending_actions (graph r.1) = pending_actions (graph m)
  ∧ audit_log r.1 = audit_log m
  ∧ (∀ id, is_Some (resources (graph m) !! id) → is_Some (resources (graph r.1) !! id))
  ∧ (∀ id, is_Some (resources (graph r.1) !! id) →
       is_Some (resources (graph m) !! id) ∨ id ∈ loaded_ids data)
  ∧ (r.2 = true → ∀ id, id ∈ loaded_ids data → is_Some (resources (graph r.1) !! id)).
Proof.
  cbn zeta. revert m. induction data as [|[ty [items|]] rest IH]; intros m.
  - simpl. split_and!; try done; try (by left).
    intros _ id Hin. by apply elem_of_nil in Hin.
  - cbn [_load_initial_resources]. cbn zeta.
    destruct (load_items_frame now ty items m) as (L1 & L2 & L3 & L4 & L5 & L6 & L7).
    assert (Hids : ∀ id, id ∈ loaded_ids ((ty, Some items) :: rest)
                     ↔ id ∈ item_ids items ∨ id ∈ loaded_ids rest).
    { intros id. unfold loaded_ids. rewrite bind_cons. simpl. apply elem_of_app. }
    destruct (load_items now ty items m) as [m1 ok] eqn:Hload. simpl in *.
    destruct ok.
    + destruct (IH m1) as (H1 & H2 & H3 & H4 & H5 & H6 & H7).
      split_and!; try congruence.
      * intros id Hm. by apply H5, L5.
      * intros id Hin. rewrite Hids. destruct (H6 id Hin) as [Hm | Hr]; [|by auto].
        destruct (L6 id Hm); by auto.
      * intros Hok id Hin. apply Hids in Hin as [Hin | Hin].
        -- by apply H5, L7.
        -- by apply H7.
    + split_and!; try done.
      intros id Hin. rewrite Hids. destruct (L6 id Hin); by auto.
  - cbn [_load_initial_resources].
    assert (Hids : loaded_ids ((ty, None) :: rest) = loaded_ids rest).
    { unfold loaded_ids. by rewrite bind_cons. }
    rewrite Hids. apply IH.
Qed.

(* ===================================================================== *)
(** ** The brace scan *)
(* ===================================================================== *)

Lemma balance_app s t : balance (s +:+ t) = balance s + balance t.
Proof.
  induction s as [|c s IH]; [done|].
  rewrite PyTextFacts.append_cons. cbn [balance]. rewrite IH. lia.
Qed.

Lemma from_first_brace_spec text s :
  from_first_brace text = Some s →
  ∃ pre rest, text = pre +:+ s ∧ s = String "{"%char rest
    ∧ Forall (λ c, c ≠ "{"%char) (list_ascii_of_string pre).
Proof.
  induction text as [|ch text IH]; simpl; [done|].
  destruct (decide (ch = "{"%char)) as [->|Hne].
  - intros [= <-]. by exists "", text.
  - intros Hs. destruct (IH Hs) as (pre & rest & -> & -> & Hpre).
    exists (String ch pre), rest. split; [done|]. split; [done|].
    simpl. by constructor.
Qed.

Lemma from_first_brace_none text :
  from_first_brace text = None ↔
  Forall (λ c, c ≠ "{"%char) (list_ascii_of_string text).
Proof.
  induction text as [|ch text IH]; simpl; [done|].
  destruct (decide (ch = "{"%char)) as [->|Hne].
  - split; [done|]. intros H. by apply Forall_cons in H as [H _].
  - rewrite IH. split; [by constructor|]. intros H. by apply Forall_cons in H as [_ H].
Qed.

(** The scan started at a positive depth stops at the first position that
    brings the depth back to 0. *)
Lemma scan_candidate_spec depth s c :
  1 ≤ depth →
  scan_candidate depth s = Some c →
  (∃ post, s = c +:+ post)
  ∧ depth + balance c = 0
  ∧ (∃ pre, c = pre +:+ "}")
  ∧ (∀ p q, c = p +:+ q → q ≠ "" → 1 ≤ depth + balance p).
Proof.
  revert depth c. induction s as [|ch s IH]; intros depth c Hd; simpl; [done|].
  assert (Hcons : ∀ d' c', 1 ≤ d' →
            d' = depth + balance (String ch "") →
            scan_candidate d' s = Some c' →
            (∃ post, String ch s = String ch c' +:+ post)
            ∧ depth + balance (String ch c') = 0
            ∧ (∃ pre, String ch c' = pre +:+ "}")
            ∧ (∀ p q, String ch c' = p +:+ q → q ≠ "" → 1 ≤ depth + balance p)).
  { intros d' c' Hd' Hbal Hc'.
    destruct (IH d' c' Hd' Hc') as ((post & ->) & Hb & (pre & Hpre) & Hmin).
    cbn [balance] in Hbal |- *. split_and!.
    - by exists post.
    - lia.
    - exists (String ch pre). by rewrite PyTextFacts.append_cons, <- Hpre.
    - intros p q Hpq Hq. destruct p as [|a p].
      + simpl. lia.
      + rewrite PyTextFacts.append_cons in Hpq. injection Hpq as <- Hpq.
        specialize (Hmin p q Hpq Hq). cbn [balance]. lia. }
  destruct (decide (ch = "{"%char)) as [->|Hopen].
  - destruct (scan_candidate (depth + 1) s) as [c'|] eqn:Hc'; [|done].
    simpl. intros [= <-]. apply (Hcons (depth + 1)); [lia | | done].
    cbn [balance]. rewrite decide_True by done. lia.
  - destruct (decide (ch = "}"%char)) as [->|Hclose].
    + destruct (decide (depth - 1 = 0)) as [Hz|Hnz].
      * intros [= <-]. cbn [balance].
        rewrite decide_False, decide_True by done. split_and!.
        -- by exists s.
        -- lia.
        -- by exists "".
        -- intros p q Hpq Hq. destruct p as [|a p]; [simpl; lia|].
           rewrite PyTextFacts.append_cons in Hpq. injection Hpq as <- Hpq.
           destruct p; [|done]. by rewrite PyTextFacts.append_nil_l in Hpq.
      * destruct (scan_candidate (depth - 1) s) as [c'|] eqn:Hc'; [|done].
        simpl. intros [= <-]. apply (Hcons (depth - 1)); [lia | | done].
        cbn [balance]. rewrite decide_False, decide_True by done. lia.
    + destruct (scan_candidate depth s) as [c'|] eqn:Hc'; [|done].
      simpl. intros [= <-]. apply (Hcons depth); [lia | | done].
      cbn [balance]. rewrite !decide_False by done. lia.
Qed.

(** X27. The candidate that the brace scan of [_extract_json] hands to the
    parser starts at the first "{" of the text and ends at the first "}"
    that closes as many braces as were opened, braces inside JSON strings
    counted like any other; every shorter piece still has an open brace.
    Only this one candidate is tried: a text without "{" gives nothing, and
    when the candidate does not parse, even after cleaning, nothing that
    follows it is looked at. *)
Theorem extract_by_scan_spec {J} (loads : string → option J) clean text :
  match brace_candidate text with
  | None => extract_by_scan loads clean text = None
  | Some c =>
      (∃ pre post rest, text = pre +:+ c +:+ post
         ∧ Forall (λ ch, ch ≠ "{"%char) (list_ascii_of_string pre)
         ∧ c = String "{"%char rest)
      ∧ (∃ body, c = body +:+ "}")
      ∧ balance c = 0
      ∧ (∀ p q, c = p +:+ q → p ≠ "" → q ≠ "" → 1 ≤ balance p)
      ∧ extract_by_scan loads clean text =
          match loads c with Some j => Some j | None => loads (clean c) end
  end
  ∧ (Forall (λ ch, ch ≠ "{"%char) (list_ascii_of_string text) →
       extract_by_scan loads clean text = None).
Proof.
  split.
  - unfold extract_by_scan.
    destruct (brace_candidate text) as [c|] eqn:Hc; [|done].
    unfold brace_candidate in Hc.
    destruct (from_first_brace text) as [s|] eqn:Hs; [|done]. simpl in Hc.
    destruct (from_first_brace_spec text s Hs) as (pre & rest & -> & -> & Hpre).
    cbn [scan_candidate] in Hc. rewrite decide_True in Hc by done.
    destruct (scan_candidate (0 + 1) rest) as [c'|] eqn:Hc'; [|done].
    simpl in Hc. injection Hc as <-.
    destruct (scan_candidate_spec (0 + 1) rest c' ltac:(lia) Hc')
      as ((post & ->) & Hb & (body & Hbody) & Hmin).
    split_and!; try done.
    + exists pre, post, c'. by rewrite PyTextFacts.append_cons.
    + exists (String "{"%char body). by rewrite PyTextFacts.append_cons, <- Hbody.
    + intros p q Hpq Hp Hq. destruct p as [|a p]; [done|].
      rewrite PyTextFacts.append_cons in Hpq. injection Hpq as <- Hpq.
      specialize (Hmin p q Hpq Hq).
      change (balance (String "{"%char p)) with (1 + balance p). lia.
  - intros Hno. apply from_first_brace_none in Hno.
    unfold extract_by_scan, brace_candidate. by rewrite Hno.
Qed.

(* ===================================================================== *)
(** ** Deliberation *)
(* ===================================================================== *)

Section DeliberationFacts.

Context {V : Type} (str : V → string).

Lemma agree_all (values : list V) v w :
  agree str values = true → v ∈ values → w ∈ values → str v = str w.
Proof.
  unfold agree. intros Hs Hv Hw. apply bool_decide_eq_true in Hs.
  apply size_1_elem_of in Hs as [x Hx].
  assert (Hin : ∀ u, u ∈ values → str u = x).
  { intros u Hu.
    assert (H : str u ∈ (list_to_set (str <$> values) : gset string)).
    { apply elem_of_list_to_set, list_elem_of_fmap. by exists u. }
    rewrite Hx in H. by apply elem_of_singleton in H. }
  by rewrite (Hin v Hv), (Hin w Hw).
Qed.

Lemma agree_single (v : V) : agree str [v] = true.
Proof.
  unfold agree. apply bool_decide_eq_true.
  rewrite fmap_cons, fmap_nil, list_to_set_cons, list_to_set_nil, union_empty_r_L.
  apply size_singleton.
Qed.

Lemma agree_nil : agree str ([] : list V) = false.
Proof.
  unfold agree. apply bool_decide_eq_false.
  by rewrite fmap_nil, list_to_set_nil, size_empty.
Qed.

Lemma key_values_elem key (outputs : list (AgentOutput V)) v :
  v ∈ key_values key outputs ↔ ∃ o, o ∈ outputs ∧ ao_data o !! key = Some v.
Proof. unfold key_values. by rewrite list_elem_of_omap. Qed.

Lemma step_consensus outputs acc key k :
  (deliberate_step str outputs acc key).1 !! k =
  if decide (key = k) then
    if agree str (key_values k outputs)
    then head (key_values k outputs)
    else acc.1 !! k
  else acc.1 !! k.
Proof.
  unfold deliberate_step.
  destruct (decide (key = k)) as [->|Hne].
  - destruct (agree str (key_values k outputs)) eqn:Ha; [|done].
    destruct (key_values k outputs) as [|v vs] eqn:Hv.
    + by rewrite agree_nil in Ha.
    + simpl. by rewrite lookup_insert_eq.
  - destruct (agree str (key_values key outputs)); [|done].
    destruct (key_values key outputs); [done|]. simpl.
    by rewrite lookup_insert_ne.
Qed.

Lemma fold_consensus outputs keys acc k :
  (foldl (deliberate_step str outputs) acc keys).1 !! k =
  if decide (k ∈ keys) then
    if agree str (key_values k outputs)
    then head (key_values k outputs)
    else acc.1 !! k
  else acc.1 !! k.
Proof.
  revert acc. induction keys as [|key keys IH]; intros acc.
  - cbn [foldl]. by rewrite decide_False by apply not_elem_of_nil.
  - cbn [foldl]. rewrite IH, step_consensus.
    destruct (decide (k ∈ keys)) as [Hin|Hnin].
    + rewrite (decide_True (P := k ∈ key :: keys)) by (apply elem_of_cons; by right).
      destruct (agree str (key_values k outputs)); [done|].
      by destruct (decide (key = k)).
    + destruct (decide (key = k)) as [->|Hne].
      * by rewrite (decide_True (P := k ∈ k :: keys)) by (apply elem_of_cons; by left).
      * rewrite (decide_False (P := k ∈ key :: keys)); [done|].
        rewrite elem_of_cons. intros [?|?]; congruence.
Qed.

Lemma fold_disagreements outputs keys acc :
  dis_field <$> (foldl (deliberate_step str outputs) acc keys).2 =
  ((dis_field <$> acc.2)
   ++ filter (λ k, agree str (key_values k outputs) = false) keys)%list.
Proof.
  revert acc. induction keys as [|key keys IH]; intros acc.
  - simpl. by rewrite app_nil_r.
  - cbn [foldl]. rewrite IH, filter_cons. unfold deliberate_step.
    destruct (agree str (key_values key outputs)) eqn:Ha.
    + rewrite decide_False by done.
      by destruct (key_values key outputs).
    + rewrite decide_True by done. simpl.
      by rewrite fmap_app, <- app_assoc.
Qed.

(** X28. What [deliberate] makes of two or more outputs: every field that
    some output carries ends up either in the consensus or among the
    disagreements, never in both and nothing else does.  A field is in the
    consensus exactly when the values given for it have the same [str]
    (so it is whenever a single output carries it), and its value there is
    the one of the first output that has it. *)
Theorem deliberate_partition (outputs : list (AgentOutput V)) key :
  (2 ≤ length outputs)%nat →
  let r := deliberate str outputs in
  let held := ∃ o, o ∈ outputs ∧ is_Some (ao_data o !! key) in
  (is_Some (consensus r !! key) ∨ key ∈ dis_field <$> disagreements r ↔ held)
  ∧ ¬ (is_Some (consensus r !! key) ∧ key ∈ dis_field <$> disagreements r)
  ∧ (∀ v, consensus r !! key = Some v ↔
       head (key_values key outputs) = Some v
       ∧ ∀ o w, o ∈ outputs → ao_data o !! key = Some w → str w = str v)
  ∧ (length (key_values key outputs) = 1%nat → is_Some (consensus r !! key)).
Proof.
  intros Hlen. cbn zeta.
  destruct outputs as [|o1 [|o2 rest]]; [simpl in Hlen; lia | simpl in Hlen; lia |].
  unfold deliberate. cbn [consensus disagreements].
  generalize (o1 :: o2 :: rest). clear. intros outputs.
  set (all_keys := ⋃ ((λ o, dom (ao_data o)) <$> outputs) : gset string).
  assert (Hkeys : key ∈ elements all_keys ↔
                  ∃ o, o ∈ outputs ∧ is_Some (ao_data o !! key)).
  { rewrite elem_of_elements. unfold all_keys. rewrite elem_of_union_list. split.
    - intros (X & HX & Hk). apply list_elem_of_fmap in HX as (o & -> & Ho).
      exists o. split; [done|]. by apply elem_of_dom.
    - intros (o & Ho & Hk). exists (dom (ao_data o)). split.
      + apply list_elem_of_fmap. by exists o.
      + by apply elem_of_dom. }
  assert (Hnonempty : (∃ o, o ∈ outputs ∧ is_Some (ao_data o !! key)) ↔
                      key_values key outputs ≠ []).
  { split.
    - intros (o & Ho & [v Hv]) Hnil.
      assert (Hin : v ∈ key_values key outputs) by (apply key_values_elem; eauto).
      rewrite Hnil in Hin. by apply elem_of_nil in Hin.
    - intros Hne. destruct (key_values key outputs) as [|v vs] eqn:Hv; [done|].
      assert (Hin : v ∈ key_values key outputs)
        by (rewrite Hv; apply elem_of_cons; by left).
      apply key_values_elem in Hin as (o & Ho & Hd). exists o. by rewrite Hd. }
  assert (Hc : (foldl (deliberate_step str outputs) (∅, []) (elements all_keys)).1 !! key
               = if agree str (key_values key outputs)
                 then head (key_values key outputs) else None).
  { rewrite fold_consensus. cbn [fst]. rewrite lookup_empty.
    destruct (decide (key ∈ elements all_keys)) as [Hin|Hnin]; [done|].
    assert (Hnil : key_values key outputs = []).
    { destruct (key_values key outputs) as [|v vs] eqn:Hv; [done|].
      exfalso. apply Hnin, Hkeys, Hnonempty. congruence. }
    by rewrite Hnil, agree_nil. }
  assert (Hd : key ∈ dis_field <$>
                 (foldl (deliberate_step str outputs) (∅, []) (elements all_keys)).2
               ↔ key ∈ elements all_keys ∧ agree str (key_values key outputs) = false).
  { rewrite fold_disagreements. cbn [snd]. rewrite fmap_nil, app_nil_l, list_elem_of_filter.
    tauto. }
  rewrite Hc, Hd, Hkeys.
  destruct (agree str (key_values key outputs)) eqn:Ha.
  - destruct (key_values key outputs) as [|v vs] eqn:Hv;
      [by rewrite agree_nil in Ha|]. simpl.
    assert (Hheld : ∃ o, o ∈ outputs ∧ is_Some (ao_data o !! key))
      by (by apply Hnonempty).
    split_and!.
    + split; [done|]. intros _. left. by eexists.
    + intros [_ [_ ?]]. done.
    + intros v'. split.
      * intros [= <-]. split; [done|]. intros o w Ho Hw.
        apply (agree_all (v :: vs)); [done | | apply elem_of_cons; by left].
        rewrite <- Hv. apply key_values_elem. eauto.
      * by intros [[= <-] _].
    + intros _. by eexists.
  - split_and!.
    + split.
      * intros [[? ?] | [? _]]; [done | done].
      * intros Hheld. right. by split.
    + intros [[? ?] _]. done.
    + intros v'. split; [done|]. intros [Hh Hall].
      destruct (key_values key outputs) as [|v vs] eqn:Hv; [done|].
      simpl in Hh. injection Hh as ->.
      destruct vs as [|w vs]; [by rewrite agree_single in Ha|].
      exfalso. apply not_true_iff_false in Ha. apply Ha.
      unfold agree. apply bool_decide_eq_true.
      assert (Hset : (list_to_set (str <$> v' :: w :: vs) : gset string) = {[str v']}).
      { apply set_eq. intros x. rewrite elem_of_list_to_set, list_elem_of_fmap,
          elem_of_singleton. split.
        - intros (u & -> & Hu). rewrite <- Hv in Hu.
          apply key_values_elem in Hu as (o & Ho & Hu). by eapply Hall.
        - intros ->. exists v'. split; [done|]. apply elem_of_cons. by left. }
      rewrite Hset. apply size_singleton.
    + intros Hone. destruct (key_values key outputs) as [|v [|w vs]]; try done.
      by rewrite agree_single in Ha.
Qed.

End DeliberationFacts.

(* ===================================================================== *)
(** ** Instances of the further properties *)
(* ===================================================================== *)

Lemma assign_elsewhere_leaves_stale_entry_witness :
  ∃ a, incidents (graph (unassign_resource 3 "AMB-7"
           (assign_resource_manual 2 "AMB-7" "inc_s3"
              (assign_resource_manual 1 "AMB-7" "inc_x" graph_two).2).2).2) !! "inc_x"
       = Some a
     ∧ "AMB-7" ∈ assigned_resources a.
Proof.
  destruct (assign_elsewhere_leaves_stale_entry 1 2 3 "AMB-7" "inc_x" "inc_s3" graph_two
              (amb7 res_available None None None) (inc_x inc_active [])
              (inc_of_signal "s3" 3000))
    as [_ (r3 & a & b & _ & _ & _ & Ha & Hin & _)].
  - vm_compute. reflexivity.
  - vm_compute. reflexivity.
  - vm_compute. reflexivity.
  - discriminate.
  - discriminate.
  - apply not_elem_of_nil.
  - exists a. split; assumption.
Defined.

Lemma assign_moves_one_resource_witness :
  resources_deployed
    (get_stats (mkFullManager (assign_resource_manual 1 "AMB-7" "inc_x" graph_two).2 ∅))
  = (resources_deployed (get_stats (mkFullManager graph_two ∅)) + 1)%nat.
Proof.
  destruct (assign_moves_one_resource 1 "AMB-7" "inc_x" graph_two ∅
              (amb7 res_available None None None) (inc_x inc_active []))
    as (_ & H & _).
  - vm_compute. reflexivity.
  - vm_compute. reflexivity.
  - reflexivity.
  - exact H.
Defined.

Lemma image_incident_shape_witness :
  ∃ inc, image_incident 1000 "s3" (9 # 10) 17 42 md_plain image_severe = Some inc
       ∧ inc_urgency inc = CRITICAL.
Proof.
  eexists. split; [reflexivity|].
  destruct (image_incident_shape 1000 "s3" (9 # 10) 17 42 md_plain image_severe _ eq_refl)
    as (_ & [_ H] & _).
  apply H. by left.
Defined.

Lemma audio_incident_urgency_exact_witness :
  ∃ inc, audio_incident 1000 "s4" (4 # 5) 17 42 md_plain audio_verbose = Some inc
       ∧ inc_urgency inc = HIGH ∧ damage_level inc = MODERATE.
Proof.
  eexists. split; [reflexivity|].
  destruct (audio_incident_urgency_exact 1000 "s4" (4 # 5) 17 42 md_plain audio_verbose
              _ eq_refl) as (_ & _ & _ & H & _).
  apply H. intros s [= <-]. reflexivity.
Defined.

Lemma text_signal_keeps_graph_witness :
  ∃ c', process_signal_planned fallback_verify (λ _, None) 1000 1001 1002 1003
          "s5" "alert_5" 17 42 "text" md_plain analyzers_1 race_start = Some c'
      ∧ incidents (graph (graph_manager c')) = incidents (graph (graph_manager race_start))
      ∧ contradictions (graph (graph_manager c')) = ∅.
Proof.
  eexists. split; [reflexivity|].
  destruct (text_signal_keeps_graph fallback_verify (λ _, None) 1000 1001 1002 1003
              "s5" "alert_5" 17 42 md_plain analyzers_1 race_start _ eq_refl)
    as (H1 & _ & H3 & _).
  split; [exact H1 | exact H3].
Defined.

Lemma simulation_signals_skip_detector_witness :
  ∃ c' b, process_signal fallback_verify 1000 1001 1002 "s6" "alert_6" 17 42 "image"
            md_plain analyzers_1 (start_simulation race_start) = Some (c', b)
        ∧ contradictions (graph (graph_manager c')) = ∅
        ∧ signal_claims c' = signal_claims race_start.
Proof.
  eexists _, _. split; [reflexivity|].
  destruct (simulation_signals_skip_detector fallback_verify 1000 1001 1002 "s6"
              "alert_6" 17 42 "image" md_plain analyzers_1 (start_simulation race_start)
              _ _ eq_refl eq_refl) as (H1 & H2 & _).
  split; [exact H1 | exact H2].
Defined.

Lemma damaging_image_invokes_planner_witness :
  ∃ c', process_signal fallback_verify 1000 1001 1002 "s7" "alert_7" 17 42 "image"
          md_plain analyzers_1 coordinator_8 = Some (c', true)
      ∧ _last_planning_call c' = Some 1002.
Proof.
  destruct (damaging_image_invokes_planner fallback_verify 1000 1001 1002 "s7" "alert_7"
              17 42 md_plain analyzers_1 coordinator_8 _ eq_refl)
    as (c' & H1 & H2 & _).
  - discriminate.
  - discriminate.
  - reflexivity.
  - vm_compute. lia.
  - vm_compute. discriminate.
  - exists c'. split; assumption.
Defined.

Lemma reset_keeps_planning_cooldown_witness :
  (_maybe_generate_recommendations 10000000 10000001
     (on_graph (λ _, graph_8)
        (reset_simulation 6000000 (set_last_planning_call 5000000 coordinator_8)))).2
  = false.
Proof.
  destruct (reset_keeps_planning_cooldown 6000000 10000000 10000001 5000000
              (λ _, graph_8) (set_last_planning_call 5000000 coordinator_8))
    as [_ H].
  - reflexivity.
  - simpl. lia.
  - by rewrite H.
Defined.

Lemma detector_quiet_unless_adverse_witness :
  _check_contradictions (λ _ _, ver_consistent) 3000 "alert_1" race_start = race_start.
Proof.
  apply (detector_quiet_unless_adverse (λ _ _, ver_consistent) 3000 "alert_1" race_start).
  intros e claims. reflexivity.
Defined.

Lemma bridge_handled_reachable : reachable_atomically bridge_handled.
Proof.
  exists 0. unfold bridge_handled, race_start.
  eapply rtc_l; [apply step_text|].
  eapply rtc_l; [apply step_text|].
  eapply rtc_l; [apply step_incident|].
  apply rtc_refl.
Qed.

Lemma detector_alerts_sequential_witness :
  (length (unresolved_detector_alerts bridge bridge_handled) ≤ 1)%nat.
Proof.
  apply (detector_alerts_sequential bridge_handled bridge_handled_reachable).
Defined.

Lemma injection_ignores_handled_witness :
  bridge ∈ handled_contradictions bridge_handled
  ∧ has_claims bridge
      (_inject_contradiction_raw (λ _ _, Some raw_null_details) 4000 32000000 "alert_9"
         bridge_inject bridge_handled) = false
  ∧ contradictions (graph (graph_manager
      (_inject_contradiction_raw (λ _ _, Some raw_null_details) 4000 32000000 "alert_9"
         bridge_inject bridge_handled))) !! "alert_9" = None.
Proof.
  split; [vm_compute; set_solver|].
  destruct (injection_ignores_handled (λ _ _, Some raw_null_details) 4000 32000000
              "alert_9" bridge_inject bridge_handled
              (reachable_atomically_refs_valid _ bridge_handled_reachable))
    as (claims & _ & H2 & _ & _ & H5 & _).
  - simpl. lia.
  - split; [exact H2|].
    destruct H5 as [-> _]; reflexivity.
Defined.

Lemma run_turn_with_history_is_scripted_witness :
  _run_turn (λ _ _, Some "CHALLENGE: the answer of the model") (λ _, FloatError)
    2000 "system" "prompt" [("assistant", "ANALYSIS: the first turn")] 2
    "VerificationAgent" "challenger"
  = _fallback_turn 2000 2.
Proof.
  apply run_turn_with_history_is_scripted. discriminate.
Defined.

Lemma initial_resource_shape_witness :
  ∃ r, initial_resource 0 "f00dcafe" 17 42 "ambulances" item_amb7 = Some r
     ∧ resource_type r = "ambulance"
     ∧ assigned_incident r = None
     ∧ res_id r = "AMB-7".
Proof.
  eexists. split; [reflexivity|].
  destruct (initial_resource_shape 0 "f00dcafe" 17 42 "ambulances" item_amb7 _ eq_refl)
    as (_ & _ & H3 & _ & _ & _ & _ & _ & H9 & _).
  split; [reflexivity|]. split; [exact H3|]. by apply (H9 "AMB-7").
Defined.

Lemma deliberate_partition_witness :
  let r := deliberate id [output_vision; output_audio] in
  is_Some (consensus r !! "urgency") ∨ "urgency" ∈ dis_field <$> disagreements r.
Proof.
  destruct (deliberate_partition id [output_vision; output_audio] "urgency")
    as ([_ H] & _).
  - simpl. lia.
  - apply H. exists output_vision. split.
    + apply elem_of_cons. by left.
    + exists "critical". vm_compute. reflexivity.
Defined.
